(** * The assets panel of the editor: registry, cache snapshot and refresh coordination

    A shallow embedding of [src/renderer/editor/components/assets.tsx]
    (class [Assets]) and theorems about it.

    - The static registry [Assets._assetComponents] is a list of descriptors
      in registration order.
    - Synchronous methods are plain functions on the registry.
    - [async] methods are modelled by a machine whose state holds the
      activations suspended at an [await]; the environment decides which
      awaited handler promise settles next, and which public method is called
      in between. *)

From Stdlib Require Import QArith Qround Qpower Lqa SpecFloat.
From stdpp Require Import base tactics option list strings.

Set Default Proof Using "Type".
Open Scope string_scope.
Open Scope nat_scope.
Open Scope list_scope.

(** ** Values of the host language *)

(** [Undefinable<T>] and [Nullable<T>] of [shared/types]. *)
Definition Undefinable (A : Type) : Type := option A.
Definition Nullable (A : Type) : Type := option A.

(** The generic [object?: Undefinable<T>] argument of [refresh]: any value;
    only its truthiness is inspected ([!object]). *)
Inductive JsValue :=
| JsUndefined
| JsNull
| JsBoolean (b : bool)
| JsInteger (z : Z)
| JsString (s : string)
| JsObject (address : nat).

Definition truthy (v : JsValue) : bool :=
  match v with
  | JsUndefined | JsNull => false
  | JsBoolean b => b
  | JsInteger z => negb (z =? 0)%Z
  | JsString s => negb (String.eqb s "")
  | JsObject _ => true
  end.

(** Truthiness of [force?: Undefinable<boolean>]. *)
Definition truthy_flag (f : Undefinable bool) : bool :=
  match f with Some b => b | None => false end.

(** Outcome of a synchronous call: a value, or a thrown [TypeError]. *)
Inductive Completion (A : Type) :=
| Return (v : A)
| ThrowTypeError.
Arguments Return {A} v.
Arguments ThrowTypeError {A}.

(** Numbers are binary64 values. A finite one is given by the rational it
    denotes, kept in lowest terms; the sign of zero is not modelled (no
    quantity below is negative). *)
Inductive JsNumber :=
| Fin (q : Q)
| PosInf
| NegInf
| NaN.

(** [n / d] rounded to the nearest integer, ties to even ([0 < d]). *)
Definition rne (n d : Z) : Z :=
  let q := (n / d)%Z in
  match (2 * (n mod d) ?= d)%Z with
  | Lt => q
  | Gt => (q + 1)%Z
  | Eq => if Z.even q then q else (q + 1)%Z
  end.

Definition rne_Q (x : Q) : Z := rne (Qnum x) (Zpos (Qden x)).

(** The exponent [e] with [2 ^ e <= x < 2 ^ (e + 1)] ([0 < x]). *)
Definition floor_log2 (x : Q) : Z :=
  let e := (Z.log2 (Qnum x) - Z.log2 (Zpos (Qden x)))%Z in
  if Qle_bool (2 ^ e) x then e else (e - 1)%Z.

(** The binary64 value nearest to [x], ties to even ([0 < x]): a multiple
    [m * 2 ^ k] of the unit in the last place, with a significand of 53
    bits above the subnormal range, [Infinity] from [2 ^ 1024] on. *)
Definition binary64_pos (x : Q) : JsNumber :=
  let k := (Z.max (floor_log2 x) (-1022) - 52)%Z in
  let m := rne_Q (x / 2 ^ k) in
  if (1024 <=? Z.log2 m + k)%Z then PosInf else Fin (Qred (inject_Z m * 2 ^ k)).

(** The result of an arithmetic operation whose exact value is [x]. *)
Definition binary64 (x : Q) : JsNumber :=
  let x' := Qred x in
  match (x' ?= 0)%Q with
  | Eq => Fin 0
  | Gt => binary64_pos x'
  | Lt => match binary64_pos (- x') with
          | Fin q => Fin (- q)
          | PosInf => NegInf
          | other => other
          end
  end.

(** Half a unit in the last place, relative to the value: [2 ^ -53]. *)
Definition epsilon : Q := 1 # 9007199254740992.

(** The number of a length. *)
Definition js_of_nat (n : nat) : JsNumber := binary64 (inject_Z (Z.of_nat n)).

Definition js_div (a b : JsNumber) : JsNumber :=
  match a, b with
  | NaN, _ | _, NaN => NaN
  | Fin x, Fin y =>
      if Qeq_bool y 0
      then match (x ?= 0)%Q with Eq => NaN | Gt => PosInf | Lt => NegInf end
      else binary64 (x / y)
  | Fin _, (PosInf | NegInf) => Fin 0
  | PosInf, Fin y => if Qle_bool 0 y then PosInf else NegInf
  | NegInf, Fin y => if Qle_bool 0 y then NegInf else PosInf
  | (PosInf | NegInf), (PosInf | NegInf) => NaN
  end.

Definition js_mul (a b : JsNumber) : JsNumber :=
  let inf_times (positive : bool) (y : Q) :=
    match (y ?= 0)%Q with
    | Eq => NaN
    | Gt => if positive then PosInf else NegInf
    | Lt => if positive then NegInf else PosInf
    end in
  match a, b with
  | NaN, _ | _, NaN => NaN
  | Fin x, Fin y => binary64 (x * y)
  | PosInf, Fin y | Fin y, PosInf => inf_times true y
  | NegInf, Fin y | Fin y, NegInf => inf_times false y
  | PosInf, PosInf | NegInf, NegInf => PosInf
  | PosInf, NegInf | NegInf, PosInf => NegInf
  end.

Definition js_add (a b : JsNumber) : JsNumber :=
  match a, b with
  | NaN, _ | _, NaN => NaN
  | Fin x, Fin y => binary64 (x + y)
  | PosInf, NegInf | NegInf, PosInf => NaN
  | PosInf, _ | _, PosInf => PosInf
  | NegInf, _ | _, NegInf => NegInf
  end.

(** The value of a floating-point number of the Standard Library. *)
Definition of_spec_float (f : spec_float) : JsNumber :=
  match f with
  | S754_zero _ => Fin 0
  | S754_infinity false => PosInf
  | S754_infinity true => NegInf
  | S754_nan => NaN
  | S754_finite s m e =>
      Fin (Qred ((if s then -1 else 1) * inject_Z (Zpos m) * 2 ^ e))
  end.

(** The integer [n] as a binary64 number of the Standard Library. *)
Definition spec_float_of_nat (n : nat) : spec_float :=
  binary_normalize 53 1024 (Z.of_nat n) 0 false.

Definition js_eqb (a b : JsNumber) : bool :=
  match a, b with
  | Fin x, Fin y => Qeq_bool x y
  | PosInf, PosInf | NegInf, NegInf | NaN, NaN => true
  | _, _ => false
  end.

(** [a === Infinity] *)
Definition is_Infinity (a : JsNumber) : bool :=
  match a with PosInf => true | _ => false end.

(** [a < b] on numbers (false as soon as one side is NaN). *)
Definition js_lt (a b : JsNumber) : Prop :=
  match a, b with
  | Fin x, Fin y => (x < y)%Q
  | Fin _, PosInf | NegInf, Fin _ | NegInf, PosInf => True
  | _, _ => False
  end.

(** ** Data model *)

(** Identity of a component class ([new (props) => AbstractAssets]), compared
    with [===]. *)
Definition Ctor : Type := nat.

(** Modelled from the spec: [IAssetComponentItem] is declared in
    [assets/abstract-assets], which is not part of the sources at hand. The
    spec gives an item an [id], a [key], an optional base64 payload and
    style metadata, the four persisted fields; every other property of the
    object (user-interface state) is kept in [others]. *)
Record IAssetComponentItem := {
  id : string;
  key : string;
  base64 : Undefinable string;
  style : Undefinable string;
  others : list (string * string);
}.

Definition IFile : Type := string.

(** The closure registered on [updateAssetObservable] at lines 320-322. It
    captures [object], [assetStep], [task], the title of the component and
    the mutable local [progress] of its pass, shared with the pass itself:
    [obs_progress] is the address of that variable in the store. *)
Record Observer := {
  obs_id : nat;
  obs_object : JsValue;
  obs_assetStep : JsNumber;
  obs_task : Nullable nat;
  obs_title : string;
  obs_progress : nat;
}.

(** Modelled from the spec: a mounted handler, an instance of the class
    [AbstractAssets] (not part of the sources at hand). The coordinator reads
    and writes [items], subscribes to [updateAssetObservable] and calls
    [refresh] and the optional [onDropFiles]; what these calls do is up to
    the handler and is left to the environment of the machine below. *)
Record AbstractAssets := {
  items : list IAssetComponentItem;
  updateAssetObservable : list Observer;
  onDropFiles : bool;
}.

Record IAssetComponent := {
  title : string;
  identifier : string;
  ctor : Ctor;
  _id : Undefinable string;
  _ref : Undefinable AbstractAssets;
}.

Definition set_items (l : list IAssetComponentItem) (r : AbstractAssets) : AbstractAssets :=
  {| items := l;
     updateAssetObservable := updateAssetObservable r;
     onDropFiles := onDropFiles r |}.

Definition set_observers (o : list Observer) (r : AbstractAssets) : AbstractAssets :=
  {| items := items r;
     updateAssetObservable := o;
     onDropFiles := onDropFiles r |}.

Definition set_ref (r : Undefinable AbstractAssets) (c : IAssetComponent) : IAssetComponent :=
  {| title := title c;
     identifier := identifier c;
     ctor := ctor c;
     _id := _id c;
     _ref := r |}.

(** [Array.prototype.find] together with the index of the match. *)
Fixpoint find_from {A : Type} (p : A -> bool) (l : list A) (k : nat) : option (nat * A) :=
  match l with
  | [] => None
  | x :: l' => if p x then Some (k, x) else find_from p l' (S k)
  end.

Definition find {A : Type} (p : A -> bool) (l : list A) : option (nat * A) :=
  find_from p l 0.

(** ** Lookups (lines 235-260) *)

Definition getAssetsOf (componentCtor : Ctor) (reg : list IAssetComponent)
  : Undefinable (list IAssetComponentItem) :=
  match find (fun a => Nat.eqb (ctor a) componentCtor) reg with
  | Some (_, assetComponent) => items <$> _ref assetComponent
  | None => None
  end.

(** The object literal [{ id: c.id, base64: c.base64, key: c.key }]. *)
Definition id_base64_key (c : IAssetComponentItem) : IAssetComponentItem :=
  {| id := id c; key := key c; base64 := base64 c; style := None; others := [] |}.

(** [getAssetsOf(component.ctor)!.map(...)]: the non-null assertion is
    erased at run time, and [.map] on [undefined] throws. *)
Definition getAssetsOfComponentId (i : string) (reg : list IAssetComponent)
  : Completion (list IAssetComponentItem) :=
  match find (fun a => String.eqb (identifier a) i) reg with
  | None => Return []
  | Some (_, component) =>
      match getAssetsOf (ctor component) reg with
      | Some l => Return (id_base64_key <$> l)
      | None => ThrowTypeError
      end
  end.

Definition getComponent (componentCtor : Ctor) (reg : list IAssetComponent)
  : Nullable AbstractAssets :=
  match find (fun a => Nat.eqb (ctor a) componentCtor) reg with
  | Some (_, assetComponent) => _ref assetComponent
  | None => None
  end.

(** ** Cache snapshot and restore (lines 78-101) *)

(** [IStringDictionary<T>]: the own properties of an object, in the order
    they were created. That is the order [for ... in] enumerates them in
    when no key is a canonical array index (["0"], ["1"], ...): those come
    first, in ascending order, wherever they were created. *)
Abbreviation IStringDictionary V := (list (string * V)) (only parsing).

(** [result[k] = v] for an ordinary key [k]. The key [__proto__] is not
    one: on an object literal that assignment creates no property (it
    changes the prototype, or nothing at all). Statements that depend on
    the difference say that no title is [__proto__]. *)
Fixpoint dict_set {V : Type} (k : string) (v : V) (d : IStringDictionary V)
  : IStringDictionary V :=
  match d with
  | [] => [(k, v)]
  | (k', v') :: d' =>
      if String.eqb k' k then (k, v) :: d' else (k', v') :: dict_set k v d'
  end.

(** The object literal of lines 80-85. *)
Definition persisted (i : IAssetComponentItem) : IAssetComponentItem :=
  {| id := id i; key := key i; base64 := base64 i; style := style i; others := [] |}.

(** The value stored for a descriptor: [ac._ref?.items.map(...)], which is
    [undefined] when there is no instance. *)
Definition cached (ac : IAssetComponent) : Undefinable (list IAssetComponentItem) :=
  (fun r => persisted <$> items r) <$> _ref ac.

Definition GetCachedData (reg : list IAssetComponent)
  : IStringDictionary (Undefinable (list IAssetComponentItem)) :=
  foldl (fun result ac => dict_set (title ac) (cached ac) result) [] reg.

(** One turn of the loop of lines 95-100. The signature promises arrays, but
    a dictionary coming from [GetCachedData] holds [undefined] for a
    descriptor without instance. For such an entry and a mounted first
    descriptor of the title, the code stores [undefined] in [items] and
    goes on: the handler leaves the declared type [IAssetComponentItem[]],
    and the next [GetCachedData] throws on [items.map]. A registry in that
    state has no counterpart here, and the turn is reported as [None]:
    [None] does not mean that the code throws or stops. *)
Definition SetCachedData_entry (reg : list IAssetComponent)
    (entry : string * Undefinable (list IAssetComponentItem))
  : option (list IAssetComponent) :=
  match find (fun ac => String.eqb (title ac) entry.1) reg with
  | None => Some reg
  | Some (j, ac) =>
      match _ref ac with
      | None => Some reg
      | Some r =>
          match entry.2 with
          | Some l => Some (<[j := set_ref (Some (set_items l r)) ac]> reg)
          | None => None
          end
      end
  end.

Fixpoint SetCachedData (data : IStringDictionary (Undefinable (list IAssetComponentItem)))
    (reg : list IAssetComponent) : option (list IAssetComponent) :=
  match data with
  | [] => Some reg
  | entry :: data' =>
      match SetCachedData_entry reg entry with
      | Some reg' => SetCachedData data' reg'
      | None => None
      end
  end.

(** ** The coordinator: state *)

(** What runs when the promise of [_refreshAllAssets] is fulfilled: nothing
    of this class when a client called [refresh] or [forceRefresh], the rest
    of [addFilesToAssets] (line 295) when it was awaited at line 293. *)
Inductive Awaiter :=
| ByCaller
| ByAddFilesToAssets.

(** Calls that leave the class, in the order they happen. *)
Inductive Effect :=
| AddTaskFeedback (task : nat) (amount : JsNumber) (message : string) (timeout : Undefinable nat)
| UpdateTaskFeedback (task : Nullable nat) (amount : JsNumber) (message : Undefinable string)
| CloseTaskFeedback (task : Nullable nat) (timeout : Undefinable nat)
| AlertShow (heading message : string)
| ObservableAdd (component observer : nat)
| ObservableRemove (component observer : nat)
| HandlerRefresh (component : nat) (object : JsValue)
| HandlerOnDropFiles (component : nat) (files : list IFile)
| InspectorRefresh.

(** The parameters and locals of one activation of [_refreshAllAssets] that
    live for the whole pass. [progress] is the address of the local of that
    name, which the observers of the pass share. *)
Record Pass := {
  componentCtor : Undefinable Ctor;
  object : JsValue;
  force : Undefinable bool;
  task : Nullable nat;
  step : JsNumber;
  progress : nat;
  awaiter : Awaiter;
}.

(** [_refreshAllAssets] suspended at line 323: [component] is
    [_assetComponents[rf_index]]. *)
Record RefreshFrame := {
  rf_pass : Pass;
  rf_index : nat;
  rf_assetStep : JsNumber;
  rf_observer : nat;
}.

(** [addFilesToAssets] suspended at line 286. [df_components] is the array
    [components] of line 279, each instance named by the position of its
    descriptor in the registry. *)
Record DropFrame := {
  df_files : list IFile;
  df_taskFeedBack : nat;
  df_components : list nat;
  df_i : nat;
}.

Inductive Activation :=
| AwaitRefresh (f : RefreshFrame)
| AwaitOnDropFiles (f : DropFrame)
| Fulfilled
| Rejected.

Record Assets := {
  _assetComponents : list IAssetComponent;
  _isRefreshing : bool;
  _needsRefresh : bool;
  activations : list Activation;
  store : list JsNumber;
  tasks : nat;
  observers : nat;
  log : list Effect;
}.

Definition set_assetComponents (v : list IAssetComponent) (st : Assets) : Assets :=
  {| _assetComponents := v; _isRefreshing := _isRefreshing st;
     _needsRefresh := _needsRefresh st; activations := activations st;
     store := store st; tasks := tasks st; observers := observers st;
     log := log st |}.

Definition set_isRefreshing (v : bool) (st : Assets) : Assets :=
  {| _assetComponents := _assetComponents st; _isRefreshing := v;
     _needsRefresh := _needsRefresh st; activations := activations st;
     store := store st; tasks := tasks st; observers := observers st;
     log := log st |}.

Definition set_needsRefresh (v : bool) (st : Assets) : Assets :=
  {| _assetComponents := _assetComponents st; _isRefreshing := _isRefreshing st;
     _needsRefresh := v; activations := activations st;
     store := store st; tasks := tasks st; observers := observers st;
     log := log st |}.

Definition set_activations (v : list Activation) (st : Assets) : Assets :=
  {| _assetComponents := _assetComponents st; _isRefreshing := _isRefreshing st;
     _needsRefresh := _needsRefresh st; activations := v;
     store := store st; tasks := tasks st; observers := observers st;
     log := log st |}.

Definition set_store (v : list JsNumber) (st : Assets) : Assets :=
  {| _assetComponents := _assetComponents st; _isRefreshing := _isRefreshing st;
     _needsRefresh := _needsRefresh st; activations := activations st;
     store := v; tasks := tasks st; observers := observers st;
     log := log st |}.

Definition set_tasks (v : nat) (st : Assets) : Assets :=
  {| _assetComponents := _assetComponents st; _isRefreshing := _isRefreshing st;
     _needsRefresh := _needsRefresh st; activations := activations st;
     store := store st; tasks := v; observers := observers st;
     log := log st |}.

Definition set_observer_count (v : nat) (st : Assets) : Assets :=
  {| _assetComponents := _assetComponents st; _isRefreshing := _isRefreshing st;
     _needsRefresh := _needsRefresh st; activations := activations st;
     store := store st; tasks := tasks st; observers := v;
     log := log st |}.

Definition emit (e : list Effect) (st : Assets) : Assets :=
  {| _assetComponents := _assetComponents st; _isRefreshing := _isRefreshing st;
     _needsRefresh := _needsRefresh st; activations := activations st;
     store := store st; tasks := tasks st; observers := observers st;
     log := log st ++ e |}.

(** The instance mounted for the descriptor at position [k]. *)
Definition instance (k : nat) (st : Assets) : option (IAssetComponent * AbstractAssets) :=
  match _assetComponents st !! k with
  | Some component =>
      match _ref component with
      | Some r => Some (component, r)
      | None => None
      end
  | None => None
  end.

Definition set_instance (k : nat) (component : IAssetComponent) (r : AbstractAssets)
    (st : Assets) : Assets :=
  set_assetComponents (<[k := set_ref (Some r) component]> (_assetComponents st)) st.

(** An activation reaches an [await] on a pending promise: it takes the slot
    [tid], a new one when [tid] is the number of slots. *)
Definition suspend (tid : nat) (a : Activation) (st : Assets) : Assets :=
  set_activations
    (if tid <? length (activations st)
     then <[tid := a]> (activations st)
     else activations st ++ [a]) st.

(** The promise of the activation in slot [tid] is settled (an activation
    that never suspended has no slot, and nothing is recorded). *)
Definition settle (tid : nat) (a : Activation) (st : Assets) : Assets :=
  set_activations (<[tid := a]> (activations st)) st.

(** [this._editor.addTaskFeedback(amount, message, timeout)] *)
Definition addTaskFeedback (amount : JsNumber) (message : string)
    (timeout : Undefinable nat) (st : Assets) : nat * Assets :=
  (tasks st,
   emit [AddTaskFeedback (tasks st) amount message timeout]
     (set_tasks (S (tasks st)) st)).

(** The continuation of [await this._refreshAllAssets()]. A continuation
    waiting on a promise that is settled already is run at once. *)
Definition fulfil (tid : nat) (a : Awaiter) (st : Assets) : Assets :=
  let st' := settle tid Fulfilled st in
  match a with
  | ByCaller => st'
  | ByAddFilesToAssets => emit [InspectorRefresh] st'
  end.

Definition quote : string := String (Ascii.ascii_of_nat 34) EmptyString.

(** ** [_refreshAllAssets] (lines 301-337) *)

(** Lines 313-315: the array iterator stands before position [k] of the
    registry, [l] is what is left; the first descriptor that is not skipped. *)
Fixpoint next_component (componentCtor : Undefinable Ctor) (l : list IAssetComponent)
    (k : nat) : option (nat * IAssetComponent * AbstractAssets) :=
  match l with
  | [] => None
  | component :: l' =>
      if match componentCtor with
         | Some c => negb (Nat.eqb c (ctor component))
         | None => false
         end
      then next_component componentCtor l' (S k)
      else match _ref component with
           | None => next_component componentCtor l' (S k)
           | Some r => Some (k, component, r)
           end
  end.

(** Lines 317-323, up to the [await]. *)
Definition visit (tid : nat) (p : Pass) (k : nat) (component : IAssetComponent)
    (r : AbstractAssets) (st : Assets) : Assets :=
  let assetStep := js_div (step p) (js_of_nat (length (items r))) in
  let r1 := if truthy_flag (force p) then set_items [] r else r in
  let observer :=
    {| obs_id := observers st; obs_object := object p; obs_assetStep := assetStep;
       obs_task := task p; obs_title := title component;
       obs_progress := progress p |} in
  let r2 := set_observers (updateAssetObservable r1 ++ [observer]) r1 in
  suspend tid
    (AwaitRefresh {| rf_pass := p; rf_index := k; rf_assetStep := assetStep;
                     rf_observer := obs_id observer |})
    (emit [ObservableAdd k (obs_id observer); HandlerRefresh k (object p)]
       (set_observer_count (S (observers st)) (set_instance k component r2 st))).

(** Lines 329-330. *)
Definition epilogue (p : Pass) (st : Assets) : Assets :=
  set_isRefreshing false
    (if negb (truthy (object p))
     then emit [CloseTaskFeedback (task p) (Some 0)] st else st).

(** The loop of lines 313-327 from position [k] on, then lines 329-336.
    [rerun] is the call of line 335. *)
Definition for_of (rerun : Assets -> option Assets) (tid : nat) (p : Pass) (k : nat)
    (st : Assets) : option Assets :=
  match next_component (componentCtor p) (drop k (_assetComponents st)) k with
  | Some (j, component, r) => Some (visit tid p j component r st)
  | None =>
      let st' := epilogue p st in
      if _needsRefresh st'
      then rerun (set_needsRefresh false st')
      else Some (fulfil tid (awaiter p) st')
  end.

(** Lines 307-311. *)
Definition prologue (a : Awaiter) (componentCtor : Undefinable Ctor) (object : JsValue)
    (force : Undefinable bool) (st : Assets) : Pass * Assets :=
  let '(task, st1) :=
    if negb (truthy object)
    then let '(t, s) := addTaskFeedback (Fin 0) "Updating assets" (Some 0) st in (Some t, s)
    else (None, st) in
  let st2 := set_isRefreshing true st1 in
  ({| componentCtor := componentCtor; object := object; force := force;
      task := task;
      step := js_div (Fin 100) (js_of_nat (length (_assetComponents st2)));
      progress := length (store st2);
      awaiter := a |},
   set_store (store st2 ++ [Fin 0]) st2).

(** Lines 302-305, then the rest of the method. *)
Definition refreshAllAssets_body (rerun : Assets -> option Assets) (tid : nat)
    (a : Awaiter) (componentCtor : Undefinable Ctor) (object : JsValue)
    (force : Undefinable bool) (st : Assets) : option Assets :=
  if _isRefreshing st
  then Some (fulfil tid a (set_needsRefresh true st))
  else
    let '(p, st') := prologue a componentCtor object force st in
    for_of rerun tid p 0 st'.

(** The recursion of line 335 is bounded by [fuel]; one unit is always
    enough ([refreshAllAssets_fuel_enough] below). *)
Fixpoint refreshAllAssets_fuel (fuel : nat) (tid : nat) (a : Awaiter)
    (componentCtor : Undefinable Ctor) (object : JsValue) (force : Undefinable bool)
    (st : Assets) : option Assets :=
  refreshAllAssets_body
    (match fuel with
     | 0 => fun _ => None
     | S fuel' => refreshAllAssets_fuel fuel' tid a None JsUndefined None
     end)
    tid a componentCtor object force st.

Definition _refreshAllAssets := refreshAllAssets_fuel 1.

(** Lines 324-326, once the awaited [refresh] is fulfilled. *)
Definition after_refresh (f : RefreshFrame) (st : Assets) : option Assets :=
  let p := rf_pass f in
  match instance (rf_index f) st with
  | None => None
  | Some (component, r) =>
      let r' := set_observers
                  (List.filter (fun o => negb (Nat.eqb (obs_id o) (rf_observer f)))
                     (updateAssetObservable r)) r in
      let st1 := emit [ObservableRemove (rf_index f) (rf_observer f)]
                   (set_instance (rf_index f) component r' st) in
      if negb (truthy (object p)) && is_Infinity (rf_assetStep f)
      then match store st1 !! progress p with
           | Some v =>
               let v' := js_add v (step p) in
               Some (emit [UpdateTaskFeedback (task p) v' None]
                       (set_store (<[progress p := v']> (store st1)) st1))
           | None => None
           end
      else Some st1
  end.

(** The awaited [refresh] is fulfilled: lines 324-326, then the loop goes on
    behind position [rf_index]. *)
Definition resume_refresh (tid : nat) (f : RefreshFrame) (st : Assets) : option Assets :=
  match after_refresh f st with
  | Some st' =>
      for_of (_refreshAllAssets tid (awaiter (rf_pass f)) None JsUndefined None)
        tid (rf_pass f) (S (rf_index f)) st'
  | None => None
  end.

(** ** Public methods *)

Definition refresh (component : Undefinable Ctor) (object : JsValue) (st : Assets)
  : option Assets :=
  _refreshAllAssets (length (activations st)) ByCaller component object None st.

Definition forceRefresh (component : Undefinable Ctor) (st : Assets) : option Assets :=
  _refreshAllAssets (length (activations st)) ByCaller component JsUndefined (Some true) st.

(** ** [addFilesToAssets] (lines 273-296) *)

(** [Assets._assetComponents.filter((ac) => ac._ref).map((ac) => ac._ref)] *)
Fixpoint mounted_from (l : list IAssetComponent) (k : nat) : list nat :=
  match l with
  | [] => []
  | ac :: l' =>
      match _ref ac with
      | Some _ => k :: mounted_from l' (S k)
      | None => mounted_from l' (S k)
      end
  end.

Definition mounted (reg : list IAssetComponent) : list nat := mounted_from reg 0.

(** [length / i * 100] *)
Definition drop_progress (length i : nat) : JsNumber :=
  js_mul (js_div (js_of_nat length) (js_of_nat i)) (Fin 100).

(** The loop of lines 282-289 with [l] the part of [components] from
    position [i] on, then lines 291-295. *)
Fixpoint drop_files (tid : nat) (files : list IFile) (taskFeedBack : nat)
    (components : list nat) (l : list nat) (i : nat) (st : Assets) : option Assets :=
  match l with
  | [] =>
      _refreshAllAssets tid ByAddFilesToAssets None JsUndefined None
        (emit [CloseTaskFeedback (Some taskFeedBack) None] st)
  | c :: l' =>
      match instance c st with
      | None => None
      | Some (_, r) =>
          if onDropFiles r
          then Some (suspend tid
                       (AwaitOnDropFiles
                          {| df_files := files; df_taskFeedBack := taskFeedBack;
                             df_components := components; df_i := i |})
                       (emit [HandlerOnDropFiles c files] st))
          else drop_files tid files taskFeedBack components l' (S i)
                 (emit [UpdateTaskFeedback (Some taskFeedBack)
                          (drop_progress (length components) i) None] st)
      end
  end.

Definition addFilesToAssets (files : list IFile) (st : Assets) : option Assets :=
  if _isRefreshing st
  then Some (emit [AlertShow "Please wait."
                     "Assets are being refreshed. Please wait until the process is done before adding new files."]
               st)
  else
    let '(taskFeedBack, st1) := addTaskFeedback (Fin 0) "Loading Files..." None st in
    let components := mounted (_assetComponents st1) in
    drop_files (length (activations st1)) files taskFeedBack components components 0 st1.

(** Line 288 once the awaited [onDropFiles] is fulfilled, then the loop goes
    on with [i + 1]. *)
Definition resume_drop (tid : nat) (f : DropFrame) (st : Assets) : option Assets :=
  drop_files tid (df_files f) (df_taskFeedBack f) (df_components f)
    (drop (S (df_i f)) (df_components f)) (S (df_i f))
    (emit [UpdateTaskFeedback (Some (df_taskFeedBack f))
             (drop_progress (length (df_components f)) (df_i f)) None] st).

(** ** Handlers at work *)

(** The body of the closure of line 321. *)
Definition observer_callback (o : Observer) (st : Assets) : option Assets :=
  if negb (truthy (obs_object o)) && negb (is_Infinity (obs_assetStep o))
  then match store st !! obs_progress o with
       | Some v =>
           let v' := js_add v (obs_assetStep o) in
           Some (emit [UpdateTaskFeedback (obs_task o) v'
                         (Some ("Updating assets " ++ quote ++ obs_title o ++ quote)%string)]
                   (set_store (<[obs_progress o := v']> (store st)) st))
       | None => None
       end
  else Some st.

(** [updateAssetObservable.notifyObservers()] *)
Fixpoint notifyObservers (l : list Observer) (st : Assets) : option Assets :=
  match l with
  | [] => Some st
  | o :: l' =>
      match observer_callback o st with
      | Some st' => notifyObservers l' st'
      | None => None
      end
  end.

(** ** The machine *)

Inductive Event :=
| Call_refresh (component : Undefinable Ctor) (object : JsValue)
| Call_forceRefresh (component : Undefinable Ctor)
| Call_addFilesToAssets (files : list IFile)
(** the promise awaited by the activation in slot [tid] is settled *)
| Settle (tid : nat) (fulfilled : bool)
(** the handler at position [k] notifies [updateAssetObservable] *)
| Handler_notifies (k : nat)
(** the handler at position [k] replaces its own [items] *)
| Handler_items (k : nat) (l : list IAssetComponentItem).

Definition react (ev : Event) (st : Assets) : option Assets :=
  match ev with
  | Call_refresh component object => refresh component object st
  | Call_forceRefresh component => forceRefresh component st
  | Call_addFilesToAssets files => addFilesToAssets files st
  | Settle tid fulfilled =>
      match activations st !! tid with
      | Some (AwaitRefresh f) =>
          if fulfilled then resume_refresh tid f st else Some (settle tid Rejected st)
      | Some (AwaitOnDropFiles f) =>
          if fulfilled then resume_drop tid f st else Some (settle tid Rejected st)
      | _ => None
      end
  | Handler_notifies k =>
      match instance k st with
      | Some (_, r) => notifyObservers (updateAssetObservable r) st
      | None => None
      end
  | Handler_items k l =>
      match instance k st with
      | Some (component, r) => Some (set_instance k component (set_items l r) st)
      | None => None
      end
  end.

Fixpoint run (evs : list Event) (st : Assets) : option Assets :=
  match evs with
  | [] => Some st
  | ev :: evs' =>
      match react ev st with
      | Some st' => run evs' st'
      | None => None
      end
  end.

(** A freshly constructed [Assets] over the registry [reg]. *)
Definition initial (reg : list IAssetComponent) : Assets :=
  {| _assetComponents := reg; _isRefreshing := false; _needsRefresh := false;
     activations := []; store := []; tasks := 0; observers := 0; log := [] |}.

(** ** Observations on a state *)

Definition is_pass (a : Activation) : bool :=
  match a with AwaitRefresh _ => true | _ => false end.

(** Passes that are executing: activations of [_refreshAllAssets] between
    line 308 and line 330. *)
Definition executing (st : Assets) : list Activation :=
  List.filter is_pass (activations st).

(** Passes started so far: each one declares its own [progress]. *)
Definition passes (st : Assets) : nat := length (store st).

Definition Idle (st : Assets) : Prop :=
  _isRefreshing st = false /\ _needsRefresh st = false /\ executing st = [].

(** Positions of the handlers whose [refresh] was called, in call order. *)
Fixpoint refreshed (l : list Effect) : list nat :=
  match l with
  | [] => []
  | HandlerRefresh k _ :: l' => k :: refreshed l'
  | _ :: l' => refreshed l'
  end.

(** Amounts passed to [updateTaskFeedback] for the task [t], in call order. *)
Fixpoint amounts (t : nat) (l : list Effect) : list JsNumber :=
  match l with
  | [] => []
  | UpdateTaskFeedback (Some t') a _ :: l' =>
      if Nat.eqb t' t then a :: amounts t l' else amounts t l'
  | _ :: l' => amounts t l'
  end.

(** ** Sample registries *)

Definition item (i : string) : IAssetComponentItem :=
  {| id := i; key := (i ++ ".key")%string; base64 := Some "aGk="; style := None;
     others := [("isSelected", "true")] |}.

Definition handler (l : list IAssetComponentItem) (hook : bool) : AbstractAssets :=
  {| items := l; updateAssetObservable := []; onDropFiles := hook |}.

Definition descriptor (t : string) (c : Ctor) (r : Undefinable AbstractAssets)
  : IAssetComponent :=
  {| title := t; identifier := (t ++ "-id")%string; ctor := c; _id := Some t; _ref := r |}.

(** Two mounted handlers, A with two items and B with none (the scenario of
    the specification). *)
Definition registryAB : list IAssetComponent :=
  [ descriptor "A" 1 (Some (handler [item "a1"; item "a2"] true));
    descriptor "B" 2 (Some (handler [] false)) ].

(** Two mounted handlers registered under one title. *)
Definition registryTT : list IAssetComponent :=
  [ descriptor "T" 1 (Some (handler [item "x"] false));
    descriptor "T" 2 (Some (handler [item "y"] false)) ].

(** A descriptor that is registered but not mounted. *)
Definition registryUnmounted : list IAssetComponent :=
  [ descriptor "A" 1 None ].

(** ** Statements about the cache *)





(** ** Statements about the coordinator *)

(** Positions at which the loop of lines 313-327 stops, in order, when the
    iterator stands before position [k] and [l] is what is left. *)
Fixpoint selected (componentCtor : Undefinable Ctor) (l : list IAssetComponent)
    (k : nat) : list nat :=
  match l with
  | [] => []
  | component :: l' =>
      if match componentCtor with
         | Some c => negb (Nat.eqb c (ctor component))
         | None => false
         end
      then selected componentCtor l' (S k)
      else match _ref component with
           | None => selected componentCtor l' (S k)
           | Some _ => k :: selected componentCtor l' (S k)
           end
  end.

(** Handlers the suspended pass [f] has still to visit. *)
Definition remaining (f : RefreshFrame) (st : Assets) : list nat :=
  selected (componentCtor (rf_pass f))
    (drop (S (rf_index f)) (_assetComponents st)) (S (rf_index f)).

(** What no method of the class changes in a descriptor. *)
Definition shape (c : IAssetComponent) : string * string * Ctor * option bool :=
  (title c, identifier c, ctor c, onDropFiles <$> _ref c).

Definition is_mounted (k : nat) (st : Assets) : Prop :=
  is_Some (instance k st).

(** The variables a suspended activation will use exist. *)
Definition valid_frame (st : Assets) (a : Activation) : Prop :=
  match a with
  | AwaitRefresh f =>
      is_mounted (rf_index f) st /\ progress (rf_pass f) < length (store st)
  | AwaitOnDropFiles f => Forall (fun k => is_mounted k st) (df_components f)
  | Fulfilled | Rejected => True
  end.

Definition valid_observers (st : Assets) : Prop :=
  forall k c r, instance k st = Some (c, r) ->
    Forall (fun o => obs_progress o < length (store st)) (updateAssetObservable r).

(** The invariant of the machine. *)
Record wf (st : Assets) : Prop := {
  wf_one_pass : forall t1 t2 a1 a2,
    activations st !! t1 = Some a1 -> activations st !! t2 = Some a2 ->
    is_pass a1 = true -> is_pass a2 = true -> t1 = t2;
  wf_guard : forall t a,
    activations st !! t = Some a -> is_pass a = true -> _isRefreshing st = true;
  wf_pending : _needsRefresh st = true -> _isRefreshing st = true;
  wf_frames : forall t a, activations st !! t = Some a -> valid_frame st a;
  wf_observers : valid_observers st;
}.

(** The state between the moment the activation of slot [tid] is resumed (or
    about to be created) and the moment it is suspended or settled again:
    nothing is assumed of slot [tid], and no other slot holds a pass. *)
Record mid (tid : nat) (st : Assets) : Prop := {
  mid_slot : tid <= length (activations st);
  mid_others : forall t a, t <> tid -> activations st !! t = Some a ->
    is_pass a = false /\ valid_frame st a;
  mid_observers : valid_observers st;
}.

Definition is_call (ev : Event) : bool :=
  match ev with
  | Call_refresh _ _ | Call_forceRefresh _ => true
  | _ => false
  end.

Definition is_settle (tid : nat) (ev : Event) : bool :=
  match ev with
  | Settle t true => Nat.eqb t tid
  | _ => false
  end.

(** Number of handler promises of slot [tid] fulfilled in [evs]. *)
Definition settles (tid : nat) (evs : list Event) : nat :=
  length (List.filter (is_settle tid) evs).

(** What may happen while the pass of slot [tid] is in flight and its
    handlers keep their promises: calls of the public methods, handlers at
    work, and the fulfilment of the promise the pass awaits. *)
Definition during (tid : nat) (st : Assets) (ev : Event) : Prop :=
  match ev with
  | Call_refresh _ _ | Call_forceRefresh _ | Call_addFilesToAssets _ => True
  | Settle t fulfilled => t = tid /\ fulfilled = true
  | Handler_notifies k | Handler_items k _ => is_mounted k st
  end.


(** The pass of slot [tid], with parameters and locals [p], awaits the
    handler at position [j]. *)
Definition awaiting (tid : nat) (p : Pass) (j : nat) (st : Assets) : Prop :=
  exists f, activations st !! tid = Some (AwaitRefresh f) /\
    rf_pass f = p /\ rf_index f = j.

(** A full, unfiltered, unforced pass: the parameters of the call
    [_refreshAllAssets()]. *)
Definition plain (p : Pass) : Prop :=
  componentCtor p = None /\ object p = JsUndefined /\ force p = None.

(** No handler of the registry has a subscriber. *)
Definition unobserved (reg : list IAssetComponent) : Prop :=
  forall c r, c ∈ reg -> _ref c = Some r -> updateAssetObservable r = [].

(** The state [st'] is the one in which the pass of slot [tid] has just
    called [refresh] on the handler it awaits: lines 317-323 were the last
    thing to run. *)
Definition visited (tid : nat) (f : RefreshFrame) (st' : Assets) : Prop :=
  exists component r st0,
    st' = visit tid (rf_pass f) (rf_index f) component r st0 /\
    instance (rf_index f) st0 = Some (component, r) /\
    tid <= length (activations st0).

(** Whether the handler at position [k] has the optional [onDropFiles]. *)
Definition has_hook (st : Assets) (k : nat) : bool :=
  match instance k st with
  | Some (_, r) => onDropFiles r
  | None => false
  end.

(** Number of promises [addFilesToAssets] awaits over the handlers [l]. *)
Definition hooks (st : Assets) (l : list nat) : nat :=
  length (List.filter (has_hook st) l).

(** Number of handlers at the head of [l] that the loop of lines 282-289
    passes without awaiting anything: the ones without [onDropFiles]. *)
Fixpoint leading (st : Assets) (l : list nat) : nat :=
  match l with
  | [] => 0
  | c :: l' => if has_hook st c then 0 else S (leading st l')
  end.

(** [length / i * 100] computed with the binary64 operations of the
    Standard Library. *)
Definition spec_float_progress (length i : nat) : JsNumber :=
  of_spec_float
    (SFmul 53 1024
       (SFdiv 53 1024 (spec_float_of_nat length) (spec_float_of_nat i))
       (spec_float_of_nat 100)).

(** Lengths and indices up to 40. *)
Definition small_lengths : list (nat * nat) :=
  n ← seq 0 41; (fun i => (n, i)) <$> seq 0 41.

(** ** Sample states *)

(** [refresh()] was called on a fresh coordinator over A and B: the pass of
    slot 0 awaits A. *)
Definition refreshingAB : Assets :=
  default (initial registryAB)
    (run [Call_refresh None JsUndefined] (initial registryAB)).

(** [forceRefresh(A)] was called on a fresh coordinator over A and B: the
    forced pass of slot 0 awaits A. *)
Definition forcedAB : Assets :=
  default (initial registryAB)
    (react (Call_forceRefresh (Some 1)) (initial registryAB)).

Definition forcedAB_frame : RefreshFrame :=
  {| rf_pass := {| componentCtor := Some 1; object := JsUndefined;
                   force := Some true; task := Some 0; step := Fin 50;
                   progress := 0; awaiter := ByCaller |};
     rf_index := 0; rf_assetStep := Fin 25; rf_observer := 0 |}.

(** The notice of line 275. *)
Definition busy_notice : Effect :=
  AlertShow "Please wait."
    "Assets are being refreshed. Please wait until the process is done before adding new files.".

(** [refresh()] was called on a fresh coordinator over A and B, and the
    promise of A's [refresh] was rejected. *)
Definition rejectedAB : Assets :=
  default (initial registryAB)
    (run [Call_refresh None JsUndefined; Settle 0 false] (initial registryAB)).




(** The event that led from [st0] to [st1] started the pass [f]: the pass
    stands at the first descriptor it selects, whose [refresh] was just
    called, with the rest of its selection ahead. *)
Definition started (st0 st1 : Assets) (f : RefreshFrame) : Prop :=
  exists j rest,
    selected (componentCtor (rf_pass f)) (_assetComponents st0) 0 = j :: rest /\
    rf_index f = j /\ remaining f st1 = rest /\
    refreshed (log st1) = refreshed (log st0) ++ [j] /\
    shape <$> _assetComponents st1 = shape <$> _assetComponents st0.



(** ** Statements about the states the machine reaches *)

(** The event can happen in the state: a promise can only be settled for
    an activation that awaits one, and only a mounted handler is at work. *)
Definition enabled (ev : Event) (st : Assets) : Prop :=
  match ev with
  | Call_refresh _ _ | Call_forceRefresh _ | Call_addFilesToAssets _ => True
  | Settle tid _ =>
      match activations st !! tid with
      | Some (AwaitRefresh _) | Some (AwaitOnDropFiles _) => True
      | _ => False
      end
  | Handler_notifies k | Handler_items k _ => is_mounted k st
  end.

(** [addFilesToAssets] was called on a fresh coordinator over A and B: it
    awaits the [onDropFiles] of A. *)
Definition droppingAB : Assets :=
  default (initial registryAB)
    (react (Call_addFilesToAssets ["a.png"]) (initial registryAB)).

(** ** The rest of the registry (lines 63-73, 158-164) *)

Definition set_id (i : Undefinable string) (c : IAssetComponent) : IAssetComponent :=
  {| title := title c;
     identifier := identifier c;
     ctor := ctor c;
     _id := i;
     _ref := _ref c |}.

(** [Assets.addAssetComponent]: [randomId] is what [Tools.RandomId()]
    returns. The method writes [_id] into the object it is given and pushes
    that very object. [same] lists the positions at which the registry
    holds the object already (none when it is registered for the first
    time): being the same object, they show the new [_id] as well. *)
Definition addAssetComponent (randomId : string) (component : IAssetComponent)
    (same : list nat) (reg : list IAssetComponent) : list IAssetComponent :=
  imap (fun k a => if bool_decide (k ∈ same) then set_id (Some randomId) a else a) reg
  ++ [set_id (Some randomId) component].

(** [a._id === i] *)
Definition has_id (i : string) (a : IAssetComponent) : bool :=
  match _id a with
  | Some x => String.eqb x i
  | None => false
  end.

(** [_refHandler.getAssetComponent] (line 63). React passes the instance it
    mounted, here its [props.id] and the instance, or [null] when it unmounts
    one. [find(...)!] is erased at run time: writing [_ref] on [undefined]
    throws. *)
Definition getAssetComponent (ref : Nullable (string * AbstractAssets))
    (reg : list IAssetComponent) : Completion (list IAssetComponent) :=
  match ref with
  | None => Return reg
  | Some (i, r) =>
      match find (has_id i) reg with
      | Some (j, a) => Return (<[j := set_ref (Some r) a]> reg)
      | None => ThrowTypeError
      end
  end.

(** [selectTab] (lines 158-164). [tabs] is [this._tabs], holding
    [state.selectedTabId] once the tab bar is mounted; the result is the new
    [this._tabs] and the argument of [setState] when it is called. *)
Definition selectTab (component : Undefinable Ctor) (reg : list IAssetComponent)
    (tabs : Nullable (Undefinable string))
  : Nullable (Undefinable string) * option string :=
  let i : Nullable string :=
    match component with
    | Some c =>
        match find (fun ac => Nat.eqb (ctor ac) c) reg with
        | Some (_, ac) => _id ac
        | None => None
        end
    | None => None
    end in
  match i, tabs with
  | Some i', Some selectedTabId =>
      if match selectedTabId with Some s => String.eqb s i' | None => false end
      then (tabs, None)
      else (Some (Some i'), Some i')
  | _, _ => (tabs, None)
  end.

(** ** Cleaning (lines 106-110, 186-210) *)

(** What becomes of an awaited promise. *)
Inductive Outcome :=
| Fulfils
| Rejects
| Pends.

(** How an asynchronous method that is followed alone ends. *)
Inductive Ending :=
| Returned
| Thrown
| Suspended.

Inductive CleanEffect :=
| ConfirmShow (heading message icon : string)
| Editor (e : Effect)
| HandlerClean (component : nat).

(** Positions of the handlers whose [clean] was called, in call order. *)
Fixpoint cleaned (l : list CleanEffect) : list nat :=
  match l with
  | [] => []
  | HandlerClean k :: l' => k :: cleaned l'
  | _ :: l' => cleaned l'
  end.

Section Clean.

(** Modelled from the spec: [clean] is an optional operation of a handler
    (the class [AbstractAssets] is not part of the sources at hand);
    [clean_defined r] tells whether the instance [r] has it. *)
Variable clean_defined : AbstractAssets -> bool.

(** What the promise returned by the [clean] of the handler at position
    [k] does. *)
Variable outcome : nat -> Outcome.

(** [Assets._assetComponents.filter((ac) => ac._ref?.clean)], each
    descriptor named by its position. *)
Fixpoint cleanable_from (l : list IAssetComponent) (k : nat) : list (nat * string) :=
  match l with
  | [] => []
  | ac :: l' =>
      match _ref ac with
      | Some r =>
          if clean_defined r
          then (k, title ac) :: cleanable_from l' (S k)
          else cleanable_from l' (S k)
      | None => cleanable_from l' (S k)
      end
  end.

Definition cleanable (reg : list IAssetComponent) : list (nat * string) :=
  cleanable_from reg 0.

(** The loop of lines 198-207 over what is left of [components], then
    line 209. *)
Fixpoint clean_loop (task : nat) (step currentStep : JsNumber)
    (l : list (nat * string)) : list CleanEffect * Ending :=
  match l with
  | [] => ([Editor (CloseTaskFeedback (Some task) (Some 500))], Returned)
  | (k, t) :: l' =>
      let before :=
        [Editor (UpdateTaskFeedback (Some task) currentStep
                   (Some ("Cleaning Assets " ++ quote ++ t ++ quote)%string));
         HandlerClean k] in
      match outcome k with
      | Fulfils =>
          let currentStep' := js_add currentStep step in
          let '(trace, e) := clean_loop task step currentStep' l' in
          (before
             ++ Editor (UpdateTaskFeedback (Some task) currentStep' None) :: trace,
           e)
      | Rejects =>
          let '(trace, e) := clean_loop task step currentStep l' in
          (before ++ trace, e)
      | Pends => (before, Suspended)
      end
  end.

(** [clearUnusedAssets]: [confirmed] is what the dialog answers ([None]
    when it is never answered) and [task] the handle returned by
    [addTaskFeedback]. *)
Definition clearUnusedAssets (confirmed : option bool) (task : nat)
    (reg : list IAssetComponent) : list CleanEffect * Ending :=
  let dialog :=
    ConfirmShow "Are You Sure?"
      "This operation will remove all files that are not used (meshes, textures, sounds, etc.). This operation is irreversible until you manually re-add the files yourself. Continue?"
      "warning-sign" in
  match confirmed with
  | None => ([dialog], Suspended)
  | Some false => ([dialog], Returned)
  | Some true =>
      let components := cleanable reg in
      let step := js_div (Fin 100) (js_of_nat (length components)) in
      let '(trace, e) := clean_loop task step (Fin 0) components in
      (dialog :: Editor (AddTaskFeedback task (Fin 0) "Cleaning Assets..." None) :: trace,
       e)
  end.

(** The static [Clean] (lines 106-110): [await a._ref?.clean()] for every
    descriptor from position [k] on. Calling a [clean] that is not defined
    throws. *)
Fixpoint Clean_from (l : list IAssetComponent) (k : nat) : list CleanEffect * Ending :=
  match l with
  | [] => ([], Returned)
  | a :: l' =>
      match _ref a with
      | None => Clean_from l' (S k)
      | Some r =>
          if clean_defined r
          then match outcome k with
               | Fulfils =>
                   let '(trace, e) := Clean_from l' (S k) in
                   (HandlerClean k :: trace, e)
               | Rejects => ([HandlerClean k], Thrown)
               | Pends => ([HandlerClean k], Suspended)
               end
          else ([], Thrown)
      end
  end.

Definition Clean (reg : list IAssetComponent) : list CleanEffect * Ending :=
  Clean_from reg 0.

End Clean.

(** ** Statements about shared titles *)

(** [c], at position [k], is the descriptor that
    [_assetComponents.find((ac) => ac.title === c.title)] returns: no
    descriptor registered before it carries its title. *)
Definition first_titled (reg : list IAssetComponent) (k : nat) (c : IAssetComponent) : Prop :=
  reg !! k = Some c /\
  forall j c', j < k -> reg !! j = Some c' -> title c' <> title c.

(** [c], at position [k], is the last descriptor registered under its
    title. *)
Definition last_titled (reg : list IAssetComponent) (k : nat) (c : IAssetComponent) : Prop :=
  reg !! k = Some c /\
  forall j c', k < j -> reg !! j = Some c' -> title c' <> title c.

(** [c'] is the descriptor [c] but for its instance. *)
Definition same_descriptor (c c' : IAssetComponent) : Prop :=
  title c' = title c /\ identifier c' = identifier c /\
  ctor c' = ctor c /\ _id c' = _id c.

(** [r'] is the handler [r] but for its items. *)
Definition same_handler (r r' : AbstractAssets) : Prop :=
  updateAssetObservable r' = updateAssetObservable r /\
  onDropFiles r' = onDropFiles r.

(** ** Statements about cleaning *)

(** The effect reports progress of the task [task] or calls the [clean] of
    a handler: what the loop of lines 198-207 does. *)
Definition cleaning_step (task : nat) (e : CleanEffect) : Prop :=
  match e with
  | Editor (UpdateTaskFeedback (Some t) _ _) => t = task
  | HandlerClean _ => True
  | _ => False
  end.

(** A sample: the [clean] of every handler is defined; the promise of
    position 0 is rejected, every other one fulfilled. *)
Definition first_rejects (k : nat) : Outcome :=
  match k with
  | 0 => Rejects
  | _ => Fulfils
  end.

(** * Theorems *)

(** ** Lookups *)

Lemma find_from_Some {A} (p : A -> bool) l k j x :
  find_from p l k = Some (j, x) ->
  k <= j /\ l !! (j - k) = Some x /\ p x = true /\
  forall i y, i < j - k -> l !! i = Some y -> p y = false.
Proof.
  revert k. induction l as [|a l IH]; intros k; simpl; [done|].
  destruct (p a) eqn:Hp.
  - intros [= <- <-]. rewrite Nat.sub_diag. split_and!; [lia|done|done|lia].
  - intros H. apply IH in H as (Hle & Hl & Hx & Hmin).
    replace (j - k) with (S (j - S k)) by lia.
    split_and!; [lia|done|done|].
    intros [|i] y Hi; simpl; [congruence|]. apply Hmin. lia.
Qed.

Lemma find_from_None {A} (p : A -> bool) l k :
  find_from p l k = None -> forall x, x ∈ l -> p x = false.
Proof.
  revert k. induction l as [|a l IH]; intros k; simpl.
  - intros _ x Hx. by apply elem_of_nil in Hx.
  - destruct (p a) eqn:Hp; [done|]. intros H x Hx.
    apply elem_of_cons in Hx as [->|Hx]; [done|]. by eapply IH.
Qed.

(** C3 (failing input). A descriptor is registered under the identifier but
    has no instance: [getAssetsOfComponentId] finds it, [getAssetsOf] answers
    [undefined], and the call throws instead of returning a list. *)
Theorem getAssetsOfComponentId_unmounted_throws :
  getAssetsOf 1 registryUnmounted = None /\
  getAssetsOfComponentId "A-id" registryUnmounted = ThrowTypeError /\
  getAssetsOfComponentId "nobody" registryUnmounted = Return [].
Proof. repeat split; reflexivity. Qed.

(** The throw happens exactly when the identifier is registered and the
    first descriptor carrying that class has no instance. *)
Lemma getAssetsOfComponentId_throws_iff i reg :
  getAssetsOfComponentId i reg = ThrowTypeError <->
  exists k component, find (fun a => String.eqb (identifier a) i) reg = Some (k, component) /\
    getAssetsOf (ctor component) reg = None.
Proof.
  unfold getAssetsOfComponentId.
  destruct (find _ reg) as [[k component]|] eqn:Hf.
  - destruct (getAssetsOf (ctor component) reg) eqn:Hg.
    + split; [done|]. intros (? & ? & [= <- <-] & ?). congruence.
    + split; [|done]. intros _. by exists k, component.
  - split; [done|]. by intros (? & ? & ? & _).
Qed.

(** ** Cache snapshot and restore *)




Lemma persisted_idemp i : persisted (persisted i) = persisted i.
Proof. done. Qed.













(** ** The registry under the coordinator *)

Lemma instance_Some k st c r :
  instance k st = Some (c, r) <->
  _assetComponents st !! k = Some c /\ _ref c = Some r.
Proof.
  unfold instance. destruct (_assetComponents st !! k) as [c'|]; [|by intuition].
  destruct (_ref c') as [r'|] eqn:Hr.
  - split; [by intros [= <- <-]|]. intros [[= <-] Hr']. congruence.
  - split; [done|]. intros [[= <-] Hr']. congruence.
Qed.

Lemma instance_ext k st st' :
  _assetComponents st' = _assetComponents st -> instance k st' = instance k st.
Proof. unfold instance. by intros ->. Qed.

Lemma instance_set_instance_eq k c c0 r st :
  _assetComponents st !! k = Some c0 ->
  instance k (set_instance k c r st) = Some (set_ref (Some r) c, r).
Proof.
  intros Hk. unfold instance, set_instance; simpl.
  rewrite list_lookup_insert_eq by (by eapply lookup_lt_Some). done.
Qed.

Lemma instance_set_instance_ne k k' c r st :
  k' <> k -> instance k' (set_instance k c r st) = instance k' st.
Proof.
  intros Hne. unfold instance, set_instance; simpl.
  by rewrite list_lookup_insert_ne.
Qed.

Lemma shape_set_instance k c r r' st :
  instance k st = Some (c, r) -> onDropFiles r' = onDropFiles r ->
  shape <$> _assetComponents (set_instance k c r' st) = shape <$> _assetComponents st.
Proof.
  intros [Hk Hr]%instance_Some Hd. unfold set_instance; simpl.
  rewrite list_fmap_insert. apply list_insert_id.
  rewrite list_lookup_fmap, Hk. simpl. f_equal.
  unfold shape; simpl. by rewrite Hr, Hd.
Qed.

Lemma shape_mounted k st st' :
  shape <$> _assetComponents st' = shape <$> _assetComponents st ->
  is_mounted k st -> is_mounted k st'.
Proof.
  intros Hs [[c r] [Hk Hr]%instance_Some].
  assert (Hl : (shape <$> _assetComponents st') !! k = Some (shape c)).
  { by rewrite Hs, list_lookup_fmap, Hk. }
  rewrite list_lookup_fmap in Hl.
  destruct (_assetComponents st' !! k) as [c'|] eqn:Hk'; [|done].
  assert (Hsh : shape c' = shape c) by (simpl in Hl; congruence).
  unfold shape in Hsh. injection Hsh as _ _ _ Ho. rewrite Hr in Ho.
  destruct (_ref c') as [r'|] eqn:Hr'; [|done].
  exists (c', r'). by apply instance_Some.
Qed.

Lemma selected_shape componentCtor l l' k :
  shape <$> l' = shape <$> l ->
  selected componentCtor l' k = selected componentCtor l k.
Proof.
  revert l' k. induction l as [|c l IH]; intros [|c' l'] k Hs; try done.
  injection Hs as _ _ Hct Hr Hl. simpl.
  rewrite Hct, (IH l' (S k) Hl).
  destruct (_ref c), (_ref c'); done.
Qed.

Lemma selected_None_mounted l k : selected None l k = mounted_from l k.
Proof.
  revert k. induction l as [|c l IH]; intros k; simpl; [done|].
  rewrite IH. by destruct (_ref c).
Qed.

Lemma selected_lower componentCtor l k j :
  j ∈ selected componentCtor l k -> k <= j.
Proof.
  revert k. induction l as [|c l IH]; intros k; simpl.
  - by intros ?%elem_of_nil.
  - intros Hj.
    assert (j ∈ selected componentCtor l (S k) -> k <= j).
    { intros ?%IH. lia. }
    destruct (match componentCtor with Some _ => _ | None => _ end); [auto|].
    destruct (_ref c); [|auto].
    apply elem_of_cons in Hj as [->|Hj]; auto.
Qed.

(** The loop stops at the first of the positions it has to visit. *)
Lemma next_component_selected componentCtor l k :
  match next_component componentCtor l k with
  | None => selected componentCtor l k = []
  | Some (j, component, r) =>
      k <= j /\ l !! (j - k) = Some component /\ _ref component = Some r /\
      selected componentCtor l k
      = j :: selected componentCtor (drop (S (j - k)) l) (S j)
  end.
Proof.
  revert k. induction l as [|c l IH]; intros k; simpl; [done|].
  specialize (IH (S k)).
  assert (Hskip :
    match next_component componentCtor l (S k) with
    | None => selected componentCtor l (S k) = []
    | Some (j, component, r) =>
        k <= j /\ (c :: l) !! (j - k) = Some component /\ _ref component = Some r /\
        selected componentCtor l (S k)
        = j :: selected componentCtor (drop (S (j - k)) (c :: l)) (S j)
    end).
  { destruct (next_component componentCtor l (S k)) as [[[j component] r]|]; [|done].
    destruct IH as (Hle & Hl & Hr & Hs).
    replace (j - k) with (S (j - S k)) by lia. simpl.
    split_and!; [lia|done|done|done]. }
  destruct (match componentCtor with Some _ => _ | None => _ end); [done|].
  destruct (_ref c) as [r|] eqn:Hr; [|done].
  rewrite Nat.sub_diag. simpl. rewrite drop_0. split_and!; [lia|done|done|done].
Qed.

Lemma next_component_drop componentCtor reg k :
  match next_component componentCtor (drop k reg) k with
  | None => selected componentCtor (drop k reg) k = []
  | Some (j, component, r) =>
      reg !! j = Some component /\ _ref component = Some r /\
      selected componentCtor (drop k reg) k
      = j :: selected componentCtor (drop (S j) reg) (S j)
  end.
Proof.
  pose proof (next_component_selected componentCtor (drop k reg) k) as H.
  destruct (next_component _ _ _) as [[[j component] r]|]; [|done].
  destruct H as (Hle & Hl & Hr & Hs).
  rewrite lookup_drop in Hl. rewrite drop_drop in Hs.
  replace (k + (j - k)) with j in Hl by lia.
  replace (k + S (j - k)) with (S j) in Hs by lia. done.
Qed.

(** ** Slots *)

Lemma lookup_suspend_eq tid a st :
  tid <= length (activations st) ->
  activations (suspend tid a st) !! tid = Some a.
Proof.
  intros Hle. unfold suspend; simpl.
  destruct (Nat.ltb_spec tid (length (activations st))).
  - by rewrite list_lookup_insert_eq.
  - apply list_lookup_middle. lia.
Qed.

Lemma lookup_suspend_ne tid t a st :
  tid <= length (activations st) -> t <> tid ->
  activations (suspend tid a st) !! t = activations st !! t.
Proof.
  intros Hle Hne. unfold suspend; simpl.
  destruct (Nat.ltb_spec tid (length (activations st))).
  - by rewrite list_lookup_insert_ne.
  - destruct (decide (t < length (activations st))).
    + by rewrite lookup_app_l.
    + rewrite !lookup_ge_None_2; [done|lia|]. rewrite length_app. simpl. lia.
Qed.

Lemma lookup_settle_ne tid t a st :
  t <> tid -> activations (settle tid a st) !! t = activations st !! t.
Proof. intros Hne. unfold settle; simpl. by rewrite list_lookup_insert_ne. Qed.

Lemma lookup_settle_eq tid a st :
  tid < length (activations st) ->
  activations (settle tid a st) !! tid = Some a.
Proof. intros Hlt. unfold settle; simpl. by rewrite list_lookup_insert_eq. Qed.

Lemma lookup_settle tid t a a' st :
  activations (settle tid a st) !! t = Some a' ->
  (t = tid /\ a' = a) \/ (t <> tid /\ activations st !! t = Some a').
Proof.
  unfold settle; simpl. intros H.
  destruct (decide (t = tid)) as [->|Hne].
  - left. apply list_lookup_insert_Some in H as [(_ & -> & _)|[? _]]; done.
  - right. by rewrite list_lookup_insert_ne in H.
Qed.

(** ** The invariant *)

Lemma valid_frame_mono st st' a :
  (forall k, is_mounted k st -> is_mounted k st') ->
  length (store st) <= length (store st') ->
  valid_frame st a -> valid_frame st' a.
Proof.
  intros Hm Hs. destruct a as [f|f| |]; simpl; [| |done|done].
  - intros [? ?]. split; [auto|lia].
  - intros H. eapply Forall_impl; [exact H|exact Hm].
Qed.

Lemma valid_observers_ext st st' :
  _assetComponents st' = _assetComponents st ->
  length (store st) <= length (store st') ->
  valid_observers st -> valid_observers st'.
Proof.
  intros Hc Hs Hv k c r Hk. rewrite (instance_ext _ _ _ Hc) in Hk.
  eapply Forall_impl; [by eapply Hv|]. simpl. intros; lia.
Qed.

Lemma valid_observers_set_instance k c r st :
  valid_observers st ->
  is_mounted k st ->
  Forall (fun o => obs_progress o < length (store st)) (updateAssetObservable r) ->
  valid_observers (set_instance k c r st).
Proof.
  intros Hv [[c0 r0] [Hk _]%instance_Some] Hr k' c' r' Hk'.
  destruct (decide (k' = k)) as [->|Hne].
  - rewrite (instance_set_instance_eq _ _ c0) in Hk' by done.
    by injection Hk' as <- <-.
  - rewrite instance_set_instance_ne in Hk' by done. by eapply Hv.
Qed.

Lemma is_mounted_set_instance k k' c r st :
  is_mounted k st -> is_mounted k' st -> is_mounted k' (set_instance k c r st).
Proof.
  intros [[c0 r0] [Hk _]%instance_Some] Hk'. unfold is_mounted.
  destruct (decide (k' = k)) as [->|Hne].
  - by rewrite (instance_set_instance_eq _ _ c0).
  - by rewrite instance_set_instance_ne.
Qed.

(** A change that leaves the slots and the two flags alone keeps the
    invariant, provided mounted handlers stay mounted and variables stay. *)
Lemma wf_update st st' :
  wf st ->
  activations st' = activations st ->
  _isRefreshing st' = _isRefreshing st ->
  _needsRefresh st' = _needsRefresh st ->
  (forall k, is_mounted k st -> is_mounted k st') ->
  length (store st) <= length (store st') ->
  valid_observers st' ->
  wf st'.
Proof.
  intros [H1 H2 H3 H4 H5] Ha Hi Hn Hm Hs Ho.
  split; rewrite ?Ha, ?Hi, ?Hn; try done.
  intros t a Ht. eapply valid_frame_mono; eauto.
Qed.

Lemma mid_update tid st st' :
  mid tid st ->
  activations st' = activations st ->
  (forall k, is_mounted k st -> is_mounted k st') ->
  length (store st) <= length (store st') ->
  valid_observers st' ->
  mid tid st'.
Proof.
  intros [H1 H2 H3] Ha Hm Hs Ho. split; rewrite ?Ha; try done.
  intros t a Hne Ht. destruct (H2 t a Hne Ht) as [? ?]. split; [done|].
  eapply valid_frame_mono; eauto.
Qed.

Lemma mid_of_pass tid a st :
  wf st -> activations st !! tid = Some a -> is_pass a = true -> mid tid st.
Proof.
  intros Hwf Ht Hp. split.
  - apply lookup_lt_Some in Ht. lia.
  - intros t a' Hne Ht'. split; [|by eapply wf_frames].
    destruct (is_pass a') eqn:Hp'; [|done].
    destruct Hne. by eapply (wf_one_pass _ Hwf).
  - by apply wf_observers.
Qed.

Lemma mid_of_idle tid st :
  wf st -> _isRefreshing st = false -> tid <= length (activations st) -> mid tid st.
Proof.
  intros Hwf Hi Hle. split; [done| |by apply wf_observers].
  intros t a' Hne Ht'. split; [|by eapply wf_frames].
  destruct (is_pass a') eqn:Hp'; [|done].
  pose proof (wf_guard _ Hwf _ _ Ht' Hp'). congruence.
Qed.

(** Settling a slot with something that is not a pass. *)
Lemma wf_settle tid a st :
  wf st -> is_pass a = false -> valid_frame st a -> wf (settle tid a st).
Proof.
  intros Hwf Hp Hv. split; simpl.
  - intros t1 t2 a1 a2 [[-> ->]|[? H1]]%lookup_settle [[-> ->]|[? H2]]%lookup_settle;
      try congruence. by eapply (wf_one_pass _ Hwf).
  - intros t a' [[-> ->]|[? H1]]%lookup_settle; [congruence|].
    by eapply (wf_guard _ Hwf).
  - by apply wf_pending.
  - intros t a' [[-> ->]|[? H1]]%lookup_settle; [done|].
    by eapply (wf_frames _ Hwf).
  - apply (valid_observers_ext st); [done|done|]. by apply wf_observers.
Qed.

Lemma wf_emit e st : wf st -> wf (emit e st).
Proof.
  intros Hwf. apply (wf_update st); try done.
  apply (valid_observers_ext st); [done|done|by apply wf_observers].
Qed.

Lemma wf_fulfil tid a st :
  wf st -> wf (fulfil tid a st).
Proof.
  intros Hwf. unfold fulfil.
  destruct a; [|apply wf_emit]; by apply wf_settle.
Qed.

(** The activation of slot [tid] ends while nothing is pending. *)
Lemma wf_fulfil_mid tid a st :
  mid tid st -> _needsRefresh st = false -> wf (fulfil tid a st).
Proof.
  intros [Hle Ho Hv] Hn.
  assert (Hnone : forall t a', activations (settle tid Fulfilled st) !! t = Some a' ->
            is_pass a' = false /\ valid_frame st a').
  { intros t a' [[-> ->]|[? H1]]%lookup_settle; [done|]. by eapply Ho. }
  assert (wf (settle tid Fulfilled st)).
  { split; simpl.
    - intros t1 t2 a1 a2 [? _]%Hnone _ ?. congruence.
    - intros t a' [? _]%Hnone ?. congruence.
    - congruence.
    - intros t a' [_ ?]%Hnone. done.
    - done. }
  unfold fulfil. destruct a; [done|]. by apply wf_emit.
Qed.

(** The activation of slot [tid] is suspended in front of a handler. *)
Lemma wf_visit tid p k component r st :
  mid tid st -> _isRefreshing st = true ->
  instance k st = Some (component, r) ->
  progress p < length (store st) ->
  wf (visit tid p k component r st).
Proof.
  intros [Hle Ho Hv] Hi Hk Hp. unfold visit.
  set (o := {| obs_id := observers st |}).
  set (r2 := set_observers _ _).
  set (f := {| rf_pass := p |}).
  set (st1 := emit _ _).
  assert (Hm : is_mounted k st) by (by eexists).
  assert (Hmounted : forall k', is_mounted k' st -> is_mounted k' st1).
  { intros k' Hk'. unfold is_mounted. rewrite (instance_ext _ (set_instance k component r2 st) st1) by done.
    by apply is_mounted_set_instance. }
  assert (Hle1 : tid <= length (activations st1)) by done.
  assert (Hother : forall t a, t <> tid ->
            activations (suspend tid (AwaitRefresh f) st1) !! t = Some a ->
            is_pass a = false /\ valid_frame st1 a).
  { intros t a Hne. rewrite lookup_suspend_ne by done. simpl.
    intros [? ?]%Ho; [|done]. split; [done|].
    eapply valid_frame_mono; [exact Hmounted| |done]. done. }
  assert (Hself : forall a,
            activations (suspend tid (AwaitRefresh f) st1) !! tid = Some a ->
            a = AwaitRefresh f).
  { intros a. rewrite lookup_suspend_eq by done. congruence. }
  split; simpl.
  - intros t1 t2 a1 a2 H1 H2 Hp1 Hp2.
    destruct (decide (t1 = tid)) as [->|Hn1], (decide (t2 = tid)) as [->|Hn2]; [done| | |].
    + apply Hother in H2 as [? _]; [congruence|done].
    + apply Hother in H1 as [? _]; [congruence|done].
    + apply Hother in H1 as [? _]; [congruence|done].
  - done.
  - by rewrite Hi.
  - intros t a Ht. destruct (decide (t = tid)) as [->|Hne].
    + apply Hself in Ht as ->. simpl. split; [by apply Hmounted|done].
    + by apply Hother in Ht as [_ ?].
  - apply (valid_observers_ext (set_instance k component r2 st)); [done|done|].
    apply valid_observers_set_instance; [done|done|].
    unfold r2; simpl. apply Forall_app. split.
    + destruct (truthy_flag (force p)); simpl; by eapply Hv.
    + by apply Forall_singleton.
Qed.

(** ** One activation of [_refreshAllAssets] *)

Lemma refreshed_app l l' : refreshed (l ++ l') = refreshed l ++ refreshed l'.
Proof.
  induction l as [|e l IH]; simpl; [done|].
  destruct e; simpl; by rewrite ?IH.
Qed.

Lemma for_of_visit rerun tid p k st j component r :
  next_component (componentCtor p) (drop k (_assetComponents st)) k
  = Some (j, component, r) ->
  for_of rerun tid p k st = Some (visit tid p j component r st).
Proof. unfold for_of. by intros ->. Qed.

Lemma for_of_done rerun tid p k st :
  next_component (componentCtor p) (drop k (_assetComponents st)) k = None ->
  for_of rerun tid p k st
  = if _needsRefresh st
    then rerun (set_needsRefresh false (epilogue p st))
    else Some (fulfil tid (awaiter p) (epilogue p st)).
Proof.
  unfold for_of. intros ->. unfold epilogue.
  by destruct (negb (truthy (object p))).
Qed.

Lemma visit_slot tid p k component r st :
  tid <= length (activations st) ->
  awaiting tid p k (visit tid p k component r st).
Proof.
  intros Hle. unfold visit, awaiting. eexists. split.
  - by rewrite lookup_suspend_eq.
  - done.
Qed.

Lemma visit_others tid p k component r st t :
  tid <= length (activations st) -> t <> tid ->
  activations (visit tid p k component r st) !! t = activations st !! t.
Proof. intros Hle Hne. unfold visit. by rewrite lookup_suspend_ne. Qed.

Lemma visit_shape tid p k component r st :
  instance k st = Some (component, r) ->
  shape <$> _assetComponents (visit tid p k component r st)
  = shape <$> _assetComponents st.
Proof.
  intros Hk. unfold visit; simpl.
  apply (shape_set_instance k component r); [done|].
  by destruct (truthy_flag (force p)).
Qed.

Lemma visit_log tid p k component r st :
  log (visit tid p k component r st)
  = log st ++ [ObservableAdd k (observers st); HandlerRefresh k (object p)].
Proof. done. Qed.

(** With [force], the handler stands with no item when its [refresh] is
    called. *)
Lemma visit_items tid p k component r st :
  is_mounted k st ->
  exists c' r', instance k (visit tid p k component r st) = Some (c', r') /\
    items r' = if truthy_flag (force p) then [] else items r.
Proof.
  intros [[c0 r0] [Hk _]%instance_Some]. unfold visit.
  eexists _, _. split.
  - erewrite (instance_ext k (set_instance k component _ st)); [|done].
    by apply (instance_set_instance_eq _ _ c0).
  - simpl. by destruct (truthy_flag (force p)).
Qed.

Lemma prologue_pass a c o f st :
  let p := (prologue a c o f st).1 in
  componentCtor p = c /\ object p = o /\ force p = f /\ awaiter p = a /\
  progress p = length (store st).
Proof. unfold prologue. by destruct (negb (truthy o)). Qed.

Lemma prologue_state a c o f st :
  let st' := (prologue a c o f st).2 in
  _assetComponents st' = _assetComponents st /\
  activations st' = activations st /\
  _isRefreshing st' = true /\
  _needsRefresh st' = _needsRefresh st /\
  store st' = store st ++ [Fin 0] /\
  refreshed (log st') = refreshed (log st).
Proof.
  unfold prologue. destruct (negb (truthy o)); simpl; split_and!; try done.
  by rewrite refreshed_app, app_nil_r.
Qed.

Lemma epilogue_state p st :
  let st' := epilogue p st in
  _assetComponents st' = _assetComponents st /\
  activations st' = activations st /\
  _isRefreshing st' = false /\
  _needsRefresh st' = _needsRefresh st /\
  store st' = store st /\
  refreshed (log st') = refreshed (log st).
Proof.
  unfold epilogue. destruct (negb (truthy (object p))); simpl; split_and!; try done.
  by rewrite refreshed_app, app_nil_r.
Qed.

Lemma mid_same tid st st' :
  mid tid st ->
  _assetComponents st' = _assetComponents st ->
  activations st' = activations st ->
  length (store st) <= length (store st') ->
  mid tid st'.
Proof.
  intros Hmid Hc Ha Hs. apply (mid_update tid st); try done.
  - intros k. unfold is_mounted. by rewrite (instance_ext _ _ _ Hc).
  - apply (valid_observers_ext st); [done|done|]. by apply mid_observers in Hmid.
Qed.

Lemma fulfil_state tid a st :
  let st' := fulfil tid a st in
  _assetComponents st' = _assetComponents st /\
  activations st' = <[tid := Fulfilled]> (activations st) /\
  _isRefreshing st' = _isRefreshing st /\
  _needsRefresh st' = _needsRefresh st /\
  store st' = store st /\
  refreshed (log st') = refreshed (log st).
Proof.
  unfold fulfil. destruct a; simpl; split_and!; try done.
  by rewrite refreshed_app, app_nil_r.
Qed.

(** A call that finds the guard open and nothing pending starts a pass; it
    needs no fuel. *)
Lemma start_spec n tid a c o f st :
  mid tid st -> _isRefreshing st = false -> _needsRefresh st = false ->
  exists st',
    refreshAllAssets_fuel n tid a c o f st = Some st' /\
    wf st' /\
    shape <$> _assetComponents st' = shape <$> _assetComponents st /\
    passes st' = S (passes st) /\
    (forall t, t <> tid -> activations st' !! t = activations st !! t) /\
    _needsRefresh st' = false /\
    match selected c (_assetComponents st) 0 with
    | j :: _ =>
        awaiting tid (prologue a c o f st).1 j st' /\
        _isRefreshing st' = true /\
        refreshed (log st') = refreshed (log st) ++ [j]
    | [] =>
        _isRefreshing st' = false /\
        refreshed (log st') = refreshed (log st) /\
        activations st' = <[tid := Fulfilled]> (activations st)
    end.
Proof.
  intros Hmid Hi Hn.
  assert (refreshAllAssets_fuel n tid a c o f st
          = for_of (match n with
                    | 0 => fun _ => None
                    | S n' => refreshAllAssets_fuel n' tid a None JsUndefined None
                    end) tid (prologue a c o f st).1 0 (prologue a c o f st).2) as ->.
  { destruct n; simpl; unfold refreshAllAssets_body; rewrite Hi;
      by destruct (prologue a c o f st). }
  destruct (prologue_pass a c o f st) as (Hc & Ho & Hf & Ha & Hp).
  destruct (prologue_state a c o f st) as (Hreg & Hacts & Hi1 & Hn1 & Hstore & Hlog).
  set (p := (prologue a c o f st).1) in *.
  set (st1 := (prologue a c o f st).2) in *.
  assert (Hmid1 : mid tid st1).
  { apply (mid_same tid st); [done|done|done|]. rewrite Hstore, length_app. lia. }
  assert (Hlen : length (store st1) = S (length (store st))).
  { rewrite Hstore, length_app. simpl. lia. }
  pose proof (next_component_drop (componentCtor p) (_assetComponents st1) 0) as Hnext.
  rewrite drop_0, Hc, Hreg in Hnext.
  destruct (next_component c (_assetComponents st) 0) as [[[j component] r]|] eqn:Hnc.
  - destruct Hnext as (Hj & Hr & ->).
    assert (Hinst : instance j st1 = Some (component, r)).
    { apply instance_Some. by rewrite Hreg. }
    rewrite (for_of_visit _ _ _ _ _ j component r)
      by (by rewrite drop_0, Hc, Hreg).
    eexists. split; [done|]. split_and!.
    + apply wf_visit; [done|done|done|]. rewrite Hp, Hlen. lia.
    + rewrite visit_shape by done. by rewrite Hreg.
    + done.
    + intros t Hne. rewrite visit_others; [by rewrite Hacts| |done].
      rewrite Hacts. by apply mid_slot in Hmid.
    + simpl. congruence.
    + apply visit_slot. by apply mid_slot in Hmid1.
    + done.
    + rewrite visit_log, refreshed_app, Hlog. done.
  - rewrite Hnext.
    rewrite for_of_done by (by rewrite drop_0, Hc, Hreg).
    destruct (epilogue_state p st1) as (Hreg2 & Hacts2 & Hi2 & Hn2 & Hstore2 & Hlog2).
    rewrite Hn1, Hn.
    destruct (fulfil_state tid (awaiter p) (epilogue p st1))
      as (Hreg3 & Hacts3 & Hi3 & Hn3 & Hstore3 & Hlog3).
    eexists. split; [done|]. split_and!.
    + apply wf_fulfil_mid; [|congruence].
      apply (mid_same tid st1); [done|done|done|]. by rewrite Hstore2.
    + by rewrite Hreg3, Hreg2, Hreg.
    + unfold passes. by rewrite Hstore3, Hstore2.
    + intros t Hne. rewrite Hacts3, list_lookup_insert_ne by done.
      by rewrite Hacts2, Hacts.
    + congruence.
    + congruence.
    + congruence.
    + by rewrite Hacts3, Hacts2, Hacts.
Qed.

Lemma refreshAllAssets_body_ext rerun rerun' tid a c o f st :
  (forall st0, _isRefreshing st0 = false -> _needsRefresh st0 = false ->
     rerun st0 = rerun' st0) ->
  refreshAllAssets_body rerun tid a c o f st
  = refreshAllAssets_body rerun' tid a c o f st.
Proof.
  intros Hext. unfold refreshAllAssets_body.
  destruct (_isRefreshing st); [done|].
  destruct (prologue a c o f st) as [p st1]. unfold for_of.
  destruct (next_component _ _ _) as [[[j component] r]|]; [done|].
  destruct (_needsRefresh (epilogue p st1)); [|done].
  apply Hext; [|done]. by destruct (epilogue_state p st1) as (_ & _ & ? & _).
Qed.

Lemma refreshAllAssets_body_Some rerun tid a c o f st :
  (forall st0, _isRefreshing st0 = false -> _needsRefresh st0 = false ->
     is_Some (rerun st0)) ->
  is_Some (refreshAllAssets_body rerun tid a c o f st).
Proof.
  intros Hsome. unfold refreshAllAssets_body.
  destruct (_isRefreshing st); [done|].
  destruct (prologue a c o f st) as [p st1]. unfold for_of.
  destruct (next_component _ _ _) as [[[j component] r]|]; [done|].
  destruct (_needsRefresh (epilogue p st1)); [|done].
  apply Hsome; [|done]. by destruct (epilogue_state p st1) as (_ & _ & ? & _).
Qed.

(** One unit of fuel is always enough: [_refreshAllAssets] returns, and more
    fuel does not change what it returns. *)
Lemma refreshAllAssets_fuel_enough n tid a c o f st :
  is_Some (_refreshAllAssets tid a c o f st) /\
  refreshAllAssets_fuel (S n) tid a c o f st = _refreshAllAssets tid a c o f st.
Proof.
  assert (Hrerun : forall m st0,
            _isRefreshing st0 = false -> _needsRefresh st0 = false ->
            is_Some (refreshAllAssets_fuel m tid a None JsUndefined None st0) /\
            refreshAllAssets_fuel m tid a None JsUndefined None st0
            = refreshAllAssets_fuel 0 tid a None JsUndefined None st0).
  { intros m st0 Hi Hn.
    assert (Hfor : forall rerun p k st1, _needsRefresh st1 = false ->
              is_Some (for_of rerun tid p k st1) /\
              for_of rerun tid p k st1 = for_of (fun _ => None) tid p k st1).
    { intros rerun p k st1 Hn1. unfold for_of.
      destruct (next_component _ _ _) as [[[j component] r]|]; [by split|].
      destruct (epilogue_state p st1) as (_ & _ & _ & -> & _).
      rewrite Hn1. by split. }
    destruct m; simpl; unfold refreshAllAssets_body; rewrite Hi;
      destruct (prologue_state a None JsUndefined None st0) as (_ & _ & _ & Hn1 & _);
      destruct (prologue a None JsUndefined None st0) as [p st1]; simpl in Hn1;
      apply Hfor; congruence. }
  unfold _refreshAllAssets. split.
  - apply refreshAllAssets_body_Some. intros st0 Hi Hn. by apply (Hrerun 0).
  - change (refreshAllAssets_body
              (refreshAllAssets_fuel n tid a None JsUndefined None) tid a c o f st
            = refreshAllAssets_body
                (refreshAllAssets_fuel 0 tid a None JsUndefined None) tid a c o f st).
    apply refreshAllAssets_body_ext. intros st0 Hi Hn. by apply (Hrerun n).
Qed.

Lemma mounted_from_nonempty l k i c r :
  l !! i = Some c -> _ref c = Some r -> mounted_from l k <> [].
Proof.
  revert k i. induction l as [|c' l IH]; intros k [|i] Hl Hc; simpl in *; try done.
  - injection Hl as ->. by rewrite Hc.
  - destruct (_ref c'); [done|]. by eapply IH.
Qed.

(** Lines 324-326 run without fault from a state of the machine, and touch
    neither the slots nor the flags. *)
Lemma after_refresh_spec tid f st :
  wf st -> activations st !! tid = Some (AwaitRefresh f) ->
  exists st1,
    after_refresh f st = Some st1 /\
    mid tid st1 /\
    activations st1 = activations st /\
    _isRefreshing st1 = _isRefreshing st /\
    _needsRefresh st1 = _needsRefresh st /\
    shape <$> _assetComponents st1 = shape <$> _assetComponents st /\
    length (store st1) = length (store st) /\
    refreshed (log st1) = refreshed (log st) /\
    (forall c r, instance (rf_index f) st1 = Some (c, r) ->
       Forall (fun o => obs_id o <> rf_observer f) (updateAssetObservable r) /\
       exists r0, instance (rf_index f) st = Some (set_ref (Some r0) c, r0) /\
         items r = items r0).
Proof.
  intros Hwf Ht.
  destruct (wf_frames _ Hwf _ _ Ht) as [[[component r] Hinst] Hp].
  assert (Hm : is_mounted (rf_index f) st) by (by eexists).
  unfold after_refresh. rewrite Hinst.
  set (r' := set_observers _ r).
  set (st1 := emit _ (set_instance (rf_index f) component r' st)).
  assert (Hshape : shape <$> _assetComponents st1 = shape <$> _assetComponents st).
  { by apply (shape_set_instance _ component r). }
  assert (Hvo : valid_observers (set_instance (rf_index f) component r' st)).
  { apply valid_observers_set_instance; [by apply wf_observers|done|].
    unfold r'; simpl. apply Forall_forall.
    intros o [Ho _]%list_elem_of_In%filter_In. apply list_elem_of_In in Ho.
    pose proof (wf_observers _ Hwf _ _ _ Hinst) as Hall.
    by eapply Forall_forall in Hall. }
  assert (Hinst1 : forall c0 r0, instance (rf_index f) st1 = Some (c0, r0) ->
            Forall (fun o => obs_id o <> rf_observer f) (updateAssetObservable r0) /\
            exists r1, instance (rf_index f) st = Some (set_ref (Some r1) c0, r1) /\
              items r0 = items r1).
  { intros c0 r0. unfold st1.
    rewrite (instance_ext _ (set_instance (rf_index f) component r' st)) by done.
    apply instance_Some in Hinst as [Hk Hr].
    rewrite (instance_set_instance_eq _ _ component) by done.
    intros [= <- <-]. split.
    - unfold r'; simpl. apply Forall_forall.
      intros o [_ Ho]%list_elem_of_In%filter_In.
      by apply negb_true_iff, Nat.eqb_neq in Ho.
    - exists r. split; [|done]. apply instance_Some. split; [|done].
      rewrite Hk. f_equal. destruct component; simpl in *. by rewrite Hr. }
  assert (Hmid : forall st2,
            _assetComponents st2 = _assetComponents st1 ->
            activations st2 = activations st ->
            length (store st2) = length (store st) ->
            mid tid st2).
  { intros st2 Hc Ha Hs. apply (mid_update tid st); [by eapply mid_of_pass|done| |lia|].
    - intros k Hk. unfold is_mounted. rewrite (instance_ext _ _ _ Hc).
      by apply is_mounted_set_instance.
    - apply (valid_observers_ext (set_instance (rf_index f) component r' st));
        [done|simpl; lia|done]. }
  destruct (negb (truthy (object (rf_pass f))) && is_Infinity (rf_assetStep f)).
  - destruct (lookup_lt_is_Some_2 (store st1) (progress (rf_pass f))) as [v Hv]; [done|].
    rewrite Hv. eexists. split; [done|]. split_and!; try done.
    + apply Hmid; [done|done|]. simpl. by rewrite length_insert.
    + simpl. by rewrite length_insert.
    + simpl. by rewrite !refreshed_app, !app_nil_r.
    + intros c0 r0 Hc0. rewrite <- Hinst. apply Hinst1. by rewrite <- Hc0.
  - eexists. split; [done|]. split_and!; try done.
    + by apply Hmid.
    + simpl. by rewrite refreshed_app, app_nil_r.
    + intros c0 r0 Hc0. rewrite <- Hinst. by apply Hinst1.
Qed.

(** The awaited [refresh] is fulfilled: the pass moves to the next handler
    it has to visit; behind the last one it ends, and runs once more as a
    plain pass when a request is pending. *)
Lemma resume_refresh_spec tid f st :
  wf st -> activations st !! tid = Some (AwaitRefresh f) ->
  exists st',
    resume_refresh tid f st = Some st' /\
    wf st' /\
    shape <$> _assetComponents st' = shape <$> _assetComponents st /\
    (forall t, t <> tid -> activations st' !! t = activations st !! t) /\
    match remaining f st with
    | j :: _ =>
        awaiting tid (rf_pass f) j st' /\
        _isRefreshing st' = true /\
        _needsRefresh st' = _needsRefresh st /\
        passes st' = passes st /\
        refreshed (log st') = refreshed (log st) ++ [j]
    | [] =>
        _needsRefresh st' = false /\
        if _needsRefresh st
        then
          passes st' = S (passes st) /\
          _isRefreshing st' = true /\
          exists p j, plain p /\ awaiter p = awaiter (rf_pass f) /\
            head (mounted (_assetComponents st)) = Some j /\
            awaiting tid p j st' /\
            refreshed (log st') = refreshed (log st) ++ [j]
        else
          passes st' = passes st /\
          _isRefreshing st' = false /\
          activations st' !! tid = Some Fulfilled /\
          refreshed (log st') = refreshed (log st)
    end.
Proof.
  intros Hwf Ht.
  destruct (after_refresh_spec tid f st Hwf Ht)
    as (st1 & Hafter & Hmid & Hacts & Hi & Hn & Hshape & Hstore & Hlog & _).
  assert (Hrefr : _isRefreshing st = true) by (by eapply (wf_guard _ Hwf)).
  destruct (wf_frames _ Hwf _ _ Ht) as [Hm Hp].
  unfold resume_refresh. rewrite Hafter.
  pose proof (next_component_drop (componentCtor (rf_pass f))
                (_assetComponents st1) (S (rf_index f))) as Hnext.
  unfold remaining.
  rewrite <- (selected_shape _ _ (drop (S (rf_index f)) (_assetComponents st1)))
    by (by rewrite !fmap_drop, Hshape).
  destruct (next_component _ _ _) as [[[j component] r]|] eqn:Hnc.
  - destruct Hnext as (Hj & Hr & ->).
    assert (Hinst : instance j st1 = Some (component, r)) by (by apply instance_Some).
    rewrite (for_of_visit _ _ _ _ _ j component r) by done.
    eexists. split; [done|]. split_and!.
    + apply wf_visit; [done|congruence|done|lia].
    + by rewrite visit_shape.
    + intros t Hne. rewrite visit_others; [by rewrite Hacts| |done].
      by apply mid_slot in Hmid.
    + apply visit_slot. by apply mid_slot in Hmid.
    + simpl. congruence.
    + done.
    + unfold passes. simpl. done.
    + rewrite visit_log, refreshed_app, Hlog. done.
  - rewrite Hnext. rewrite for_of_done by done. rewrite Hn.
    destruct (epilogue_state (rf_pass f) st1)
      as (Hreg2 & Hacts2 & Hi2 & Hn2 & Hstore2 & Hlog2).
    assert (Hmid2 : mid tid (epilogue (rf_pass f) st1)).
    { apply (mid_same tid st1); [done|done|done|]. by rewrite Hstore2. }
    set (st2 := epilogue (rf_pass f) st1) in *. clearbody st2.
    destruct (_needsRefresh st) eqn:Hneeds.
    + destruct (start_spec 1 tid (awaiter (rf_pass f)) None JsUndefined None
                  (set_needsRefresh false st2))
        as (st' & Hstart & Hwf' & Hshape' & Hpasses' & Hothers' & Hn' & Hsel);
        [by apply (mid_same tid st2)|done|done|].
      exists st'. split; [done|]. split_and!; try done.
      * rewrite Hshape'. simpl. by rewrite Hreg2.
      * intros t Hne. rewrite Hothers' by done. simpl. by rewrite Hacts2, Hacts.
      * rewrite Hpasses'. unfold passes; simpl. by rewrite Hstore2, Hstore.
      * simpl in Hsel. rewrite Hreg2 in Hsel.
        rewrite (selected_shape _ _ _ _ Hshape), selected_None_mounted in Hsel.
        destruct Hm as [[c0 r0] [Hk0 Hr0]%instance_Some].
        destruct (mounted_from (_assetComponents st) 0) as [|j l] eqn:Hmounted.
        { exfalso. by eapply mounted_from_nonempty. }
        by destruct Hsel as (? & ? & ?).
      * simpl in Hsel. rewrite Hreg2 in Hsel.
        rewrite (selected_shape _ _ _ _ Hshape), selected_None_mounted in Hsel.
        unfold mounted.
        destruct (mounted_from (_assetComponents st) 0) as [|j l] eqn:Hmounted.
        { exfalso. destruct Hm as [[c0 r0] [Hk0 Hr0]%instance_Some].
          by eapply mounted_from_nonempty. }
        destruct Hsel as (Haw & _ & Hlog').
        eexists _, j. split_and!; [| |done|exact Haw|].
        -- by destruct (prologue_pass (awaiter (rf_pass f)) None JsUndefined None
                          (set_needsRefresh false st2))
             as (? & ? & ? & ? & _).
        -- by destruct (prologue_pass (awaiter (rf_pass f)) None JsUndefined None
                          (set_needsRefresh false st2))
             as (? & ? & ? & ? & _).
        -- rewrite Hlog'. simpl. by rewrite Hlog2, Hlog.
    + destruct (fulfil_state tid (awaiter (rf_pass f)) st2)
        as (Hreg3 & Hacts3 & Hi3 & Hn3 & Hstore3 & Hlog3).
      eexists. split; [done|]. split_and!.
      * apply wf_fulfil_mid; [done|congruence].
      * by rewrite Hreg3, Hreg2.
      * intros t Hne. rewrite Hacts3, list_lookup_insert_ne by done.
        by rewrite Hacts2, Hacts.
      * congruence.
      * unfold passes. by rewrite Hstore3, Hstore2, Hstore.
      * congruence.
      * rewrite Hacts3, Hacts2, Hacts.
        apply list_lookup_insert_eq. by eapply lookup_lt_Some.
      * by rewrite Hlog3, Hlog2.
Qed.

(** ** The other activations and the handlers *)

Lemma wf_suspend tid a st :
  wf st -> tid <= length (activations st) ->
  is_pass a = false -> valid_frame st a ->
  wf (suspend tid a st).
Proof.
  intros Hwf Hle Hp Hv.
  assert (Hlook : forall t a', activations (suspend tid a st) !! t = Some a' ->
            (t = tid /\ a' = a) \/ (t <> tid /\ activations st !! t = Some a')).
  { intros t a'. destruct (decide (t = tid)) as [->|Hne].
    - rewrite lookup_suspend_eq by done. intros [= <-]. by left.
    - rewrite lookup_suspend_ne by done. by right. }
  split; simpl.
  - intros t1 t2 a1 a2 [[-> ->]|[? H1]]%Hlook [[-> ->]|[? H2]]%Hlook;
      try congruence. by eapply (wf_one_pass _ Hwf).
  - intros t a' [[-> ->]|[? H1]]%Hlook; [congruence|].
    by eapply (wf_guard _ Hwf).
  - by apply wf_pending.
  - intros t a' [[-> ->]|[? H1]]%Hlook; [done|].
    by eapply (wf_frames _ Hwf).
  - apply (valid_observers_ext st); [done|done|]. by apply wf_observers.
Qed.

Lemma wf_set_needsRefresh st :
  wf st -> _isRefreshing st = true -> wf (set_needsRefresh true st).
Proof.
  intros [H1 H2 H3 H4 H5] Hi. split; try done.
Qed.

(** A call that finds the guard closed only raises the flag. *)
Lemma refreshAllAssets_busy tid a c o f st :
  _isRefreshing st = true ->
  _refreshAllAssets tid a c o f st = Some (fulfil tid a (set_needsRefresh true st)).
Proof.
  intros Hi. unfold _refreshAllAssets; simpl. unfold refreshAllAssets_body.
  by rewrite Hi.
Qed.

Lemma refreshAllAssets_wf tid a c o f st :
  wf st -> tid <= length (activations st) ->
  (forall a', activations st !! tid = Some a' -> is_pass a' = false) ->
  exists st', _refreshAllAssets tid a c o f st = Some st' /\ wf st'.
Proof.
  intros Hwf Hle Hslot. destruct (_isRefreshing st) eqn:Hi.
  - rewrite refreshAllAssets_busy by done. eexists. split; [done|].
    apply wf_fulfil. by apply wf_set_needsRefresh.
  - destruct (start_spec 1 tid a c o f st) as (st' & Hst & Hwf' & _).
    + by apply mid_of_idle.
    + done.
    + destruct (_needsRefresh st) eqn:Hn; [|done].
      by rewrite (wf_pending _ Hwf Hn) in Hi.
    + by exists st'.
Qed.

Lemma drop_files_wf tid files taskFeedBack components l i st :
  wf st -> tid <= length (activations st) ->
  (forall a', activations st !! tid = Some a' -> is_pass a' = false) ->
  Forall (fun k => is_mounted k st) l ->
  Forall (fun k => is_mounted k st) components ->
  exists st', drop_files tid files taskFeedBack components l i st = Some st' /\ wf st'.
Proof.
  revert i st. induction l as [|c l IH]; intros i st Hwf Hle Hslot Hl Hcs; simpl.
  - apply refreshAllAssets_wf; [by apply wf_emit|done|done].
  - apply Forall_cons in Hl as [[[c0 r] Hc] Hl]. rewrite Hc.
    destruct (onDropFiles r).
    + eexists. split; [done|].
      apply wf_suspend; [by apply wf_emit|done|done|done].
    + apply IH; [by apply wf_emit|done|done|done|done].
Qed.

Lemma addFilesToAssets_wf files st :
  wf st -> exists st', addFilesToAssets files st = Some st' /\ wf st'.
Proof.
  intros Hwf. unfold addFilesToAssets. destruct (_isRefreshing st) eqn:Hi.
  - eexists. split; [done|]. by apply wf_emit.
  - simpl.
    assert (Hm : Forall (fun k => is_mounted k st) (mounted (_assetComponents st))).
    { unfold mounted, is_mounted, instance.
      assert (Hgen : forall l k, Forall (fun j => k <= j /\ exists c r,
                l !! (j - k) = Some c /\ _ref c = Some r) (mounted_from l k)).
      { induction l as [|c l IH]; intros k; simpl; [done|].
        assert (Hrest : Forall (fun j => k <= j /\ exists c0 r,
                  (c :: l) !! (j - k) = Some c0 /\ _ref c0 = Some r)
                  (mounted_from l (S k))).
        { eapply Forall_impl; [apply IH|]. simpl. intros j (Hj & c0 & r & Hl & Hr).
          split; [lia|]. exists c0, r. replace (j - k) with (S (j - S k)) by lia. done. }
        destruct (_ref c) as [r|] eqn:Hr; [|done].
        apply Forall_cons. split; [|done]. split; [lia|].
        exists c, r. by rewrite Nat.sub_diag. }
      eapply Forall_impl; [apply (Hgen _ 0)|]. simpl.
      intros j (_ & c & r & Hl & Hr). rewrite Nat.sub_0_r in Hl.
      by rewrite Hl, Hr. }
    apply drop_files_wf; [|done| | |].
    + apply wf_emit. apply (wf_update st); try done.
      apply (valid_observers_ext st); [done|done|by apply wf_observers].
    + simpl. intros a' Ha'. apply lookup_lt_Some in Ha'. lia.
    + done.
    + done.
Qed.

Lemma notifyObservers_spec l st :
  wf st -> Forall (fun o => obs_progress o < length (store st)) l ->
  exists st',
    notifyObservers l st = Some st' /\ wf st' /\
    _assetComponents st' = _assetComponents st /\
    activations st' = activations st /\
    _isRefreshing st' = _isRefreshing st /\
    _needsRefresh st' = _needsRefresh st /\
    length (store st') = length (store st) /\
    refreshed (log st') = refreshed (log st).
Proof.
  revert st. induction l as [|o l IH]; intros st Hwf Hl; simpl.
  - by exists st.
  - apply Forall_cons in Hl as [Ho Hl]. unfold observer_callback.
    destruct (negb (truthy (obs_object o)) && negb (is_Infinity (obs_assetStep o))).
    + destruct (lookup_lt_is_Some_2 (store st) (obs_progress o)) as [v Hv]; [done|].
      rewrite Hv.
      set (st1 := emit _ _).
      destruct (IH st1) as (st' & Hn & Hwf' & Hc & Ha & Hi & Hne & Hs & Hlog).
      * apply (wf_update st); try done.
        -- simpl. by rewrite length_insert.
        -- apply (valid_observers_ext st); [done| |by apply wf_observers].
           simpl. by rewrite length_insert.
      * simpl. by rewrite length_insert.
      * exists st'. split; [done|]. split_and!; try done.
        -- rewrite Hs. simpl. by rewrite length_insert.
        -- rewrite Hlog. simpl. by rewrite refreshed_app, app_nil_r.
    + by apply IH.
Qed.

Lemma handler_items_spec k component r l st :
  wf st -> instance k st = Some (component, r) ->
  let st' := set_instance k component (set_items l r) st in
  wf st' /\
  shape <$> _assetComponents st' = shape <$> _assetComponents st.
Proof.
  intros Hwf Hk. simpl.
  assert (Hm : is_mounted k st) by (by eexists).
  split.
  - apply (wf_update st); try done.
    + intros k' Hk'. by apply is_mounted_set_instance.
    + apply valid_observers_set_instance; [by apply wf_observers|done|].
      simpl. by eapply wf_observers.
  - by apply (shape_set_instance k component r).
Qed.

(** Every event keeps the invariant. *)
Lemma react_wf ev st st' : wf st -> react ev st = Some st' -> wf st'.
Proof.
  intros Hwf. destruct ev as [c o|c|files|tid ok|k|k l]; simpl.
  - unfold refresh. intros Hr.
    destruct (refreshAllAssets_wf (length (activations st)) ByCaller c o None st)
      as (st1 & Hst1 & Hwf1); [done|done| |congruence].
    intros a' Ha'. apply lookup_lt_Some in Ha'. lia.
  - unfold forceRefresh. intros Hr.
    destruct (refreshAllAssets_wf (length (activations st)) ByCaller c JsUndefined
                (Some true) st) as (st1 & Hst1 & Hwf1); [done|done| |congruence].
    intros a' Ha'. apply lookup_lt_Some in Ha'. lia.
  - intros Hr. destruct (addFilesToAssets_wf files st Hwf) as (st1 & Hst1 & Hwf1).
    congruence.
  - destruct (activations st !! tid) as [[f|f| |]|] eqn:Ht; try done.
    + destruct ok.
      * intros Hr. destruct (resume_refresh_spec tid f st Hwf Ht) as (st1 & Hst1 & Hwf1 & _).
        congruence.
      * intros [= <-]. by apply wf_settle.
    + destruct ok.
      * unfold resume_drop. intros Hr.
        pose proof (wf_frames _ Hwf _ _ Ht) as Hv. simpl in Hv.
        destruct (drop_files_wf tid (df_files f) (df_taskFeedBack f) (df_components f)
                    (drop (S (df_i f)) (df_components f)) (S (df_i f))
                    (emit [UpdateTaskFeedback (Some (df_taskFeedBack f))
                             (drop_progress (length (df_components f)) (df_i f)) None] st))
          as (st1 & Hst1 & Hwf1); [by apply wf_emit| | | | |congruence].
        -- simpl. apply lookup_lt_Some in Ht. lia.
        -- simpl. intros a'. rewrite Ht. by intros [= <-].
        -- by apply Forall_drop.
        -- done.
      * intros [= <-]. by apply wf_settle.
  - destruct (instance k st) as [[component r]|] eqn:Hk; [|done].
    intros Hr. destruct (notifyObservers_spec (updateAssetObservable r) st)
      as (st1 & Hst1 & Hwf1 & _); [done|by eapply wf_observers|congruence].
  - destruct (instance k st) as [[component r]|] eqn:Hk; [|done].
    intros [= <-]. by apply handler_items_spec.
Qed.

Lemma run_wf evs st st' : wf st -> run evs st = Some st' -> wf st'.
Proof.
  revert st. induction evs as [|ev evs IH]; intros st Hwf; simpl.
  - by intros [= <-].
  - destruct (react ev st) as [st1|] eqn:Hr; [|done].
    apply IH. by eapply react_wf.
Qed.

(** A registry whose handlers have no subscriber yet gives a state of the
    machine. *)
Lemma wf_initial reg : unobserved reg -> wf (initial reg).
Proof.
  intros Hu. split; simpl; try done.
  intros k c r [Hk Hr]%instance_Some. simpl in Hk.
  rewrite (Hu c r); [done|by eapply list_elem_of_lookup_2|done].
Qed.

Lemma executing_nil st :
  (forall t a, activations st !! t = Some a -> is_pass a = false) ->
  executing st = [].
Proof.
  unfold executing. induction (activations st) as [|a l IH]; intros H; simpl; [done|].
  rewrite (H 0 a) by done. apply IH. intros t a' Ht. by apply (H (S t)).
Qed.

(** At most one pass is executing in a state of the machine. *)
Lemma executing_at_most_one st : wf st -> length (executing st) <= 1.
Proof.
  intros Hwf. pose proof (wf_one_pass _ Hwf) as H. unfold executing.
  induction (activations st) as [|a l IH]; simpl; [lia|].
  destruct (is_pass a) eqn:Hp.
  - simpl. assert (List.filter is_pass l = []) as ->; [|simpl; lia].
    clear IH. induction l as [|b l IH]; simpl; [done|].
    destruct (is_pass b) eqn:Hb.
    + by specialize (H 0 1 a b eq_refl eq_refl Hp Hb).
    + apply IH. intros t1 t2 a1 a2 H1 H2 Hp1 Hp2.
      destruct t1 as [|t1], t2 as [|t2]; simpl in *; try done.
      * by specialize (H 0 (S (S t2)) a1 a2 H1 H2 Hp1 Hp2).
      * by specialize (H (S (S t1)) 0 a1 a2 H1 H2 Hp1 Hp2).
      * specialize (H (S (S t1)) (S (S t2)) a1 a2 H1 H2 Hp1 Hp2). lia.
  - apply IH. intros t1 t2 a1 a2 H1 H2 Hp1 Hp2.
    specialize (H (S t1) (S t2) a1 a2 H1 H2 Hp1 Hp2). lia.
Qed.

Lemma wf_idle st : wf st -> _isRefreshing st = false -> Idle st.
Proof.
  intros Hwf Hi. split_and!; [done| |].
  - destruct (_needsRefresh st) eqn:Hn; [|done].
    by rewrite (wf_pending _ Hwf Hn) in Hi.
  - apply executing_nil. intros t a Ht. destruct (is_pass a) eqn:Hp; [|done].
    by rewrite (wf_guard _ Hwf _ _ Ht Hp) in Hi.
Qed.

(** ** A pass in flight *)

Lemma set_needsRefresh_fulfil_caller st :
  fulfil (length (activations st)) ByCaller (set_needsRefresh true st)
  = set_needsRefresh true st.
Proof.
  unfold fulfil, settle, set_needsRefresh, set_activations; simpl.
  by rewrite list_insert_ge.
Qed.

(** While the guard is closed, [refresh] and [forceRefresh] raise the flag
    and do nothing else. *)
Lemma refresh_busy c o st :
  _isRefreshing st = true ->
  refresh c o st = Some (set_needsRefresh true st) /\
  forceRefresh c st = Some (set_needsRefresh true st).
Proof.
  intros Hi. unfold refresh, forceRefresh.
  by rewrite !refreshAllAssets_busy, !set_needsRefresh_fulfil_caller.
Qed.

Lemma selected_cons componentCtor l k j rest :
  selected componentCtor l k = j :: rest ->
  k <= j /\ rest = selected componentCtor (drop (S (j - k)) l) (S j).
Proof.
  revert k. induction l as [|c l IH]; intros k; simpl; [done|].
  assert (Hskip : selected componentCtor l (S k) = j :: rest ->
            k <= j /\ rest = selected componentCtor (drop (j - k) l) (S j)).
  { intros [Hle ->]%IH. split; [lia|].
    by replace (j - k) with (S (j - S k)) by lia. }
  destruct (match componentCtor with Some _ => _ | None => _ end); [done|].
  destruct (_ref c); [|done].
  intros [= <- <-]. rewrite Nat.sub_diag. by rewrite drop_0.
Qed.

Lemma remaining_shape f st st' :
  shape <$> _assetComponents st' = shape <$> _assetComponents st ->
  remaining f st' = remaining f st.
Proof.
  intros Hs. unfold remaining. apply selected_shape. by rewrite !fmap_drop, Hs.
Qed.

Lemma remaining_next f f' st st' j rest :
  remaining f st = j :: rest ->
  shape <$> _assetComponents st' = shape <$> _assetComponents st ->
  rf_pass f' = rf_pass f -> rf_index f' = j ->
  remaining f' st' = rest.
Proof.
  intros Hrem Hs Hp Hj. rewrite (remaining_shape _ _ _ Hs).
  unfold remaining in *. apply selected_cons in Hrem as [Hle ->].
  rewrite Hp, Hj, drop_drop. do 2 f_equal. lia.
Qed.

Lemma is_mounted_shape k st st' :
  shape <$> _assetComponents st' = shape <$> _assetComponents st ->
  is_mounted k st <-> is_mounted k st'.
Proof. intros Hs. split; by apply shape_mounted. Qed.


(** A handler at work changes neither the slots, nor the flags, nor the
    number of passes, nor which handlers were refreshed. *)
Lemma handler_step ev st :
  wf st ->
  match ev with
  | Handler_notifies k | Handler_items k _ => is_mounted k st
  | _ => False
  end ->
  exists st',
    react ev st = Some st' /\ wf st' /\
    shape <$> _assetComponents st' = shape <$> _assetComponents st /\
    activations st' = activations st /\
    _isRefreshing st' = _isRefreshing st /\
    _needsRefresh st' = _needsRefresh st /\
    passes st' = passes st /\
    refreshed (log st') = refreshed (log st).
Proof.
  intros Hwf. destruct ev as [| | | |k|k l]; try done; intros [[c r] Hk]; simpl; rewrite Hk.
  - destruct (notifyObservers_spec (updateAssetObservable r) st)
      as (st' & Hst & Hwf' & Hc & Ha & Hi & Hn & Hs & Hlog);
      [done|by eapply wf_observers|].
    exists st'. split_and!; try done. by rewrite Hc.
  - eexists. split; [done|].
    destruct (handler_items_spec k c r l st Hwf Hk) as [Hwf' Hs].
    split_and!; done.
Qed.

(** What one event does while the pass of slot [tid] is in flight. *)
Lemma step_in_flight tid f ev st :
  wf st -> activations st !! tid = Some (AwaitRefresh f) ->
  during tid st ev -> is_settle tid ev = false ->
  exists st',
    react ev st = Some st' /\ wf st' /\
    shape <$> _assetComponents st' = shape <$> _assetComponents st /\
    activations st' = activations st /\
    _isRefreshing st' = true /\
    _needsRefresh st' = _needsRefresh st || is_call ev /\
    passes st' = passes st /\
    refreshed (log st') = refreshed (log st).
Proof.
  intros Hwf Ht Hd Hs.
  assert (Hi : _isRefreshing st = true) by (by eapply (wf_guard _ Hwf)).
  destruct ev as [c o|c|files|t ok|k|k l].
  - simpl. destruct (refresh_busy c o st Hi) as [-> _].
    eexists. split; [done|]. split_and!; try done.
    + by apply wf_set_needsRefresh.
    + simpl. by rewrite orb_true_r.
  - simpl. destruct (refresh_busy c JsUndefined st Hi) as [_ ->].
    eexists. split; [done|]. split_and!; try done.
    + by apply wf_set_needsRefresh.
    + simpl. by rewrite orb_true_r.
  - simpl. unfold addFilesToAssets. rewrite Hi.
    eexists. split; [done|]. split_and!; try done.
    + by apply wf_emit.
    + simpl. by rewrite orb_false_r.
    + simpl. by rewrite refreshed_app, app_nil_r.
  - destruct Hd as [-> ->]. simpl in Hs. by rewrite Nat.eqb_refl in Hs.
  - destruct (handler_step (Handler_notifies k) st Hwf Hd)
      as (st' & ? & ? & ? & ? & Hi' & Hn' & ? & ?).
    exists st'. split_and!; try done; [congruence|by rewrite orb_false_r].
  - destruct (handler_step (Handler_items k l) st Hwf Hd)
      as (st' & ? & ? & ? & ? & Hi' & Hn' & ? & ?).
    exists st'. split_and!; try done; [congruence|by rewrite orb_false_r].
Qed.

Lemma is_settle_true tid ev : is_settle tid ev = true -> ev = Settle tid true.
Proof.
  destruct ev as [| | |t [|]| |]; simpl; try done.
  by intros ->%Nat.eqb_eq.
Qed.


Lemma mounted_shape reg reg' :
  shape <$> reg' = shape <$> reg -> mounted reg' = mounted reg.
Proof.
  intros Hs. unfold mounted. rewrite <- !selected_None_mounted.
  by apply selected_shape.
Qed.




(** ** A pass in flight, whatever else happens *)

Lemma drop_files_in_flight tid files taskFeedBack components l i st st' :
  _isRefreshing st = true ->
  tid <= length (activations st) ->
  drop_files tid files taskFeedBack components l i st = Some st' ->
  _isRefreshing st' = true /\
  _assetComponents st' = _assetComponents st /\
  (forall t, t <> tid -> activations st' !! t = activations st !! t) /\
  (_needsRefresh st = true -> _needsRefresh st' = true) /\
  store st' = store st /\
  refreshed (log st') = refreshed (log st).
Proof.
  revert i st. induction l as [|c l IH]; intros i st Hi Hle; simpl.
  - rewrite refreshAllAssets_busy by done. intros [= <-].
    split_and!; try done.
    + intros t Hne. simpl. by rewrite list_lookup_insert_ne.
    + simpl. rewrite !refreshed_app. simpl. by rewrite !app_nil_r.
  - destruct (instance c st) as [[c0 r]|]; [|done].
    destruct (onDropFiles r).
    + intros [= <-]. split_and!; try done.
      * intros t Hne. by rewrite lookup_suspend_ne.
      * simpl. by rewrite refreshed_app, app_nil_r.
    + intros H. apply IH in H; [|done|done].
      destruct H as (? & ? & ? & ? & ? & Hlog). split_and!; try done.
      rewrite Hlog. simpl. by rewrite refreshed_app, app_nil_r.
Qed.

(** An event that does not settle the promise the pass awaits leaves the
    pass where it is and calls no [refresh]. *)
Lemma other_step tid f ev st st' :
  wf st -> activations st !! tid = Some (AwaitRefresh f) ->
  react ev st = Some st' ->
  (forall ok, ev <> Settle tid ok) ->
  wf st' /\
  shape <$> _assetComponents st' = shape <$> _assetComponents st /\
  activations st' !! tid = Some (AwaitRefresh f) /\
  _isRefreshing st' = true /\
  (_needsRefresh st = true -> _needsRefresh st' = true) /\
  (is_call ev = true -> _needsRefresh st' = true) /\
  passes st' = passes st /\
  refreshed (log st') = refreshed (log st).
Proof.
  intros Hwf Ht Hreact Hev.
  assert (Hi : _isRefreshing st = true) by (by eapply (wf_guard _ Hwf)).
  assert (Hwf' : wf st') by (by eapply react_wf).
  assert (Hstep : during tid st ev -> is_settle tid ev = false ->
            wf st' /\
            shape <$> _assetComponents st' = shape <$> _assetComponents st /\
            activations st' !! tid = Some (AwaitRefresh f) /\
            _isRefreshing st' = true /\
            (_needsRefresh st = true -> _needsRefresh st' = true) /\
            (is_call ev = true -> _needsRefresh st' = true) /\
            passes st' = passes st /\
            refreshed (log st') = refreshed (log st)).
  { intros Hd Hs.
    destruct (step_in_flight tid f ev st Hwf Ht Hd Hs)
      as (st1 & Hst1 & _ & Hshape & Hacts & Hi1 & Hn1 & Hpass & Hlog).
    assert (st1 = st') as -> by congruence.
    split_and!; try done.
    - by rewrite Hacts.
    - intros Hn. by rewrite Hn1, Hn.
    - intros Hc. by rewrite Hn1, Hc, orb_true_r. }
  destruct ev as [c o|c|files|t ok|k|k l].
  - by apply Hstep.
  - by apply Hstep.
  - by apply Hstep.
  - assert (Hne : t <> tid) by (intros ->; by destruct (Hev ok)).
    simpl in Hreact.
    destruct (activations st !! t) as [[g|g| |]|] eqn:Hg; try done.
    { by destruct (Hne (wf_one_pass _ Hwf t tid _ _ Hg Ht eq_refl eq_refl)). }
    destruct ok.
    + unfold resume_drop in Hreact.
      apply drop_files_in_flight in Hreact as (Hi' & Hreg & Hothers & Hn & Hstore & Hlog);
        [|done|simpl; apply lookup_lt_Some in Hg; lia].
      split_and!; try done.
      * by rewrite Hreg.
      * by rewrite Hothers.
      * unfold passes. by rewrite Hstore.
      * rewrite Hlog. simpl. by rewrite refreshed_app, app_nil_r.
    + injection Hreact as <-. split_and!; try done.
      by rewrite lookup_settle_ne.
  - apply Hstep; [|done]. simpl. simpl in Hreact. unfold is_mounted.
    destruct (instance k st); [by eexists|done].
  - apply Hstep; [|done]. simpl. simpl in Hreact. unfold is_mounted.
    destruct (instance k st); [by eexists|done].
Qed.

Lemma in_flight_run tid evs : forall st f st',
  wf st -> activations st !! tid = Some (AwaitRefresh f) ->
  run evs st = Some st' ->
  Forall (fun ev => ev <> Settle tid false) evs ->
  settles tid evs <= length (remaining f st) ->
  exists f',
    wf st' /\
    activations st' !! tid = Some (AwaitRefresh f') /\
    rf_pass f' = rf_pass f /\
    shape <$> _assetComponents st' = shape <$> _assetComponents st /\
    rf_index f' :: remaining f' st'
    = drop (settles tid evs) (rf_index f :: remaining f st) /\
    passes st' = passes st /\
    _isRefreshing st' = true /\
    (_needsRefresh st = true -> _needsRefresh st' = true) /\
    (existsb is_call evs = true -> _needsRefresh st' = true) /\
    refreshed (log st')
    = refreshed (log st) ++ take (settles tid evs) (remaining f st).
Proof.
  induction evs as [|ev evs IH]; intros st f st' Hwf Ht Hrun Hev Hn.
  - injection Hrun as <-. exists f. simpl. split_and!; try done.
    + by eapply (wf_guard _ Hwf).
    + by rewrite app_nil_r.
  - apply Forall_cons in Hev as [Hev0 Hev]. simpl in Hrun.
    destruct (react ev st) as [st1|] eqn:Hreact; [|done].
    unfold settles in *. simpl in *.
    destruct (is_settle tid ev) eqn:Hs.
    + apply is_settle_true in Hs as ->. simpl in *. rewrite Ht in Hreact.
      destruct (resume_refresh_spec tid f st Hwf Ht)
        as (st2 & Hst2 & Hwf1 & Hshape1 & Hothers1 & Hcase).
      assert (st2 = st1) as -> by congruence.
      destruct (remaining f st) as [|j rest] eqn:Hrem; [simpl in Hn; lia|].
      destruct Hcase as ((f1 & Ht1 & Hp1 & Hj1) & Hi1 & Hn1 & Hpass1 & Hlog1).
      pose proof (remaining_next f f1 st st1 j rest Hrem Hshape1 Hp1 Hj1) as Hrem1.
      destruct (IH st1 f1 st') as (f' & Hwf' & Ht' & Hp' & Hshape' & Hpos
                                   & Hpass' & Hi' & Hn' & Hc' & Hlog');
        [done|done|done|done|rewrite Hrem1; simpl in Hn; lia|].
      exists f'. split_and!; try done; try congruence.
      * intros H. apply Hn'. congruence.
      * rewrite Hlog', Hlog1, Hrem1. by rewrite <- app_assoc.
    + destruct (other_step tid f ev st st1 Hwf Ht Hreact)
        as (Hwf1 & Hshape1 & Ht1 & Hi1 & Hn1 & Hc1 & Hpass1 & Hlog1).
      { intros [|]; [|done]. intros ->. simpl in Hs. by rewrite Nat.eqb_refl in Hs. }
      destruct (IH st1 f st') as (f' & Hwf' & Ht' & Hp' & Hshape' & Hpos
                                  & Hpass' & Hi' & Hn' & Hc' & Hlog');
        [done|done|done|done|by rewrite (remaining_shape _ _ _ Hshape1)|].
      exists f'. rewrite (remaining_shape _ _ _ Hshape1) in *.
      split_and!; try done; try congruence.
      * intros H. by apply Hn', Hn1.
      * intros [H|H]%orb_true_iff; [by apply Hn', Hc1|by apply Hc'].
Qed.

(** ** Coalescing of refresh requests *)


Lemma unobserved_registryAB : unobserved registryAB.
Proof.
  intros c r Hc Hr.
  apply elem_of_cons in Hc as [->|Hc]; [by injection Hr as <-|].
  apply list_elem_of_singleton in Hc as ->. by injection Hr as <-.
Qed.

Lemma wf_refreshingAB : wf refreshingAB.
Proof.
  apply (run_wf [Call_refresh None JsUndefined] (initial registryAB));
    [apply wf_initial, unobserved_registryAB|].
  by vm_compute.
Qed.

(** The scenario of the specification: [refresh()], then two more requests
    while A is awaited, one of them filtered and one forced. *)



(** ** Forced passes *)

Lemma visit_frame tid p k component r st f :
  tid <= length (activations st) ->
  instance k st = Some (component, r) ->
  activations (visit tid p k component r st) !! tid = Some (AwaitRefresh f) ->
  visited tid f (visit tid p k component r st).
Proof.
  intros Hle Hk. unfold visit at 1. rewrite lookup_suspend_eq by done.
  intros [= <-]. simpl. by exists component, r, st.
Qed.

Lemma start_visited n tid a c o fo st st' f :
  tid <= length (activations st) ->
  _isRefreshing st = false -> _needsRefresh st = false ->
  refreshAllAssets_fuel n tid a c o fo st = Some st' ->
  activations st' !! tid = Some (AwaitRefresh f) ->
  visited tid f st'.
Proof.
  intros Hle Hi Hn.
  assert (refreshAllAssets_fuel n tid a c o fo st
          = for_of (match n with
                    | 0 => fun _ => None
                    | S n' => refreshAllAssets_fuel n' tid a None JsUndefined None
                    end) tid (prologue a c o fo st).1 0 (prologue a c o fo st).2) as ->.
  { destruct n; simpl; unfold refreshAllAssets_body; rewrite Hi;
      by destruct (prologue a c o fo st). }
  destruct (prologue_state a c o fo st) as (Hreg & Hacts & Hi1 & Hn1 & Hstore & Hlog).
  set (p := (prologue a c o fo st).1) in *.
  set (st1 := (prologue a c o fo st).2) in *. clearbody p st1.
  pose proof (next_component_drop (componentCtor p) (_assetComponents st1) 0) as Hnext.
  destruct (next_component _ _ _) as [[[j component] r]|] eqn:Hnc.
  - destruct Hnext as (Hj & Hr & _).
    rewrite (for_of_visit _ _ _ _ _ j component r) by done.
    intros [= <-]. apply visit_frame; [by rewrite Hacts|by apply instance_Some].
  - rewrite for_of_done by done. rewrite Hn1, Hn. intros [= <-].
    destruct (fulfil_state tid (awaiter p) (epilogue p st1)) as (_ & -> & _).
    intros Ht. apply list_lookup_insert_Some in Ht as [(_ & ? & _)|[? _]]; done.
Qed.

Lemma resume_visited tid f st st' f' :
  wf st -> activations st !! tid = Some (AwaitRefresh f) ->
  resume_refresh tid f st = Some st' ->
  activations st' !! tid = Some (AwaitRefresh f') ->
  visited tid f' st'.
Proof.
  intros Hwf Ht.
  destruct (after_refresh_spec tid f st Hwf Ht)
    as (st1 & Hafter & Hmid & Hacts & Hi & Hn & Hshape & Hstore & Hlog & _).
  unfold resume_refresh. rewrite Hafter.
  pose proof (next_component_drop (componentCtor (rf_pass f))
                (_assetComponents st1) (S (rf_index f))) as Hnext.
  destruct (next_component _ _ _) as [[[j component] r]|] eqn:Hnc.
  - destruct Hnext as (Hj & Hr & _).
    rewrite (for_of_visit _ _ _ _ _ j component r) by done.
    intros [= <-]. apply visit_frame; [by apply mid_slot in Hmid|by apply instance_Some].
  - rewrite for_of_done by done.
    destruct (epilogue_state (rf_pass f) st1) as (_ & Hacts2 & Hi2 & _).
    destruct (_needsRefresh st1).
    + assert (Hle2 : tid <= length (activations (epilogue (rf_pass f) st1))).
      { rewrite Hacts2. by apply mid_slot in Hmid. }
      apply start_visited; [exact Hle2|done|done].
    + intros [= <-].
      destruct (fulfil_state tid (awaiter (rf_pass f)) (epilogue (rf_pass f) st1))
        as (_ & -> & _).
      intros Ht'. apply list_lookup_insert_Some in Ht' as [(_ & ? & _)|[? _]]; done.
Qed.

Lemma refreshAllAssets_slots tid a c o fo st st' :
  wf st -> tid <= length (activations st) ->
  (forall a', activations st !! tid = Some a' -> is_pass a' = false) ->
  _refreshAllAssets tid a c o fo st = Some st' ->
  (forall t, t <> tid -> activations st' !! t = activations st !! t) /\
  (forall f, activations st' !! tid = Some (AwaitRefresh f) -> visited tid f st').
Proof.
  intros Hwf Hle Hslot. destruct (_isRefreshing st) eqn:Hi.
  - rewrite refreshAllAssets_busy by done. intros [= <-].
    destruct (fulfil_state tid a (set_needsRefresh true st)) as (_ & -> & _).
    split.
    + intros t Hne. by rewrite list_lookup_insert_ne.
    + intros f Ht. apply list_lookup_insert_Some in Ht as [(_ & ? & _)|[? _]]; done.
  - destruct (wf_idle st Hwf Hi) as (_ & Hn & _). intros Hcall. split.
    + destruct (start_spec 1 tid a c o fo st) as (st1 & Hst1 & _ & _ & _ & Hothers & _);
        [by apply mid_of_idle|done|done|].
      unfold _refreshAllAssets in Hcall.
      assert (st1 = st') as -> by congruence. done.
    + intros f. by eapply start_visited.
Qed.

Lemma drop_files_slots tid files taskFeedBack components l i st st' :
  wf st -> tid <= length (activations st) ->
  (forall a', activations st !! tid = Some a' -> is_pass a' = false) ->
  drop_files tid files taskFeedBack components l i st = Some st' ->
  (forall t, t <> tid -> activations st' !! t = activations st !! t) /\
  (forall f, activations st' !! tid = Some (AwaitRefresh f) -> visited tid f st').
Proof.
  revert i st. induction l as [|c l IH]; intros i st Hwf Hle Hslot; simpl.
  - intros Hcall.
    by apply (refreshAllAssets_slots tid ByAddFilesToAssets None JsUndefined None
                (emit [CloseTaskFeedback (Some taskFeedBack) None] st));
      [apply wf_emit| | |].
  - destruct (instance c st) as [[c0 r]|]; [|done].
    destruct (onDropFiles r).
    + intros [= <-]. split.
      * intros t Hne. by rewrite lookup_suspend_ne.
      * intros f. by rewrite lookup_suspend_eq.
    + intros H. apply IH in H; [exact H|by apply wf_emit|done|done].
Qed.

(** Whenever an event leaves a pass in front of a handler it did not await
    before, the call of that handler's [refresh] is what happened last. *)
Lemma new_frame_visited ev st st' tid f :
  wf st -> react ev st = Some st' ->
  activations st' !! tid = Some (AwaitRefresh f) ->
  activations st !! tid <> Some (AwaitRefresh f) ->
  visited tid f st'.
Proof.
  intros Hwf Hreact Ht' Ht.
  assert (Hfresh : forall a', activations st !! length (activations st) = Some a' ->
            is_pass a' = false).
  { intros a' Ha'. apply lookup_lt_Some in Ha'. lia. }
  assert (Hcases : forall t0,
            (forall t, t <> t0 -> activations st' !! t = activations st !! t) /\
            (forall f0, activations st' !! t0 = Some (AwaitRefresh f0) -> visited t0 f0 st') ->
            visited tid f st').
  { intros t0 [Hothers Hslot]. destruct (decide (tid = t0)) as [->|Hne]; [by apply Hslot|].
    rewrite Hothers in Ht' by done. done. }
  destruct ev as [c o|c|files|t ok|k|k l]; simpl in Hreact.
  - apply (Hcases (length (activations st))).
    by eapply (refreshAllAssets_slots _ ByCaller c o None st).
  - apply (Hcases (length (activations st))).
    by eapply (refreshAllAssets_slots _ ByCaller c JsUndefined (Some true) st).
  - unfold addFilesToAssets in Hreact. destruct (_isRefreshing st) eqn:Hi.
    + injection Hreact as <-. done.
    + apply (Hcases (length (activations st))). simpl in Hreact.
      eapply drop_files_slots in Hreact; [done| |done|done].
      apply wf_emit. apply (wf_update st); try done.
      apply (valid_observers_ext st); [done|done|by apply wf_observers].
  - destruct (activations st !! t) as [[f0|f0| |]|] eqn:Ht0; try done.
    + destruct ok.
      * apply (Hcases t). destruct (resume_refresh_spec t f0 st Hwf Ht0)
          as (st1 & Hst1 & _ & _ & Hothers & _).
        assert (st1 = st') as -> by congruence.
        split; [done|]. intros f1. by eapply resume_visited.
      * injection Hreact as <-.
        apply lookup_settle in Ht' as [[_ ?]|[_ ?]]; done.
    + destruct ok.
      * apply (Hcases t). unfold resume_drop in Hreact.
        eapply drop_files_slots in Hreact; [done|by apply wf_emit| |].
        -- simpl. apply lookup_lt_Some in Ht0. lia.
        -- simpl. intros a'. rewrite Ht0. by intros [= <-].
      * injection Hreact as <-.
        apply lookup_settle in Ht' as [[_ ?]|[_ ?]]; done.
  - destruct (handler_step (Handler_notifies k) st Hwf) as (st1 & Hst1 & _ & _ & Ha & _).
    + simpl. destruct (instance k st) eqn:Hk; [by eexists|done].
    + simpl in Hst1. assert (st1 = st') as -> by congruence. by rewrite Ha in Ht'.
  - destruct (instance k st) as [[c0 r0]|]; [|done]. injection Hreact as <-. done.
Qed.

(** C6. In a state of the machine, whenever an event makes a pass with
    [force] set call the [refresh] of a handler (the pass of slot [tid] now
    awaits a handler it did not await before), the call of [refresh] is the
    last thing that happened and the handler stands with an empty item
    list; and [forceRefresh(c)] is [_refreshAllAssets(c, undefined, true)]. *)
Theorem force_clears_items_before_refresh ev st st' tid f :
  wf st -> react ev st = Some st' ->
  activations st' !! tid = Some (AwaitRefresh f) ->
  activations st !! tid <> Some (AwaitRefresh f) ->
  truthy_flag (force (rf_pass f)) = true ->
  (exists component r pre,
     instance (rf_index f) st' = Some (component, r) /\ items r = [] /\
     log st' = pre ++ [HandlerRefresh (rf_index f) (object (rf_pass f))]) /\
  (forall c st0,
     forceRefresh c st0
     = _refreshAllAssets (length (activations st0)) ByCaller c JsUndefined (Some true) st0).
Proof.
  intros Hwf Hreact Ht' Ht Hforce. split; [|done].
  destruct (new_frame_visited ev st st' tid f Hwf Hreact Ht' Ht)
    as (component & r & st0 & -> & Hinst & Hle).
  destruct (visit_items tid (rf_pass f) (rf_index f) component r st0)
    as (c' & r' & Hinst' & Hitems); [by eexists|].
  rewrite Hforce in Hitems.
  exists c', r', (log st0 ++ [ObservableAdd (rf_index f) (observers st0)]).
  split_and!; [done|done|]. rewrite visit_log. by rewrite <- app_assoc.
Qed.

(** [forceRefresh(A)] on a fresh coordinator over A and B: A had two items. *)
Lemma force_clears_items_before_refresh_witness :
  getAssetsOf 1 (_assetComponents (initial registryAB))
  = Some [item "a1"; item "a2"] /\
  (exists component r pre,
     instance (rf_index forcedAB_frame) forcedAB = Some (component, r) /\
     items r = [] /\
     log forcedAB
     = pre ++ [HandlerRefresh (rf_index forcedAB_frame)
                 (object (rf_pass forcedAB_frame))]) /\
  (forall c st0,
     forceRefresh c st0
     = _refreshAllAssets (length (activations st0)) ByCaller c JsUndefined (Some true) st0).
Proof.
  split; [reflexivity|].
  apply (force_clears_items_before_refresh (Call_forceRefresh (Some 1))
           (initial registryAB) forcedAB 0 forcedAB_frame).
  - apply wf_initial, unobserved_registryAB.
  - reflexivity.
  - reflexivity.
  - discriminate.
  - reflexivity.
Defined.

(** ** Adding files while a pass is in flight *)

(** C7. A call of [addFilesToAssets] that finds [_isRefreshing] set shows
    the notice and does nothing else: no [onDropFiles], no task, no pass,
    no pending request; the files are not kept anywhere. *)
Theorem addFilesToAssets_busy files st :
  _isRefreshing st = true ->
  exists st',
    react (Call_addFilesToAssets files) st = Some st' /\
    log st' = log st ++ [busy_notice] /\
    _assetComponents st' = _assetComponents st /\
    activations st' = activations st /\
    _isRefreshing st' = true /\
    _needsRefresh st' = _needsRefresh st /\
    passes st' = passes st /\
    tasks st' = tasks st.
Proof.
  intros Hi. simpl. unfold addFilesToAssets. rewrite Hi.
  eexists. split; [done|]. split_and!; done.
Qed.

Lemma addFilesToAssets_busy_witness :
  exists st',
    react (Call_addFilesToAssets ["a.png"; "b.babylon"]) refreshingAB = Some st' /\
    log st' = log refreshingAB ++ [busy_notice] /\
    _assetComponents st' = _assetComponents refreshingAB /\
    activations st' = activations refreshingAB /\
    _isRefreshing st' = true /\
    _needsRefresh st' = _needsRefresh refreshingAB /\
    passes st' = passes refreshingAB /\
    tasks st' = tasks refreshingAB.
Proof. apply addFilesToAssets_busy. reflexivity. Defined.

(** ** A handler that fails *)

Lemma drop_files_busy tid files taskFeedBack components l i st st' :
  _isRefreshing st = true ->
  (forall t a, activations st !! t = Some a -> is_pass a = false) ->
  tid <= length (activations st) ->
  drop_files tid files taskFeedBack components l i st = Some st' ->
  _isRefreshing st' = true /\
  (forall t a, activations st' !! t = Some a -> is_pass a = false) /\
  store st' = store st /\
  refreshed (log st') = refreshed (log st).
Proof.
  revert i st. induction l as [|c l IH]; intros i st Hi Hnone Hle; simpl.
  - rewrite refreshAllAssets_busy by done. intros [= <-].
    split_and!; [done| |done|].
    + intros t a. simpl.
      intros [(_ & <- & _)|[_ ?]]%list_lookup_insert_Some; [done|by eapply Hnone].
    + simpl. rewrite !refreshed_app. simpl. by rewrite !app_nil_r.
  - destruct (instance c st) as [[c0 r]|]; [|done].
    destruct (onDropFiles r).
    + intros [= <-]. split_and!; [done| |done|].
      * intros t a. destruct (decide (t = tid)) as [->|Hne].
        -- rewrite lookup_suspend_eq by done. by intros [= <-].
        -- rewrite lookup_suspend_ne by done. simpl. by apply Hnone.
      * simpl. by rewrite refreshed_app, app_nil_r.
    + intros H. apply IH in H; [|done|done|done].
      destruct H as (? & ? & ? & Hlog). split_and!; try done.
      rewrite Hlog. simpl. by rewrite refreshed_app, app_nil_r.
Qed.

(** Once the guard is closed with no pass behind it, no event opens it, no
    pass is started and no handler is refreshed. *)
Lemma wedged_step ev st st' :
  wf st -> _isRefreshing st = true ->
  (forall t a, activations st !! t = Some a -> is_pass a = false) ->
  react ev st = Some st' ->
  _isRefreshing st' = true /\
  (forall t a, activations st' !! t = Some a -> is_pass a = false) /\
  passes st' = passes st /\
  refreshed (log st') = refreshed (log st).
Proof.
  intros Hwf Hi Hnone. destruct ev as [c o|c|files|t ok|k|k l]; simpl.
  - destruct (refresh_busy c o st Hi) as [-> _]. by intros [= <-].
  - destruct (refresh_busy c JsUndefined st Hi) as [_ ->]. by intros [= <-].
  - unfold addFilesToAssets. rewrite Hi. intros [= <-].
    split_and!; try done. simpl. by rewrite refreshed_app, app_nil_r.
  - destruct (activations st !! t) as [[f|f| |]|] eqn:Ht; try done.
    + by specialize (Hnone _ _ Ht).
    + destruct ok.
      * unfold resume_drop. intros H. apply drop_files_busy in H; [|done|done|].
        -- destruct H as (? & ? & Hstore & Hlog). split_and!; try done.
           ++ unfold passes. by rewrite Hstore.
           ++ rewrite Hlog. simpl. by rewrite refreshed_app, app_nil_r.
        -- simpl. apply lookup_lt_Some in Ht. lia.
      * intros [= <-]. split_and!; try done.
        intros t' a [[_ ->]|[_ ?]]%lookup_settle; [done|by eapply Hnone].
  - intros H. destruct (handler_step (Handler_notifies k) st Hwf)
      as (st1 & Hst1 & _ & _ & Ha & Hi1 & _ & Hp & Hlog).
    + simpl. destruct (instance k st) eqn:Hk; [by eexists|done].
    + simpl in Hst1. assert (st1 = st') as -> by congruence.
      split_and!; try done; [congruence|by rewrite Ha].
  - destruct (instance k st) as [[c0 r0]|]; [|done]. by intros [= <-].
Qed.

Lemma wedged_run evs : forall st st',
  wf st -> _isRefreshing st = true ->
  (forall t a, activations st !! t = Some a -> is_pass a = false) ->
  run evs st = Some st' ->
  wf st' /\ _isRefreshing st' = true /\
  (forall t a, activations st' !! t = Some a -> is_pass a = false) /\
  passes st' = passes st /\
  refreshed (log st') = refreshed (log st).
Proof.
  induction evs as [|ev evs IH]; intros st st' Hwf Hi Hnone; simpl.
  - by intros [= <-].
  - destruct (react ev st) as [st1|] eqn:Hreact; [|done].
    destruct (wedged_step ev st st1 Hwf Hi Hnone Hreact) as (Hi1 & Hnone1 & Hp1 & Hlog1).
    intros Hrun. apply IH in Hrun; [|by eapply react_wf|done|done].
    destruct Hrun as (? & ? & ? & ? & ?). split_and!; try done; congruence.
Qed.

(** The promise awaited by the pass of slot [tid] is rejected. *)
Lemma reject_wedges st tid f :
  wf st -> activations st !! tid = Some (AwaitRefresh f) ->
  let st1 := settle tid Rejected st in
  react (Settle tid false) st = Some st1 /\
  wf st1 /\ _isRefreshing st1 = true /\
  (forall t a, activations st1 !! t = Some a -> is_pass a = false) /\
  passes st1 = passes st /\
  log st1 = log st /\
  _assetComponents st1 = _assetComponents st.
Proof.
  intros Hwf Ht. simpl. rewrite Ht. split_and!; try done.
  - by apply wf_settle.
  - by eapply (wf_guard _ Hwf).
  - intros t a [[_ ->]|[Hne Ha]]%lookup_settle; [done|].
    destruct (is_pass a) eqn:Hp; [|done]. destruct Hne.
    by eapply (wf_one_pass _ Hwf).
Qed.

(** C9. When the promise of a handler's [refresh] is rejected during a
    pass, [_isRefreshing] stays set for ever: whatever happens afterwards,
    no pass is executing and none is started, every call of [refresh] or
    [forceRefresh] only raises [_needsRefresh], every call of
    [addFilesToAssets] only shows the notice, and the coordinator is never
    idle again. *)
Theorem rejected_refresh_wedges_coordinator st tid f :
  wf st -> activations st !! tid = Some (AwaitRefresh f) ->
  exists st1,
    react (Settle tid false) st = Some st1 /\
    forall evs st2, run evs st1 = Some st2 ->
      _isRefreshing st2 = true /\
      executing st2 = [] /\
      passes st2 = passes st /\
      ~ Idle st2 /\
      (forall c o, refresh c o st2 = Some (set_needsRefresh true st2) /\
                   forceRefresh c st2 = Some (set_needsRefresh true st2)) /\
      (forall files, addFilesToAssets files st2 = Some (emit [busy_notice] st2)).
Proof.
  intros Hwf Ht.
  destruct (reject_wedges st tid f Hwf Ht) as (Hreact & Hwf1 & Hi1 & Hnone1 & Hp1 & _).
  eexists. split; [exact Hreact|].
  intros evs st2 Hrun.
  destruct (wedged_run evs _ _ Hwf1 Hi1 Hnone1 Hrun) as (Hwf2 & Hi2 & Hnone2 & Hp2 & _).
  split_and!.
  - done.
  - by apply executing_nil.
  - congruence.
  - intros (Hidle & _). congruence.
  - intros c o. by apply refresh_busy.
  - intros files. unfold addFilesToAssets. by rewrite Hi2.
Qed.

Lemma rejected_refresh_wedges_coordinator_witness :
  exists st1,
    react (Settle 0 false) refreshingAB = Some st1 /\
    forall evs st2, run evs st1 = Some st2 ->
      _isRefreshing st2 = true /\
      executing st2 = [] /\
      passes st2 = passes refreshingAB /\
      ~ Idle st2 /\
      (forall c o, refresh c o st2 = Some (set_needsRefresh true st2) /\
                   forceRefresh c st2 = Some (set_needsRefresh true st2)) /\
      (forall files, addFilesToAssets files st2 = Some (emit [busy_notice] st2)).
Proof.
  eapply (rejected_refresh_wedges_coordinator refreshingAB 0).
  - exact wf_refreshingAB.
  - reflexivity.
Defined.

(** C2 (failing input). A and B are mounted; [refresh()] calls A's
    [refresh], whose promise is rejected. The pass is over: B's [refresh]
    has not been called, and whatever happens afterwards it never is. *)
Theorem rejected_refresh_aborts_pass :
  mounted registryAB = [0; 1] /\
  run [Call_refresh None JsUndefined; Settle 0 false] (initial registryAB)
  = Some rejectedAB /\
  refreshed (log rejectedAB) = [0] /\
  activations rejectedAB = [Rejected] /\
  forall evs st, run evs rejectedAB = Some st -> refreshed (log st) = [0].
Proof.
  assert (Hrejected : settle 0 Rejected refreshingAB = rejectedAB)
    by (vm_compute; reflexivity).
  split_and!; [by vm_compute..|].
  intros evs st Hrun.
  destruct (reject_wedges refreshingAB 0 _ wf_refreshingAB eq_refl)
    as (_ & Hwf1 & Hi1 & Hnone1 & _).
  rewrite Hrejected in Hwf1, Hi1, Hnone1.
  destruct (wedged_run evs _ _ Hwf1 Hi1 Hnone1 Hrun) as (_ & _ & _ & _ & Hlog).
  rewrite Hlog. by vm_compute.
Qed.

(** When the promise is fulfilled, the observer of the pass is removed
    before anything else happens. *)
Lemma fulfilled_refresh_removes_observer st tid f :
  wf st -> activations st !! tid = Some (AwaitRefresh f) ->
  exists st1 component r,
    after_refresh f st = Some st1 /\
    instance (rf_index f) st1 = Some (component, r) /\
    Forall (fun o => obs_id o <> rf_observer f) (updateAssetObservable r).
Proof.
  intros Hwf Ht.
  destruct (after_refresh_spec tid f st Hwf Ht)
    as (st1 & Hafter & Hmid & _ & _ & _ & Hshape & _ & _ & Hobs).
  destruct (wf_frames _ Hwf _ _ Ht) as [Hm _].
  apply (shape_mounted _ _ _ Hshape) in Hm as [[component r] Hinst].
  exists st1, component, r. split_and!; [done|done|].
  by destruct (Hobs _ _ Hinst) as [? _].
Qed.

(** C8 (failing input). A and B are mounted; [refresh()] subscribes
    observer 0 to A and calls A's [refresh], whose promise is rejected: no
    [remove] is ever called, observer 0 stays subscribed to A, and a later
    notification of A still reaches it (it reports progress on task 0). *)
Theorem rejected_refresh_leaves_observer :
  exists component r o st,
    instance 0 rejectedAB = Some (component, r) /\
    updateAssetObservable r = [o] /\ obs_id o = 0 /\
    log rejectedAB
    = [AddTaskFeedback 0 (Fin 0) "Updating assets" (Some 0);
       ObservableAdd 0 0; HandlerRefresh 0 JsUndefined] /\
    react (Handler_notifies 0) rejectedAB = Some st /\
    exists label, log st = log rejectedAB ++ [UpdateTaskFeedback (Some 0) (Fin 25) label].
Proof. vm_compute. eexists _, _, _, _. split_and!; try reflexivity. by eexists. Qed.

(** ** Order of a pass *)

Lemma started_ext st0 st0' st1 f :
  _assetComponents st0' = _assetComponents st0 ->
  refreshed (log st0') = refreshed (log st0) ->
  started st0' st1 f -> started st0 st1 f.
Proof.
  intros Hreg Hlog (j & rest & Hsel & Hj & Hrem & Hl & Hshape).
  exists j, rest. rewrite Hreg in Hsel, Hshape. rewrite Hlog in Hl. done.
Qed.

Lemma refreshAllAssets_started tid a c o fo st st1 tid' f :
  wf st -> _isRefreshing st = false -> tid <= length (activations st) ->
  _refreshAllAssets tid a c o fo st = Some st1 ->
  activations st1 !! tid' = Some (AwaitRefresh f) ->
  started st st1 f.
Proof.
  intros Hwf Hi Hle Hcall Hf.
  destruct (wf_idle st Hwf Hi) as (_ & Hneeds & _).
  destruct (start_spec 1 tid a c o fo st)
    as (st2 & Hst2 & Hwf1 & Hshape1 & Hpass1 & Hothers1 & Hneeds1 & Hsel);
    [by apply mid_of_idle|done|done|].
  assert (st2 = st1) as -> by (unfold _refreshAllAssets in Hcall; congruence).
  assert (Hold : forall t a0, activations st !! t = Some a0 -> is_pass a0 = false).
  { intros t a0 Ht. destruct (is_pass a0) eqn:Hp; [|done].
    by rewrite (wf_guard _ Hwf _ _ Ht Hp) in Hi. }
  destruct (selected c (_assetComponents st) 0) as [|j rest] eqn:Hs.
  - destruct Hsel as (_ & _ & Hacts). rewrite Hacts in Hf.
    apply list_lookup_insert_Some in Hf as [(_ & ? & _)|[_ Hf]]; [done|].
    by specialize (Hold _ _ Hf).
  - destruct Hsel as ((f0 & Ht0 & Hp0 & Hj0) & Hi0 & Hlog0).
    assert (tid' = tid) as -> by (by eapply (wf_one_pass _ Hwf1)).
    assert (f0 = f) as -> by congruence.
    destruct (prologue_pass a c o fo st) as (Hc & _).
    exists j, rest. rewrite Hp0, Hc. split_and!; try done.
    unfold remaining. rewrite Hp0, Hj0, Hc.
    rewrite (selected_shape _ (drop (S j) (_assetComponents st)))
      by (by rewrite !fmap_drop, Hshape1).
    apply selected_cons in Hs as [_ ->]. by rewrite Nat.sub_0_r.
Qed.

Lemma drop_files_started tid files taskFeedBack components l i st st1 tid' f :
  wf st -> _isRefreshing st = false -> tid <= length (activations st) ->
  drop_files tid files taskFeedBack components l i st = Some st1 ->
  activations st1 !! tid' = Some (AwaitRefresh f) ->
  started st st1 f.
Proof.
  revert i st. induction l as [|c l IH]; intros i st Hwf Hi Hle; simpl.
  - intros Hcall Hf.
    apply (started_ext st (emit [CloseTaskFeedback (Some taskFeedBack) None] st));
      [done|simpl; by rewrite refreshed_app, app_nil_r|].
    by eapply refreshAllAssets_started; [apply wf_emit| | | |].
  - destruct (instance c st) as [[c0 r]|]; [|done].
    destruct (onDropFiles r).
    + intros [= <-] Hf. exfalso.
      destruct (decide (tid' = tid)) as [->|Hne].
      * by rewrite lookup_suspend_eq in Hf.
      * rewrite lookup_suspend_ne in Hf by done. simpl in Hf.
        by rewrite (wf_guard _ Hwf _ _ Hf eq_refl) in Hi.
    + intros Hcall Hf. set (st2 := emit _ st) in Hcall.
      apply (started_ext st st2); [done|simpl; by rewrite refreshed_app, app_nil_r|].
      apply (IH (S i) st2); [by apply wf_emit|done|done|done|done].
Qed.

(** However a pass is started, it starts at the first descriptor it
    selects. *)
Lemma pass_start ev st0 st1 tid f :
  wf st0 -> react ev st0 = Some st1 -> passes st1 = S (passes st0) ->
  activations st1 !! tid = Some (AwaitRefresh f) ->
  started st0 st1 f.
Proof.
  intros Hwf Hreact Hpass Hf.
  assert (Hsame : passes st1 = passes st0 -> started st0 st1 f) by lia.
  assert (Hcall : forall c o fo,
            _refreshAllAssets (length (activations st0)) ByCaller c o fo st0 = Some st1 ->
            started st0 st1 f).
  { intros c o fo Hc. destruct (_isRefreshing st0) eqn:Hi.
    - rewrite refreshAllAssets_busy in Hc by done. injection Hc as <-.
      apply Hsame. done.
    - by eapply refreshAllAssets_started. }
  destruct ev as [c o|c|files|t ok|k|k l]; simpl in Hreact.
  - by eapply Hcall.
  - by eapply Hcall.
  - unfold addFilesToAssets in Hreact. destruct (_isRefreshing st0) eqn:Hi.
    + injection Hreact as <-. by apply Hsame.
    + simpl in Hreact. set (st2 := emit _ _) in Hreact.
      apply (started_ext st0 st2); [done|simpl; by rewrite refreshed_app, app_nil_r|].
      eapply drop_files_started; [|done| |exact Hreact|exact Hf].
      * apply wf_emit. apply (wf_update st0); try done.
        apply (valid_observers_ext st0); [done|done|by apply wf_observers].
      * done.
  - destruct (activations st0 !! t) as [[g|g| |]|] eqn:Hg; try done.
    + destruct ok; [|injection Hreact as <-; by apply Hsame].
      destruct (resume_refresh_spec t g st0 Hwf Hg)
        as (st2 & Hst2 & Hwf1 & Hshape1 & Hothers1 & Hcase).
      assert (st2 = st1) as -> by congruence.
      destruct (remaining g st0) as [|j rest] eqn:Hrem.
      * destruct Hcase as [Hn1 Hcase]. destruct (_needsRefresh st0).
        -- destruct Hcase as (_ & _ & p & j & Hplain & _ & Hhead & (f0 & Ht0 & Hp0 & Hj0) & Hlog).
           assert (tid = t) as -> by (by eapply (wf_one_pass _ Hwf1)).
           assert (f0 = f) as -> by congruence.
           destruct Hplain as (Hc & _ & _).
           unfold mounted in Hhead. rewrite <- selected_None_mounted in Hhead.
           destruct (selected None (_assetComponents st0) 0) as [|j' rest'] eqn:Hsel;
             [done|]. injection Hhead as ->.
           exists j, rest'. rewrite Hp0, Hc. split_and!; try done.
           unfold remaining. rewrite Hp0, Hj0, Hc.
           rewrite (selected_shape _ (drop (S j) (_assetComponents st0)))
             by (by rewrite !fmap_drop, Hshape1).
           apply selected_cons in Hsel as [_ ->]. by rewrite Nat.sub_0_r.
        -- apply Hsame. by destruct Hcase as (? & _).
      * apply Hsame. by destruct Hcase as (_ & _ & _ & ? & _).
    + destruct ok; [|injection Hreact as <-; by apply Hsame].
      unfold resume_drop in Hreact. destruct (_isRefreshing st0) eqn:Hi.
      * apply Hsame.
        apply drop_files_in_flight in Hreact as (_ & _ & _ & _ & Hstore & _);
          [|done|simpl; apply lookup_lt_Some in Hg; lia].
        unfold passes. by rewrite Hstore.
      * set (st2 := emit _ st0) in Hreact.
        apply (started_ext st0 st2); [done|simpl; by rewrite refreshed_app, app_nil_r|].
        eapply drop_files_started; [|done| |exact Hreact|exact Hf].
        -- by apply wf_emit.
        -- simpl. apply lookup_lt_Some in Hg. lia.
  - apply Hsame.
    destruct (handler_step (Handler_notifies k) st0 Hwf) as (st2 & Hst2 & _ & _ & _ & _ & _ & Hp & _).
    + simpl. unfold is_mounted. destruct (instance k st0); [by eexists|done].
    + simpl in Hst2. assert (st2 = st1) as -> by congruence. done.
  - apply Hsame.
    destruct (handler_step (Handler_items k l) st0 Hwf) as (st2 & Hst2 & _ & _ & _ & _ & _ & Hp & _).
    + simpl. unfold is_mounted. destruct (instance k st0); [by eexists|done].
    + simpl in Hst2. assert (st2 = st1) as -> by congruence. done.
Qed.




(** ** Progress reported by [addFilesToAssets] *)

Lemma amounts_app t l l' : amounts t (l ++ l') = amounts t l ++ amounts t l'.
Proof.
  induction l as [|e l IH]; simpl; [done|].
  destruct e as [| [t'|] ? ?| | | | | | |]; simpl; rewrite ?IH; try done.
  by destruct (Nat.eqb t' t).
Qed.

(** *** Rounding *)

Lemma rne_spec n d : (0 < d)%Z -> (2 * Z.abs (rne n d * d - n) <= d)%Z.
Proof.
  intros Hd. unfold rne.
  pose proof (Z.div_mod n d ltac:(lia)) as Hdm.
  pose proof (Z.mod_pos_bound n d Hd) as Hr.
  set (q := (n / d)%Z) in *. set (r := (n mod d)%Z) in *.
  destruct (Z.compare_spec (2 * r) d) as [He|Hl|Hg]; [destruct (Z.even q)| |]; nia.
Qed.

Lemma rne_Q_spec x :
  (inject_Z (rne_Q x) - (1 # 2) <= x /\ x <= inject_Z (rne_Q x) + (1 # 2))%Q.
Proof.
  unfold rne_Q. destruct x as [a b]. simpl.
  pose proof (rne_spec a (Zpos b) ltac:(lia)) as H.
  set (m := rne a (Z.pos b)) in *.
  unfold Qle, Qminus, Qplus, Qopp, inject_Z. simpl. split; lia.
Qed.

Lemma rne_Q_int x z : (x == inject_Z z)%Q -> rne_Q x = z.
Proof.
  intros Hx. destruct (rne_Q_spec x) as [H1 H2].
  set (m := rne_Q x) in *.
  assert (Hlo : (inject_Z m < inject_Z (z + 1))%Q).
  { rewrite inject_Z_plus. change (inject_Z 1) with 1%Q. lra. }
  assert (Hhi : (inject_Z z < inject_Z (m + 1))%Q).
  { rewrite inject_Z_plus. change (inject_Z 1) with 1%Q. lra. }
  rewrite <- Zlt_Qlt in Hlo, Hhi. lia.
Qed.

Lemma Qpower2_pos e : (0 < 2 ^ e)%Q.
Proof. by apply Qpower_0_lt. Qed.

Lemma Qpower2_succ e : (2 ^ (e + 1) == 2 * 2 ^ e)%Q.
Proof. rewrite Qpower_plus by done. change (2 ^ 1)%Q with 2%Q. lra. Qed.

Lemma Qpower2_inject n : (0 <= n)%Z -> (2 ^ n == inject_Z (2 ^ n))%Q.
Proof. intros Hn. symmetry. by apply (Zpower_Qpower 2). Qed.

Lemma Qdiv_lt_cross a b c d :
  (0 < b -> 0 < d -> a * d < c * b -> a / b < c / d)%Q.
Proof.
  intros Hb Hd H. apply Qlt_shift_div_r; [done|].
  assert (E : (c / d * b == c * b / d)%Q) by (field; lra).
  rewrite E. by apply Qlt_shift_div_l.
Qed.

Lemma Qdiv_le_cross a b c d :
  (0 < b -> 0 < d -> a * d <= c * b -> a / b <= c / d)%Q.
Proof.
  intros Hb Hd H. apply Qle_shift_div_r; [done|].
  assert (E : (c / d * b == c * b / d)%Q) by (field; lra).
  rewrite E. by apply Qle_shift_div_l.
Qed.

Lemma floor_log2_spec x :
  (0 < x)%Q -> (2 ^ floor_log2 x <= x /\ x < 2 ^ (floor_log2 x + 1))%Q.
Proof.
  intros Hx. destruct x as [a b].
  assert (Ha : (0 < a)%Z) by (unfold Qlt in Hx; simpl in Hx; lia).
  unfold floor_log2. simpl Qnum. simpl Qden.
  pose proof (Z.log2_spec a Ha) as [Ha1 Ha2].
  pose proof (Z.log2_spec (Zpos b) ltac:(lia)) as [Hb1 Hb2].
  pose proof (Z.log2_nonneg a) as Hla. pose proof (Z.log2_nonneg (Zpos b)) as Hlb.
  set (la := Z.log2 a) in *. set (lb := Z.log2 (Z.pos b)) in *.
  rewrite Z.pow_succ_r in Ha2, Hb2 by done.
  rewrite Zle_Qle in Ha1, Hb1. rewrite Zlt_Qlt in Ha2, Hb2.
  rewrite inject_Z_mult in Ha2, Hb2.
  rewrite <- (Qpower2_inject la) in Ha1, Ha2 by done.
  rewrite <- (Qpower2_inject lb) in Hb1, Hb2 by done.
  change (inject_Z 2) with 2%Q in Ha2, Hb2.
  pose proof (Qpower2_pos la) as Hpa. pose proof (Qpower2_pos lb) as Hpb.
  assert (Hdiv : (2 ^ (la - lb) == 2 ^ la / 2 ^ lb)%Q) by (by apply Qpower_minus).
  assert (Hx' : (a # b == inject_Z a / inject_Z (Z.pos b))%Q) by apply Qmake_Qdiv.
  set (A := inject_Z a) in *. set (B := inject_Z (Z.pos b)) in *.
  set (PA := (2 ^ la)%Q) in *. set (PB := (2 ^ lb)%Q) in *.
  assert (HB : (0 < B)%Q) by lra.
  destruct (Qle_bool (2 ^ (la - lb)) (a # b)) eqn:Ht.
  - apply Qle_bool_iff in Ht. split; [done|].
    rewrite Qpower2_succ, Hdiv, Hx'.
    assert (E : (2 * (PA / PB) == (2 * PA) / PB)%Q) by (field; lra).
    rewrite E. apply Qdiv_lt_cross; [done|done|]. nra.
  - assert (Hlt : (a # b < 2 ^ (la - lb))%Q).
    { apply Qnot_le_lt. intros H. apply Qle_bool_iff in H. congruence. }
    replace (la - lb - 1 + 1)%Z with (la - lb)%Z by lia. split; [|done].
    assert (E : (2 ^ (la - lb - 1) == PA / (2 * PB))%Q).
    { rewrite Qpower_minus by done. rewrite Hdiv. change (2 ^ 1)%Q with 2%Q.
      field. lra. }
    rewrite E, Hx'. apply Qdiv_le_cross; [lra|done|]. nra.
Qed.

Lemma binary64_pos_error x :
  (1 <= x)%Q -> (x <= 2 ^ 64)%Q ->
  exists q, binary64_pos x = Fin q /\
    (x * (1 - epsilon) <= q /\ q <= x * (1 + epsilon))%Q.
Proof.
  intros H1 H2. destruct (floor_log2_spec x ltac:(lra)) as [He1 He2].
  set (e := floor_log2 x) in *.
  assert (He : (0 <= e <= 64)%Z).
  { split.
    - assert (H : (2 ^ 0 < 2 ^ (e + 1))%Q) by (change (2 ^ 0)%Q with 1%Q; lra).
      apply (Qpower_lt_compat_l_inv 2 0 (e + 1)) in H; [lia|lra].
    - assert (H : (2 ^ e <= 2 ^ 64)%Q) by lra.
      apply (Qpower_le_compat_l_inv 2 e 64) in H; [lia|lra]. }
  unfold binary64_pos. fold e. replace (Z.max e (-1022) - 52)%Z with (e - 52)%Z by lia.
  set (k := (e - 52)%Z). set (y := (x / 2 ^ k)%Q).
  destruct (rne_Q_spec y) as [Hy1 Hy2]. set (m := rne_Q y) in *.
  pose proof (Qpower2_pos k) as Hk.
  assert (Hyx : (y * 2 ^ k == x)%Q) by (unfold y; field; lra).
  assert (Hke : (2 ^ e == 2 ^ k * 4503599627370496)%Q).
  { replace e with (k + 52)%Z at 1 by lia. by rewrite Qpower_plus. }
  rewrite Qpower2_succ, Hke in He2. rewrite Hke in He1.
  set (K := (2 ^ k)%Q) in *.
  assert (Hy52 : (4503599627370496 <= y)%Q) by nra.
  assert (Hy53 : (y < 9007199254740992)%Q) by nra.
  assert (Hm : (0 < m <= 9007199254740992)%Z).
  { split.
    - rewrite Zlt_Qlt. change (inject_Z 0) with 0%Q. lra.
    - assert (H : (inject_Z m < inject_Z (9007199254740992 + 1))%Q).
      { change (inject_Z (9007199254740992 + 1)) with 9007199254740993%Q. lra. }
      rewrite <- Zlt_Qlt in H. lia. }
  assert (Hlog : (Z.log2 m < 54)%Z).
  { apply Z.log2_lt_pow2; [lia|]. change (2 ^ 54)%Z with 18014398509481984%Z. lia. }
  assert ((1024 <=? Z.log2 m + k)%Z = false) as -> by (apply Z.leb_gt; lia).
  eexists. split; [done|]. rewrite Qred_correct. unfold epsilon.
  set (M := inject_Z m) in *.
  assert (Hlo : (0 <= (M - y + (1 # 2)) * K)%Q) by (apply Qmult_le_0_compat; lra).
  assert (Hhi : (0 <= (y - M + (1 # 2)) * K)%Q) by (apply Qmult_le_0_compat; lra).
  split; lra.
Qed.

Lemma binary64_Qeq x x' : (x == x')%Q -> binary64 x = binary64 x'.
Proof. intros H. unfold binary64. by rewrite (Qred_complete _ _ H). Qed.

Lemma binary64_error x :
  (1 <= x)%Q -> (x <= 2 ^ 64)%Q ->
  exists q, binary64 x = Fin q /\
    (x * (1 - epsilon) <= q /\ q <= x * (1 + epsilon))%Q.
Proof.
  intros H1 H2. unfold binary64.
  pose proof (Qred_correct x) as Hr. set (x' := Qred x) in *.
  assert ((x' ?= 0)%Q = Gt) as -> by (apply Qgt_alt; lra).
  destruct (binary64_pos_error x') as (q & -> & Hq); [lra|lra|].
  exists q. split; [done|]. unfold epsilon in *. lra.
Qed.

Lemma binary64_exact n :
  (1 <= n < 2 ^ 53)%Z ->
  exists q, binary64 (inject_Z n) = Fin q /\ (q == inject_Z n)%Q.
Proof.
  intros Hn. unfold binary64.
  pose proof (Qred_correct (inject_Z n)) as Hr. set (x := Qred (inject_Z n)) in *.
  assert (Hx1 : (1 <= x)%Q).
  { rewrite Hr. change 1%Q with (inject_Z 1). rewrite <- Zle_Qle. lia. }
  assert (Hx2 : (x < 2 ^ 53)%Q).
  { rewrite Hr, (Qpower2_inject 53) by lia. rewrite <- Zlt_Qlt. lia. }
  assert ((x ?= 0)%Q = Gt) as -> by (apply Qgt_alt; lra).
  destruct (floor_log2_spec x ltac:(lra)) as [He1 He2].
  unfold binary64_pos. set (e := floor_log2 x) in *.
  assert (He : (0 <= e <= 52)%Z).
  { split.
    - assert (H : (2 ^ 0 < 2 ^ (e + 1))%Q) by (change (2 ^ 0)%Q with 1%Q; lra).
      apply (Qpower_lt_compat_l_inv 2 0 (e + 1)) in H; [lia|lra].
    - assert (H : (2 ^ e < 2 ^ 53)%Q) by lra.
      apply (Qpower_lt_compat_l_inv 2 e 53) in H; [lia|lra]. }
  replace (Z.max e (-1022) - 52)%Z with (- (52 - e))%Z by lia.
  set (d := (52 - e)%Z).
  assert (Hd : (2 ^ (- d) == / inject_Z (2 ^ d))%Q).
  { rewrite Qpower_opp, (Qpower2_inject d) by lia. done. }
  assert (Hpd : (0 < inject_Z (2 ^ d))%Q).
  { rewrite <- (Qpower2_inject d) by lia. apply Qpower2_pos. }
  assert (Hm : rne_Q (x / 2 ^ (- d)) = (n * 2 ^ d)%Z).
  { apply rne_Q_int. rewrite Hd, Hr, inject_Z_mult. field. lra. }
  rewrite Hm.
  assert (Hep : (2 ^ e * inject_Z (2 ^ d) == 4503599627370496)%Q).
  { rewrite <- (Qpower2_inject d) by lia. rewrite <- Qpower_plus by done.
    by replace (e + d)%Z with 52%Z by lia. }
  assert (Hbound : (0 < n * 2 ^ d < 2 ^ 53)%Z).
  { assert (H : (inject_Z (n * 2 ^ d) < inject_Z (2 ^ 53))%Q).
    { rewrite inject_Z_mult, <- Hr. rewrite Qpower2_succ in He2.
      change (inject_Z (2 ^ 53)) with 9007199254740992%Q.
      set (P := inject_Z (2 ^ d)) in *. set (E := (2 ^ e)%Q) in *. nra. }
    rewrite <- Zlt_Qlt in H. split; [|done].
    apply Z.mul_pos_pos; [lia|]. apply Z.pow_pos_nonneg; lia. }
  assert (Hlog : (Z.log2 (n * 2 ^ d) < 53)%Z) by (apply Z.log2_lt_pow2; lia).
  assert ((1024 <=? Z.log2 (n * 2 ^ d) + - d)%Z = false) as -> by (apply Z.leb_gt; lia).
  eexists. split; [done|].
  rewrite Qred_correct, Hd, inject_Z_mult. field. lra.
Qed.

(** *** The values [length / i * 100] *)

Lemma js_of_nat_exact n :
  1 <= n -> (Z.of_nat n < 2 ^ 53)%Z ->
  exists q, js_of_nat n = Fin q /\ (q == inject_Z (Z.of_nat n))%Q.
Proof. intros H1 H2. apply binary64_exact. lia. Qed.

Lemma drop_progress_zero n :
  1 <= n -> (Z.of_nat n < 2 ^ 53)%Z -> drop_progress n 0 = PosInf.
Proof.
  intros H1 H2. unfold drop_progress.
  destruct (js_of_nat_exact n H1 H2) as (q & -> & Hq).
  change (js_of_nat 0) with (Fin 0). simpl.
  assert ((q ?= 0)%Q = Gt) as ->; [|done].
  apply Qgt_alt. rewrite Hq. change 0%Q with (inject_Z 0). rewrite <- Zlt_Qlt. lia.
Qed.

Lemma drop_progress_value n i :
  1 <= i <= n -> (Z.of_nat n < 2 ^ 32)%Z ->
  exists s, drop_progress n i = Fin s /\
    let x := (inject_Z (Z.of_nat n) / inject_Z (Z.of_nat i))%Q in
    (x * 100 * ((1 - epsilon) * (1 - epsilon)) <= s /\
     s <= x * 100 * ((1 + epsilon) * (1 + epsilon)))%Q.
Proof.
  intros Hi Hn. unfold drop_progress.
  destruct (js_of_nat_exact n) as (qn & -> & Hqn); [lia|lia|].
  destruct (js_of_nat_exact i) as (qi & -> & Hqi); [lia|lia|].
  set (N := inject_Z (Z.of_nat n)) in *. set (I := inject_Z (Z.of_nat i)) in *.
  assert (HI : (1 <= I)%Q).
  { unfold I. change 1%Q with (inject_Z 1). rewrite <- Zle_Qle. lia. }
  assert (HIN : (I <= N)%Q) by (unfold I, N; rewrite <- Zle_Qle; lia).
  assert (HN : (N < 4294967296)%Q).
  { unfold N. change 4294967296%Q with (inject_Z (2 ^ 32)). rewrite <- Zlt_Qlt. lia. }
  simpl.
  assert (Qeq_bool qi 0 = false) as ->.
  { apply not_true_is_false. intros H. apply Qeq_bool_iff in H. lra. }
  assert (Hx1 : (1 <= N / I)%Q) by (apply Qle_shift_div_l; lra).
  assert (Hx2 : (N / I <= N)%Q) by (apply Qle_shift_div_r; [lra|nra]).
  rewrite (binary64_Qeq (qn / qi) (N / I)) by (by rewrite Hqn, Hqi).
  destruct (binary64_error (N / I)) as (r & -> & Hr1 & Hr2).
  { done. }
  { change (2 ^ 64)%Q with 18446744073709551616%Q. lra. }
  set (x := (N / I)%Q) in *. unfold epsilon in *.
  change (js_mul (Fin r) (Fin 100)) with (binary64 (r * 100)).
  destruct (binary64_error (r * 100)) as (s & -> & Hs1 & Hs2).
  { lra. }
  { change (2 ^ 64)%Q with 18446744073709551616%Q. lra. }
  exists s. split; [done|]. unfold epsilon in *. split; nra.
Qed.

Lemma drop_progress_decreases n i j :
  1 <= i -> i < j -> j <= n -> (Z.of_nat n < 2 ^ 32)%Z ->
  js_lt (drop_progress n j) (drop_progress n i).
Proof.
  intros Hi Hij Hj Hn.
  destruct (drop_progress_value n i) as (si & -> & Hi1 & _); [lia|done|].
  destruct (drop_progress_value n j) as (sj & -> & _ & Hj2); [lia|done|].
  simpl in *.
  set (N := inject_Z (Z.of_nat n)) in *.
  set (I := inject_Z (Z.of_nat i)) in *. set (J := inject_Z (Z.of_nat j)) in *.
  assert (HI : (1 <= I)%Q).
  { unfold I. change 1%Q with (inject_Z 1). rewrite <- Zle_Qle. lia. }
  assert (HJ : (I + 1 <= J)%Q).
  { unfold I, J. change 1%Q with (inject_Z 1). rewrite <- inject_Z_plus, <- Zle_Qle. lia. }
  assert (HN : (J <= N)%Q) by (unfold J, N; rewrite <- Zle_Qle; lia).
  assert (HN2 : (N < 4294967296)%Q).
  { unfold N. change 4294967296%Q with (inject_Z (2 ^ 32)). rewrite <- Zlt_Qlt. lia. }
  unfold epsilon in *.
  assert (Hcross : (N / J * 100 * ((1 + (1 # 9007199254740992)) * (1 + (1 # 9007199254740992)))
                    < N / I * 100 * ((1 - (1 # 9007199254740992)) * (1 - (1 # 9007199254740992))))%Q).
  { set (c1 := ((1 + (1 # 9007199254740992)) * (1 + (1 # 9007199254740992)))%Q).
    set (c2 := ((1 - (1 # 9007199254740992)) * (1 - (1 # 9007199254740992)))%Q).
    assert (E1 : (N / J * 100 * c1 == (N * 100 * c1) / J)%Q) by (field; lra).
    assert (E2 : (N / I * 100 * c2 == (N * 100 * c2) / I)%Q) by (field; lra).
    rewrite E1, E2. apply Qdiv_lt_cross; [lra|lra|].
    assert (Hc : (c1 * I < c2 * J)%Q) by (unfold c1, c2; lra).
    assert (H100N : (0 < N * 100)%Q) by lra.
    assert (E3 : (N * 100 * c1 * I == N * 100 * (c1 * I))%Q) by ring.
    assert (E4 : (N * 100 * c2 * J == N * 100 * (c2 * J))%Q) by ring.
    rewrite E3, E4. by apply Qmult_lt_l. }
  lra.
Qed.

Lemma drop_progress_above_100 n i :
  1 <= i -> i < n -> (Z.of_nat n < 2 ^ 32)%Z -> js_lt (Fin 100) (drop_progress n i).
Proof.
  intros Hi Hin Hn.
  destruct (drop_progress_value n i) as (si & -> & Hi1 & _); [lia|done|].
  simpl in *.
  set (N := inject_Z (Z.of_nat n)) in *. set (I := inject_Z (Z.of_nat i)) in *.
  assert (HI : (1 <= I)%Q).
  { unfold I. change 1%Q with (inject_Z 1). rewrite <- Zle_Qle. lia. }
  assert (HIN : (I + 1 <= N)%Q).
  { unfold I, N. change 1%Q with (inject_Z 1). rewrite <- inject_Z_plus, <- Zle_Qle. lia. }
  assert (HN2 : (N < 4294967296)%Q).
  { unfold N. change 4294967296%Q with (inject_Z (2 ^ 32)). rewrite <- Zlt_Qlt. lia. }
  unfold epsilon in *.
  set (c2 := ((1 - (1 # 9007199254740992)) * (1 - (1 # 9007199254740992)))%Q) in *.
  assert (Hx : ((I + 1) / I <= N / I)%Q).
  { apply Qdiv_le_cross; [lra|lra|]. nra. }
  assert (E : ((I + 1) / I == 1 + 1 / I)%Q) by (field; lra).
  assert (HinvI : ((1 # 4294967296) <= 1 / I)%Q).
  { apply Qle_shift_div_l; lra. }
  assert (Hc : (1 < (1 + (1 # 4294967296)) * c2)%Q) by (unfold c2; lra).
  set (x := (N / I)%Q) in *. set (t := (1 / I)%Q) in *.
  assert (Hc2 : (0 < c2)%Q) by (unfold c2; lra).
  assert (Hxc : ((1 + (1 # 4294967296)) * c2 <= x * c2)%Q).
  { apply Qmult_le_compat_r; lra. }
  lra.
Qed.

Lemma has_hook_ext st st' k :
  _assetComponents st' = _assetComponents st -> has_hook st' k = has_hook st k.
Proof. intros Hc. unfold has_hook. by rewrite (instance_ext _ _ _ Hc). Qed.

Lemma hooks_ext st st' l :
  _assetComponents st' = _assetComponents st -> hooks st' l = hooks st l.
Proof.
  intros Hc. unfold hooks. f_equal. induction l as [|k l IH]; simpl; [done|].
  by rewrite (has_hook_ext _ _ _ Hc), IH.
Qed.

(** Starting a pass reports no progress. *)
Lemma refreshAllAssets_amounts t tid a c o fo st st' :
  wf st -> _isRefreshing st = false ->
  _refreshAllAssets tid a c o fo st = Some st' ->
  amounts t (log st') = amounts t (log st).
Proof.
  intros Hwf Hi. destruct (wf_idle st Hwf Hi) as (_ & Hn & _).
  unfold _refreshAllAssets. simpl. unfold refreshAllAssets_body. rewrite Hi.
  assert (Hpro : amounts t (log (prologue a c o fo st).2) = amounts t (log st)).
  { unfold prologue. destruct (negb (truthy o)); simpl; [|done].
    by rewrite amounts_app, app_nil_r. }
  destruct (prologue_state a c o fo st) as (_ & _ & _ & Hn1 & _).
  destruct (prologue a c o fo st) as [p st1]. simpl in Hpro, Hn1.
  unfold for_of. destruct (next_component _ _ _) as [[[j component] r]|].
  - intros [= <-]. rewrite visit_log, amounts_app. simpl. by rewrite app_nil_r.
  - assert (Hepi : amounts t (log (epilogue p st1)) = amounts t (log st1)).
    { unfold epilogue. destruct (negb (truthy (object p))); simpl; [|done].
      by rewrite amounts_app, app_nil_r. }
    destruct (epilogue_state p st1) as (_ & _ & _ & Hn2 & _).
    rewrite Hn2, Hn1, Hn. intros [= <-].
    unfold fulfil. destruct (awaiter p).
    + change (amounts t (log (epilogue p st1)) = amounts t (log st)). congruence.
    + change (amounts t (log (epilogue p st1) ++ [InspectorRefresh])
              = amounts t (log st)).
      rewrite amounts_app, Hepi, Hpro. simpl. by rewrite app_nil_r.
Qed.

Lemma amounts_emit_update t v st :
  amounts t (log (emit [UpdateTaskFeedback (Some t) v None] st))
  = amounts t (log st) ++ [v].
Proof. simpl. rewrite amounts_app. simpl. by rewrite Nat.eqb_refl. Qed.

Lemma drop_files_run tid files taskFeedBack components : forall l i st st0,
  wf st -> _isRefreshing st = false ->
  tid <= length (activations st) ->
  (forall a', activations st !! tid = Some a' -> is_pass a' = false) ->
  Forall (fun k => is_mounted k st) components ->
  drop i components = l ->
  drop_files tid files taskFeedBack components l i st = Some st0 ->
  exists st',
    run (replicate (hooks st l) (Settle tid true)) st0 = Some st' /\
    amounts taskFeedBack (log st')
    = amounts taskFeedBack (log st)
      ++ (drop_progress (length components) <$> seq i (length l)).
Proof.
  induction l as [|c l IH]; intros i st st0 Hwf Hi Hle Hslot Hcs Hdrop; simpl.
  - intros Hcall. exists st0. split; [done|].
    rewrite (refreshAllAssets_amounts _ _ _ _ _ _ _ _ (wf_emit _ _ Hwf) Hi Hcall).
    simpl. by rewrite amounts_app.
  - assert (Hci : components !! i = Some c).
    { rewrite <- (Nat.add_0_r i), <- lookup_drop. by rewrite Hdrop. }
    assert (Hl : drop (S i) components = l).
    { pose proof (drop_S _ _ _ Hci) as H. rewrite Hdrop in H. by injection H. }
    assert (Hc : is_mounted c st).
    { eapply Forall_forall in Hcs; [done|]. by eapply list_elem_of_lookup_2. }
    destruct Hc as [[c0 r] Hc].
    assert (Hhooks : hooks st (c :: l)
                     = if onDropFiles r then S (hooks st l) else hooks st l).
    { unfold hooks. simpl. unfold has_hook at 1. rewrite Hc.
      by destruct (onDropFiles r). }
    rewrite Hhooks, Hc. destruct (onDropFiles r) eqn:Hhook.
    + intros [= <-].
      set (fr := {| df_files := files; df_taskFeedBack := taskFeedBack;
                    df_components := components; df_i := i |}).
      set (st1 := suspend tid (AwaitOnDropFiles fr)
                    (emit [HandlerOnDropFiles c files] st)).
      assert (Hwf1 : wf st1).
      { apply wf_suspend; [by apply wf_emit|done|done|done]. }
      assert (Ht1 : activations st1 !! tid = Some (AwaitOnDropFiles fr)).
      { unfold st1. by rewrite lookup_suspend_eq. }
      set (st2 := emit [UpdateTaskFeedback (Some taskFeedBack)
                          (drop_progress (length components) i) None] st1).
      assert (Hreact : react (Settle tid true) st1
                       = drop_files tid files taskFeedBack components l (S i) st2).
      { unfold react. rewrite Ht1. unfold resume_drop, st2, fr.
        cbn [df_files df_taskFeedBack df_components df_i]. by rewrite Hl. }
      destruct (drop_files_wf tid files taskFeedBack components l (S i) st2)
        as (st3 & Hst3 & _); [by apply wf_emit| | |by rewrite <- Hl; apply Forall_drop|done|].
      { change (tid <= length (activations st1)).
        apply lookup_lt_Some in Ht1. lia. }
      { change (forall a', activations st1 !! tid = Some a' -> is_pass a' = false).
        intros a'. rewrite Ht1. by intros [= <-]. }
      destruct (IH (S i) st2 st3) as (st' & Hrun & Hamounts);
        [by apply wf_emit|done| | |done|done|done|].
      { change (tid <= length (activations st1)).
        apply lookup_lt_Some in Ht1. lia. }
      { change (forall a', activations st1 !! tid = Some a' -> is_pass a' = false).
        intros a'. rewrite Ht1. by intros [= <-]. }
      exists st'. split.
      * change (replicate (S (hooks st l)) (Settle tid true))
          with (Settle tid true :: replicate (hooks st l) (Settle tid true)).
        change (run (Settle tid true :: replicate (hooks st l) (Settle tid true)) st1)
          with (match react (Settle tid true) st1 with
                | Some s => run (replicate (hooks st l) (Settle tid true)) s
                | None => None
                end).
        rewrite Hreact, Hst3. by rewrite <- (hooks_ext st st2).
      * rewrite Hamounts. unfold st2. rewrite amounts_emit_update.
        unfold st1. simpl. rewrite amounts_app. simpl.
        by rewrite app_nil_r, <- app_assoc.
    + intros Hcall.
      set (st1 := emit _ st) in Hcall.
      destruct (IH (S i) st1 st0) as (st' & Hrun & Hamounts);
        [by apply wf_emit|done|done|done|done|done|done|].
      exists st'. split.
      * by rewrite <- (hooks_ext st st1).
      * rewrite Hamounts. unfold st1. rewrite amounts_emit_update.
        simpl. by rewrite <- app_assoc.
Qed.

Lemma mounted_is_mounted st :
  Forall (fun k => is_mounted k st) (mounted (_assetComponents st)).
Proof.
  unfold mounted, is_mounted, instance.
  assert (Hgen : forall l k, Forall (fun j => k <= j /\ exists c r,
            l !! (j - k) = Some c /\ _ref c = Some r) (mounted_from l k)).
  { induction l as [|c l IH]; intros k; simpl; [done|].
    assert (Hrest : Forall (fun j => k <= j /\ exists c0 r,
              (c :: l) !! (j - k) = Some c0 /\ _ref c0 = Some r)
              (mounted_from l (S k))).
    { eapply Forall_impl; [apply IH|]. simpl. intros j (Hj & c0 & r & Hl & Hr).
      split; [lia|]. exists c0, r. replace (j - k) with (S (j - S k)) by lia. done. }
    destruct (_ref c) as [r|] eqn:Hr; [|done].
    apply Forall_cons. split; [|done]. split; [lia|].
    exists c, r. by rewrite Nat.sub_diag. }
  eapply Forall_impl; [apply (Hgen _ 0)|]. simpl.
  intros j (_ & c & r & Hl & Hr). rewrite Nat.sub_0_r in Hl.
  by rewrite Hl, Hr.
Qed.

Lemma refreshAllAssets_amounts_any t tid a c o fo st st' :
  wf st -> _refreshAllAssets tid a c o fo st = Some st' ->
  amounts t (log st') = amounts t (log st).
Proof.
  intros Hwf. destruct (_isRefreshing st) eqn:Hi.
  - rewrite refreshAllAssets_busy by done. intros [= <-].
    unfold fulfil. destruct a; simpl; [done|].
    by rewrite amounts_app, app_nil_r.
  - by apply refreshAllAssets_amounts.
Qed.

Lemma leading_ext st st' l :
  _assetComponents st' = _assetComponents st -> leading st' l = leading st l.
Proof.
  intros Hc. induction l as [|k l IH]; simpl; [done|].
  by rewrite (has_hook_ext _ _ _ Hc), IH.
Qed.

(** What one run of the loop of lines 282-289 reports, from position [i]
    up to the next [await], in any state of the machine. *)
Lemma drop_files_amounts tid files taskFeedBack components : forall l i st st',
  wf st ->
  drop_files tid files taskFeedBack components l i st = Some st' ->
  amounts taskFeedBack (log st')
  = amounts taskFeedBack (log st)
    ++ (drop_progress (length components) <$> seq i (leading st l)).
Proof.
  induction l as [|c l IH]; intros i st st' Hwf; simpl.
  - intros Hcall.
    rewrite (refreshAllAssets_amounts_any _ _ _ _ _ _ _ _ (wf_emit _ _ Hwf) Hcall).
    simpl. by rewrite amounts_app, !app_nil_r.
  - unfold has_hook. destruct (instance c st) as [[c0 r]|] eqn:Hc; [|done].
    destruct (onDropFiles r) eqn:Hhook.
    + intros [= <-]. simpl. by rewrite amounts_app, !app_nil_r.
    + intros Hcall. set (st1 := emit _ st) in Hcall.
      rewrite (IH (S i) st1 st' (wf_emit _ _ Hwf) Hcall).
      unfold st1. rewrite amounts_emit_update, (leading_ext st) by done.
      simpl. by rewrite <- app_assoc.
Qed.

(** C10. With [n >= 1] mounted handlers ([n] the length of an array) and
    the guard open, every amount [addFilesToAssets] passes to
    [updateTaskFeedback] for its task is [n / i * 100], computed in
    binary64, for the position [i] it has just processed: this holds for
    the call itself and for each resumption after a fulfilled
    [onDropFiles], in whatever state of the machine the resumption finds;
    when its promises are fulfilled one after the other the amounts are
    those of [i = 0 .. n - 1], in order. The first amount is [Infinity] (a
    division by zero), every later one is smaller than the one before, all
    of them stay above 100, and each is [100 n / i] up to two roundings. *)
Theorem addFilesToAssets_progress files st :
  wf st -> _isRefreshing st = false ->
  let tid := length (activations st) in
  let handlers := mounted (_assetComponents st) in
  let n := length handlers in
  let amount := fun i => js_mul (js_div (js_of_nat n) (js_of_nat i)) (Fin 100) in
  1 <= n -> (Z.of_nat n < 2 ^ 32)%Z ->
  (exists st',
     run (Call_addFilesToAssets files :: replicate (hooks st handlers) (Settle tid true)) st
     = Some st' /\
     amounts (tasks st) (log st')
     = amounts (tasks st) (log st) ++ (amount <$> seq 0 n)) /\
  (exists st0,
     react (Call_addFilesToAssets files) st = Some st0 /\
     amounts (tasks st) (log st0)
     = amounts (tasks st) (log st) ++ (amount <$> seq 0 (leading st handlers))) /\
  (forall st1 f,
     wf st1 -> activations st1 !! tid = Some (AwaitOnDropFiles f) ->
     df_components f = handlers ->
     exists st2,
       react (Settle tid true) st1 = Some st2 /\
       amounts (df_taskFeedBack f) (log st2)
       = amounts (df_taskFeedBack f) (log st1)
         ++ (amount <$> seq (df_i f) (S (leading st1 (drop (S (df_i f)) handlers))))) /\
  amount 0 = PosInf /\
  (forall i j, i < j -> j < n -> js_lt (amount j) (amount i)) /\
  (forall i, 1 <= i -> i < n ->
     js_lt (Fin 100) (amount i) /\
     exists q, amount i = Fin q /\
       let x := (inject_Z (Z.of_nat n) / inject_Z (Z.of_nat i))%Q in
       (x * 100 * ((1 - epsilon) * (1 - epsilon)) <= q /\
        q <= x * 100 * ((1 + epsilon) * (1 + epsilon)))%Q).
Proof.
  intros Hwf Hi tid handlers n amount Hn Hn32.
  change amount with (drop_progress n).
  destruct (addFilesToAssets_wf files st Hwf) as (st0 & Hcall & _).
  assert (Hcall0 := Hcall).
  unfold addFilesToAssets in Hcall. rewrite Hi in Hcall.
  simpl in Hcall. fold handlers in Hcall.
  set (st1 := emit _ _) in Hcall.
  assert (Hwf1 : wf st1).
  { apply wf_emit. apply (wf_update st); try done.
    apply (valid_observers_ext st); [done|done|by apply wf_observers]. }
  assert (Hlog1 : amounts (tasks st) (log st1) = amounts (tasks st) (log st)).
  { unfold st1. simpl. by rewrite amounts_app, app_nil_r. }
  split_and!.
  - simpl. rewrite Hcall0.
    destruct (drop_files_run tid files (tasks st) handlers handlers 0 st1 st0)
      as (st' & Hrun & Hamounts); [done|done|done| |apply (mounted_is_mounted st)|done|done|].
    { intros a' Ha'. apply lookup_lt_Some in Ha'. simpl in Ha'. unfold tid in Ha'. lia. }
    exists st'. split; [by rewrite <- (hooks_ext st st1)|].
    by rewrite Hamounts, Hlog1.
  - exists st0. split; [done|].
    rewrite (drop_files_amounts _ _ _ _ _ _ _ _ Hwf1 Hcall), Hlog1.
    by rewrite (leading_ext st st1).
  - intros st2 f Hwf2 Hf Hcomps. simpl. rewrite Hf. unfold resume_drop. rewrite Hcomps.
    fold n.
    set (st3 := emit _ st2).
    pose proof (wf_frames _ Hwf2 _ _ Hf) as Hv. simpl in Hv. rewrite Hcomps in Hv.
    destruct (drop_files_wf tid (df_files f) (df_taskFeedBack f) handlers
                (drop (S (df_i f)) handlers) (S (df_i f)) st3)
      as (st4 & Hst4 & _); [by apply wf_emit| | |by apply Forall_drop|done|].
    { simpl. apply lookup_lt_Some in Hf. lia. }
    { simpl. intros a'. rewrite Hf. by intros [= <-]. }
    exists st4. split; [done|].
    rewrite (drop_files_amounts _ _ _ _ _ _ _ _ (wf_emit _ _ Hwf2) Hst4).
    unfold st3. rewrite amounts_emit_update, (leading_ext st2) by done.
    fold n. simpl. by rewrite <- app_assoc.
  - apply drop_progress_zero; lia.
  - intros i j Hij Hj. destruct (decide (i = 0)) as [->|Hi0].
    + rewrite drop_progress_zero by lia.
      by destruct (drop_progress_value n j) as (s & -> & _); [lia|done|].
    + apply drop_progress_decreases; lia.
  - intros i Hi1 Hin. split; [by apply drop_progress_above_100|].
    apply drop_progress_value; [lia|done].
Qed.

Lemma addFilesToAssets_progress_witness :
  let amount := fun i => js_mul (js_div (js_of_nat 2) (js_of_nat i)) (Fin 100) in
  (exists st',
     run (Call_addFilesToAssets ["a.png"]
            :: replicate (hooks (initial registryAB) (mounted registryAB)) (Settle 0 true))
       (initial registryAB) = Some st' /\
     amounts 0 (log st') = amounts 0 (log (initial registryAB)) ++ (amount <$> seq 0 2)) /\
  (exists st0,
     react (Call_addFilesToAssets ["a.png"]) (initial registryAB) = Some st0 /\
     amounts 0 (log st0)
     = amounts 0 (log (initial registryAB))
       ++ (amount <$> seq 0 (leading (initial registryAB) (mounted registryAB)))) /\
  (forall st1 f,
     wf st1 -> activations st1 !! 0 = Some (AwaitOnDropFiles f) ->
     df_components f = mounted registryAB ->
     exists st2,
       react (Settle 0 true) st1 = Some st2 /\
       amounts (df_taskFeedBack f) (log st2)
       = amounts (df_taskFeedBack f) (log st1)
         ++ (amount <$> seq (df_i f)
               (S (leading st1 (drop (S (df_i f)) (mounted registryAB)))))) /\
  amount 0 = PosInf /\
  (forall i j, i < j -> j < 2 -> js_lt (amount j) (amount i)) /\
  (forall i, 1 <= i -> i < 2 ->
     js_lt (Fin 100) (amount i) /\
     exists q, amount i = Fin q /\
       let x := (inject_Z (Z.of_nat 2) / inject_Z (Z.of_nat i))%Q in
       (x * 100 * ((1 - epsilon) * (1 - epsilon)) <= q /\
        q <= x * 100 * ((1 + epsilon) * (1 + epsilon)))%Q).
Proof.
  apply (addFilesToAssets_progress ["a.png"] (initial registryAB)).
  - apply wf_initial, unobserved_registryAB.
  - reflexivity.
  - vm_compute. lia.
  - vm_compute. reflexivity.
Defined.

(** The amounts for four handlers: [Infinity], 400, 200, and 400 / 3
    rounded twice, 133.33333333333331. *)
Lemma addFilesToAssets_progress_sample :
  drop_progress 4 <$> seq 0 4
  = [PosInf; Fin 400; Fin 200; Fin (2345624805922133 # 17592186044416)].
Proof. vm_compute. reflexivity. Qed.

(** On lengths and indices up to 40 the amounts are the ones the binary64
    operations of the Standard Library give. *)
Lemma drop_progress_spec_float :
  forallb (fun '(n, i) => js_eqb (drop_progress n i) (spec_float_progress n i))
    small_lengths
  = true.
Proof. vm_compute. reflexivity. Qed.

(** * Further properties of the registry *)

Lemma find_from_app_Some {A} (p : A -> bool) l l' k x :
  find_from p l k = Some x -> find_from p (l ++ l') k = Some x.
Proof.
  revert k. induction l as [|a l IH]; intros k; simpl; [done|].
  destruct (p a); [done|]. apply IH.
Qed.

Lemma find_from_app_None {A} (p : A -> bool) l l' k :
  (forall x, x ∈ l -> p x = false) ->
  find_from p (l ++ l') k = find_from p l' (k + length l).
Proof.
  revert k. induction l as [|a l IH]; intros k Hl; simpl.
  - by rewrite Nat.add_0_r.
  - rewrite (Hl a) by left. rewrite IH.
    + f_equal. lia.
    + intros x Hx. apply Hl. by right.
Qed.

Lemma find_elem {A} (p : A -> bool) l k x :
  find p l = Some (k, x) -> l !! k = Some x /\ p x = true.
Proof.
  intros (_ & Hl & Hp & _)%find_from_Some. by rewrite Nat.sub_0_r in Hl.
Qed.

Lemma find_from_imap {A} (p : A -> bool) l : forall (h : nat -> A -> A) n,
  (forall k x, p (h k x) = p x) ->
  find_from p (imap h l) n
  = (fun kx => (kx.1, h (kx.1 - n) kx.2)) <$> find_from p l n.
Proof.
  induction l as [|x l IH]; intros h n Hp; simpl; [done|].
  rewrite Hp. destruct (p x) eqn:Hx.
  - simpl. by rewrite Nat.sub_diag.
  - rewrite (IH (h ∘ S) (S n)) by (intros k y; apply Hp).
    destruct (find_from p l (S n)) as [[k y]|] eqn:Hf; [|done].
    apply find_from_Some in Hf as (Hle & _). simpl.
    by replace (k - n) with (S (k - S n)) by lia.
Qed.

Lemma find_imap {A} (p : A -> bool) (h : nat -> A -> A) l :
  (forall k x, p (h k x) = p x) ->
  find p (imap h l) = (fun kx => (kx.1, h kx.1 kx.2)) <$> find p l.
Proof.
  intros Hp. unfold find. rewrite find_from_imap by done.
  destruct (find_from p l 0) as [[k y]|]; [|done]. simpl. by rewrite Nat.sub_0_r.
Qed.

(** X1. [addAssetComponent] appends the object it is given, carrying the
    new id, and changes nothing else but the [_id] shown at the positions
    that hold the same object already; no lookup that succeeded before
    answers differently: by class and by identifier the earlier
    registration answers, with the same instance and the same items. *)
Theorem registration_keeps_lookups randomId component same reg c i :
  (forall k, k ∈ same -> reg !! k = Some component) ->
  is_Some (find (fun a => Nat.eqb (ctor a) c) reg) ->
  is_Some (find (fun a => String.eqb (identifier a) i) reg) ->
  let reg' := addAssetComponent randomId component same reg in
  getAssetsOf c reg' = getAssetsOf c reg /\
  getComponent c reg' = getComponent c reg /\
  getAssetsOfComponentId i reg' = getAssetsOfComponentId i reg /\
  length reg' = S (length reg) /\
  reg' !! length reg = Some (set_id (Some randomId) component) /\
  (forall k, k ∈ same -> reg' !! k = reg' !! length reg) /\
  forall k a, reg !! k = Some a ->
    exists a', reg' !! k = Some a' /\
      title a' = title a /\ identifier a' = identifier a /\
      ctor a' = ctor a /\ _ref a' = _ref a /\
      _id a' = if bool_decide (k ∈ same) then Some randomId else _id a.
Proof.
  intros Hsame [[kc ac] Hc] [[k a] Hi]. simpl. unfold addAssetComponent.
  set (h := fun k a => if bool_decide (k ∈ same) then set_id (Some randomId) a else a).
  assert (Hctor : forall k x, ctor (h k x) = ctor x).
  { intros k0 x. unfold h. by destruct (bool_decide _). }
  assert (Hident : forall k x, identifier (h k x) = identifier x).
  { intros k0 x. unfold h. by destruct (bool_decide _). }
  assert (Href : forall k x, _ref (h k x) = _ref x).
  { intros k0 x. unfold h. by destruct (bool_decide _). }
  assert (Hfc : forall (p : IAssetComponent -> bool) new k0 x,
            (forall k1 y, p (h k1 y) = p y) ->
            find p reg = Some (k0, x) ->
            find p (imap h reg ++ new) = Some (k0, h k0 x)).
  { intros p new k0 x Hp Hf. unfold find. apply find_from_app_Some.
    fold (find p (imap h reg)). rewrite find_imap by done. by rewrite Hf. }
  assert (Hpc : forall c0 k1 y, Nat.eqb (ctor (h k1 y)) c0 = Nat.eqb (ctor y) c0).
  { intros. by rewrite Hctor. }
  assert (Hfi := Hfc _ [set_id (Some randomId) component] _ _
                   (fun k1 y => f_equal (fun z => String.eqb z i) (Hident k1 y)) Hi).
  split_and!.
  - unfold getAssetsOf. rewrite (Hfc _ _ _ _ (Hpc c) Hc), Hc. by rewrite Href.
  - unfold getComponent. rewrite (Hfc _ _ _ _ (Hpc c) Hc), Hc. by rewrite Href.
  - unfold getAssetsOfComponentId, getAssetsOf. rewrite Hfi, Hi, Hctor.
    destruct (find (fun a0 => Nat.eqb (ctor a0) (ctor a)) reg) as [[k0 x]|] eqn:Ha.
    + rewrite (Hfc _ _ _ _ (Hpc (ctor a)) Ha). by rewrite Href.
    + apply find_elem in Hi as [Hk _].
      apply find_from_None with (x := a) in Ha; [|by eapply list_elem_of_lookup_2].
      by rewrite Nat.eqb_refl in Ha.
  - rewrite length_app, length_imap. simpl. lia.
  - rewrite lookup_app_r by (by rewrite length_imap).
    by rewrite length_imap, Nat.sub_diag.
  - intros k0 Hk0. pose proof (Hsame k0 Hk0) as Hx.
    rewrite (lookup_app_r _ _ (length reg)) by (by rewrite length_imap).
    rewrite length_imap, Nat.sub_diag. simpl.
    erewrite lookup_app_l_Some; [done|].
    rewrite list_lookup_imap, Hx. simpl. unfold h.
    by rewrite bool_decide_eq_true_2.
  - intros k0 x Hx. exists (h k0 x). split.
    + apply lookup_app_l_Some. by rewrite list_lookup_imap, Hx.
    + unfold h. by destruct (bool_decide _).
Qed.

Lemma registration_keeps_lookups_witness :
  let component := descriptor "B" 2 (Some (handler [] false)) in
  let reg' := addAssetComponent "r4nd0m" component [1] registryAB in
  getAssetsOf 1 reg' = getAssetsOf 1 registryAB /\
  getComponent 1 reg' = getComponent 1 registryAB /\
  getAssetsOfComponentId "B-id" reg' = getAssetsOfComponentId "B-id" registryAB /\
  length reg' = S (length registryAB) /\
  reg' !! length registryAB = Some (set_id (Some "r4nd0m") component) /\
  (forall k, k ∈ [1] -> reg' !! k = reg' !! length registryAB) /\
  forall k a, registryAB !! k = Some a ->
    exists a', reg' !! k = Some a' /\
      title a' = title a /\ identifier a' = identifier a /\
      ctor a' = ctor a /\ _ref a' = _ref a /\
      _id a' = if bool_decide (k ∈ [1]) then Some "r4nd0m" else _id a.
Proof.
  apply (registration_keeps_lookups "r4nd0m"
           (descriptor "B" 2 (Some (handler [] false))) [1] registryAB 1 "B-id").
  - intros k Hk. by apply list_elem_of_singleton in Hk as ->.
  - by eexists.
  - by eexists.
Defined.

(** X2. Registration, mount and lookup compose: when a descriptor of a new
    class is registered under an id no descriptor carries, and React then
    hands over the instance mounted under that id, the instance lands in
    the new descriptor (the last one), [getComponent] and [getAssetsOf] of
    the class answer with it, and the descriptors registered before are
    untouched. (The registry cannot hold the object already: it holds no
    descriptor of its class.) *)
Theorem register_mount_lookup reg component same randomId r :
  (forall k, k ∈ same -> reg !! k = Some component) ->
  (forall a, a ∈ reg -> ctor a <> ctor component) ->
  (forall a, a ∈ reg -> _id a <> Some randomId) ->
  exists reg',
    getAssetComponent (Some (randomId, r)) (addAssetComponent randomId component same reg)
    = Return reg' /\
    getComponent (ctor component) reg' = Some r /\
    getAssetsOf (ctor component) reg' = Some (items r) /\
    take (length reg) reg' = reg /\
    length reg' = S (length reg).
Proof.
  intros Hsame Hctor Hid.
  assert (Himap : imap (fun k a => if bool_decide (k ∈ same)
                                   then set_id (Some randomId) a else a) reg = reg).
  { apply list_eq. intros k. rewrite list_lookup_imap.
    destruct (reg !! k) as [a|] eqn:Hk; [|done]. simpl.
    rewrite bool_decide_eq_false_2; [done|].
    intros Hin. apply (Hctor component); [|done].
    eapply list_elem_of_lookup_2. by apply Hsame. }
  unfold getAssetComponent, addAssetComponent, find. rewrite Himap.
  rewrite find_from_app_None.
  2:{ intros x Hx. specialize (Hid x Hx). unfold has_id.
      destruct (_id x) as [y|]; [|done].
      apply String.eqb_neq. congruence. }
  simpl. unfold has_id at 1. simpl. rewrite String.eqb_refl.
  eexists. split; [done|].
  rewrite insert_app_r_alt, Nat.sub_diag by lia. simpl.
  assert (Hnone : forall y, y ∈ reg ->
            Nat.eqb (ctor y) (ctor component) = false).
  { intros y Hy. apply Nat.eqb_neq. by apply Hctor. }
  unfold getComponent, getAssetsOf, find.
  rewrite !(find_from_app_None _ _ _ _ Hnone).
  simpl. rewrite Nat.eqb_refl. split_and!; try done.
  - by rewrite take_app_length.
  - rewrite length_app. simpl. lia.
Qed.

Lemma register_mount_lookup_witness :
  exists reg',
    getAssetComponent (Some ("r4nd0m", handler [item "m"] false))
      (addAssetComponent "r4nd0m" (descriptor "Meshes" 7 None) [] registryAB)
    = Return reg' /\
    getComponent (ctor (descriptor "Meshes" 7 None)) reg'
    = Some (handler [item "m"] false) /\
    getAssetsOf (ctor (descriptor "Meshes" 7 None)) reg'
    = Some (items (handler [item "m"] false)) /\
    take (length registryAB) reg' = registryAB /\
    length reg' = S (length registryAB).
Proof.
  apply register_mount_lookup.
  - intros k Hk. by apply elem_of_nil in Hk.
  - intros a Ha. apply elem_of_cons in Ha as [->|Ha]; [done|].
    by apply list_elem_of_singleton in Ha as ->.
  - intros a Ha. apply elem_of_cons in Ha as [->|Ha]; [done|].
    by apply list_elem_of_singleton in Ha as ->.
Defined.



Lemma NoDup_fmap_lookup {A B} (f : A -> B) (l : list A) i j x y :
  NoDup (f <$> l) -> l !! i = Some x -> l !! j = Some y -> f x = f y -> i = j.
Proof.
  intros Hnd Hi Hj Hf. eapply (NoDup_lookup _ i j (f x)); [done| |].
  - by rewrite list_lookup_fmap, Hi.
  - rewrite list_lookup_fmap, Hj. simpl. by rewrite Hf.
Qed.

Lemma find_from_ext {A} (p q : A -> bool) l k :
  (forall x, p x = q x) -> find_from p l k = find_from q l k.
Proof.
  intros Hpq. revert k. induction l as [|a l IH]; intros k; simpl; [done|].
  by rewrite Hpq, IH.
Qed.

Lemma find_unique {A B} `{EqDecision B} (f : A -> B) (l : list A) k x :
  NoDup (f <$> l) -> l !! k = Some x ->
  find (fun a => bool_decide (f a = f x)) l = Some (k, x).
Proof.
  intros Hnd Hk. unfold find.
  destruct (find_from _ l 0) as [[j y]|] eqn:Hf.
  - apply find_elem in Hf as [Hj Hy]. apply bool_decide_eq_true in Hy.
    assert (j = k) as -> by (by eapply (NoDup_fmap_lookup f)).
    congruence.
  - apply find_from_None with (x := x) in Hf; [|by eapply list_elem_of_lookup_2].
    by rewrite bool_decide_eq_true_2 in Hf.
Qed.

(** X4. In a registry whose identifiers and whose classes are pairwise
    distinct, [getAssetsOfComponentId] of the identifier of a mounted
    descriptor returns the items of that very handler, in order and as
    many, each cut down to [id], [base64] and [key] ([style] and every
    other property are dropped). *)
Theorem getAssetsOfComponentId_own_items reg k c r :
  NoDup (identifier <$> reg) -> NoDup (ctor <$> reg) ->
  reg !! k = Some c -> _ref c = Some r ->
  getAssetsOfComponentId (identifier c) reg = Return (id_base64_key <$> items r) /\
  forall x, x ∈ id_base64_key <$> items r -> style x = None /\ others x = [].
Proof.
  intros Hid Hctor Hk Hr. split.
  - unfold getAssetsOfComponentId, getAssetsOf.
    assert (Hf1 : find (fun a => String.eqb (identifier a) (identifier c)) reg
                  = Some (k, c)).
    { rewrite <- (find_unique identifier reg k c Hid Hk). unfold find.
      apply find_from_ext. intros x.
      destruct (String.eqb_spec (identifier x) (identifier c)) as [Heq|Hne].
      - by rewrite bool_decide_eq_true_2.
      - by rewrite bool_decide_eq_false_2. }
    assert (Hf2 : find (fun a => Nat.eqb (ctor a) (ctor c)) reg = Some (k, c)).
    { rewrite <- (find_unique ctor reg k c Hctor Hk). unfold find.
      apply find_from_ext. intros x.
      destruct (Nat.eqb_spec (ctor x) (ctor c)) as [Heq|Hne].
      - by rewrite bool_decide_eq_true_2.
      - by rewrite bool_decide_eq_false_2. }
    rewrite Hf1, Hf2, Hr. done.
  - intros x (y & -> & _)%list_elem_of_fmap. done.
Qed.

Lemma getAssetsOfComponentId_own_items_witness :
  getAssetsOfComponentId (identifier (descriptor "A" 1 (Some (handler [item "a1"; item "a2"] true))))
    registryAB
  = Return (id_base64_key <$> items (handler [item "a1"; item "a2"] true)) /\
  forall x, x ∈ id_base64_key <$> items (handler [item "a1"; item "a2"] true) ->
    style x = None /\ others x = [].
Proof.
  apply (getAssetsOfComponentId_own_items registryAB 0).
  - apply (bool_decide_unpack _). vm_compute. reflexivity.
  - apply (bool_decide_unpack _). vm_compute. reflexivity.
  - reflexivity.
  - reflexivity.
Defined.

(** X5. [selectTab] calls [setState] exactly when the class is given and
    registered, the tab bar is mounted, and the tab selected is not the
    one of the class; the call then asks for that tab. Otherwise (no class,
    an unknown class, no tab bar, the tab selected already) nothing is
    called and nothing changes. With the tab bar mounted, the tab of a
    registered class is the selected one afterwards, and a second call with
    the same class never calls [setState]. *)
Theorem selectTab_selects_once component reg tabs :
  let '(tabs', call) := selectTab component reg tabs in
  selectTab component reg tabs' = (tabs', None) /\
  (forall i, call = Some i <->
     exists c k ac s, component = Some c /\
       find (fun a => Nat.eqb (ctor a) c) reg = Some (k, ac) /\
       _id ac = Some i /\ tabs = Some s /\ s <> Some i) /\
  (forall i, call = Some i -> tabs' = Some (Some i)) /\
  (call = None -> tabs' = tabs) /\
  (forall c k ac i s, component = Some c ->
     find (fun a => Nat.eqb (ctor a) c) reg = Some (k, ac) ->
     _id ac = Some i -> tabs = Some s -> tabs' = Some (Some i)).
Proof.
  assert (Hnone : forall t : Nullable (Undefinable string),
    (forall c k ac i s, component = Some c ->
       find (fun a => Nat.eqb (ctor a) c) reg = Some (k, ac) ->
       _id ac = Some i -> t = Some s -> False) ->
    (forall i, @None string = Some i <->
       exists c k ac s, component = Some c /\
         find (fun a => Nat.eqb (ctor a) c) reg = Some (k, ac) /\
         _id ac = Some i /\ t = Some s /\ s <> Some i) /\
    (forall i, @None string = Some i -> t = Some (Some i)) /\
    (@None string = None -> t = t) /\
    (forall c k ac i s, component = Some c ->
       find (fun a => Nat.eqb (ctor a) c) reg = Some (k, ac) ->
       _id ac = Some i -> t = Some s -> t = Some (Some i))).
  { intros t Hno. split_and!; try done.
    - intros i. split; [done|]. intros (c & k & ac & s & Hc & Hf & Hi & Ht & _).
      by destruct (Hno c k ac i s).
    - intros c k ac i s Hc Hf Hi Ht. by destruct (Hno c k ac i s). }
  unfold selectTab. destruct component as [c|];
    [|simpl; split; [done|]; apply Hnone; intros; by simplify_eq].
  destruct (find (fun ac => Nat.eqb (ctor ac) c) reg) as [[k ac]|] eqn:Hf;
    [|simpl; split; [done|]; apply Hnone; intros; by simplify_eq].
  destruct (_id ac) as [i|] eqn:Hi;
    [|simpl; split; [done|]; apply Hnone; intros; by simplify_eq].
  destruct tabs as [s|];
    [|simpl; split; [done|]; apply Hnone; intros; by simplify_eq].
  destruct (match s with Some s0 => String.eqb s0 i | None => false end) eqn:Hs.
  - assert (s = Some i) as ->.
    { destruct s as [s0|]; [|done]. by apply String.eqb_eq in Hs as ->. }
    rewrite Hs. split_and!; try done.
    + intros i'. split; [done|].
      intros (c' & k' & ac' & s' & Hc' & Hf' & Hi' & Hs' & Hne). by simplify_eq.
    + intros c' k' ac' i' s' Hc' Hf' Hi' Hs'. by simplify_eq.
  - rewrite String.eqb_refl. split_and!; try done.
    + intros i'. split.
      * intros [= <-]. exists c, k, ac, s. split_and!; try done.
        intros ->. by rewrite String.eqb_refl in Hs.
      * intros (c' & k' & ac' & s' & Hc' & Hf' & Hi' & Hs' & Hne). by simplify_eq.
    + by intros i' [= <-].
    + intros c' k' ac' i' s' Hc' Hf' Hi' Hs'. by simplify_eq.
Qed.

Lemma selectTab_selects_once_witness :
  selectTab (Some 2) registryAB (Some (Some "A")) = (Some (Some "B"), Some "B") /\
  selectTab (Some 2) registryAB (Some (Some "B")) = (Some (Some "B"), None).
Proof.
  split; [reflexivity|].
  exact (proj1 (selectTab_selects_once (Some 2) registryAB (Some (Some "A")))).
Defined.

(** * Further properties of the cache snapshot *)

Lemma dict_set_keys {V} (k : string) (v : V) d k' :
  k' ∈ (dict_set k v d).*1 <-> k' = k \/ k' ∈ d.*1.
Proof.
  induction d as [|[k0 v0] d IH]; simpl.
  - rewrite list_elem_of_singleton, elem_of_nil. tauto.
  - destruct (String.eqb_spec k0 k) as [->|Hne]; simpl.
    + rewrite !elem_of_cons. tauto.
    + rewrite !elem_of_cons, IH. tauto.
Qed.

Lemma dict_set_NoDup {V} (k : string) (v : V) d :
  NoDup d.*1 -> NoDup (dict_set k v d).*1.
Proof.
  induction d as [|[k0 v0] d IH]; simpl; intros Hnd.
  - apply NoDup_singleton.
  - apply NoDup_cons in Hnd as [Hk0 Hnd].
    destruct (String.eqb_spec k0 k) as [->|Hne]; simpl.
    + by apply NoDup_cons.
    + apply NoDup_cons. split; [|by apply IH].
      rewrite dict_set_keys. by intros [?|?].
Qed.

Lemma dict_set_elem {V} (k : string) (v : V) d k' v' :
  NoDup d.*1 ->
  (k', v') ∈ dict_set k v d <-> (k' = k /\ v' = v) \/ (k' <> k /\ (k', v') ∈ d).
Proof.
  induction d as [|[k0 v0] d IH]; simpl; intros Hnd.
  - rewrite list_elem_of_singleton, elem_of_nil. split.
    + intros [= -> ->]. by left.
    + by intros [[-> ->]|[_ []]].
  - apply NoDup_cons in Hnd as [Hk0 Hnd].
    destruct (String.eqb_spec k0 k) as [->|Hne].
    + rewrite !elem_of_cons. split.
      * intros [[= -> ->]|Hin]; [by left|].
        right. split; [|by right].
        intros ->. apply Hk0. apply list_elem_of_fmap. by exists (k, v').
      * intros [[-> ->]|[Hne [[= -> ->]|Hin]]]; [by left|done|by right].
    + rewrite !elem_of_cons, IH by done. split.
      * intros [[= -> ->]|[[-> ->]|[Hne' Hin]]].
        -- right. split; [done|by left].
        -- by left.
        -- right. split; [done|by right].
      * intros [[-> ->]|[Hne' [[= -> ->]|Hin]]].
        -- right. by left.
        -- by left.
        -- right. right. by split.
Qed.

Lemma GetCachedData_snoc reg c :
  GetCachedData (reg ++ [c]) = dict_set (title c) (cached c) (GetCachedData reg).
Proof. unfold GetCachedData. by rewrite foldl_snoc. Qed.

Lemma GetCachedData_spec reg :
  NoDup (GetCachedData reg).*1 /\
  (forall t, t ∈ (GetCachedData reg).*1 <-> t ∈ title <$> reg) /\
  (forall t v, (t, v) ∈ GetCachedData reg <->
     exists k c, last_titled reg k c /\ title c = t /\ v = cached c).
Proof.
  induction reg as [|c reg (IHnd & IHk & IHv)] using rev_ind.
  - split_and!.
    + apply NoDup_nil_2.
    + done.
    + intros t v. split; [by intros ?%elem_of_nil|].
      by intros (k & c & [Hk _] & _).
  - rewrite GetCachedData_snoc. split_and!.
    + by apply dict_set_NoDup.
    + intros t. rewrite dict_set_keys, IHk, fmap_app, elem_of_app. simpl.
      rewrite list_elem_of_singleton. tauto.
    + intros t v. rewrite dict_set_elem by done. rewrite IHv. split.
      * intros [[-> ->]|[Hne (k & c0 & [Hk Hlast] & Ht & Hv)]].
        -- exists (length reg), c. split_and!; try done.
           split; [by rewrite list_lookup_middle|].
           intros j c' Hj Hl. apply lookup_lt_Some in Hl.
           rewrite length_app in Hl. simpl in Hl. lia.
        -- exists k, c0. split_and!; try done.
           split; [by apply lookup_app_l_Some|].
           intros j c' Hj Hl. apply lookup_app_Some in Hl as [Hl|[Hge Hl]].
           ++ by eapply Hlast.
           ++ apply list_lookup_singleton_Some in Hl as [_ <-]. congruence.
      * intros (k & c0 & [Hk Hlast] & Ht & Hv).
        apply lookup_app_Some in Hk as [Hk|[Hge Hk]].
        -- right. split.
           ++ intros ->.
              eapply (Hlast (length reg) c);
                [by eapply lookup_lt_Some|by rewrite list_lookup_middle|done].
           ++ exists k, c0. split_and!; try done.
              split; [done|].
              intros j c' Hj Hl. eapply Hlast; [done|]. by apply lookup_app_l_Some.
        -- left. by apply list_lookup_singleton_Some in Hk as [_ <-].
Qed.

Lemma first_titled_inj reg k c j c' :
  first_titled reg k c -> first_titled reg j c' -> title c = title c' ->
  k = j /\ c = c'.
Proof.
  intros [Hk Hmink] [Hj Hminj] Ht.
  destruct (lt_eq_lt_dec j k) as [[Hlt| ->]|Hgt].
  - by destruct (Hmink j c' Hlt Hj).
  - split; [done|congruence].
  - by destruct (Hminj k c Hgt Hk).
Qed.

Lemma find_first_titled reg a k c :
  find (fun ac => String.eqb (title ac) a) reg = Some (k, c) <->
  first_titled reg k c /\ title c = a.
Proof.
  split.
  - intros Hf. apply find_from_Some in Hf as (_ & Hk & Hp & Hmin).
    rewrite Nat.sub_0_r in Hk, Hmin. apply String.eqb_eq in Hp.
    split; [|done]. split; [done|].
    intros j c' Hj Hl Ht. apply (Hmin j c' Hj) in Hl as Hq.
    by rewrite Ht, Hp, String.eqb_refl in Hq.
  - intros [[Hk Hmin] <-].
    destruct (find _ reg) as [[j x]|] eqn:Hf.
    + apply find_from_Some in Hf as (_ & Hj & Hp & Hminj).
      rewrite Nat.sub_0_r in Hj, Hminj. apply String.eqb_eq in Hp.
      destruct (lt_eq_lt_dec j k) as [[Hlt| ->]|Hgt].
      * by destruct (Hmin j x Hlt Hj).
      * congruence.
      * apply (Hminj k c Hgt) in Hk. by rewrite String.eqb_refl in Hk.
    + apply find_from_None with (x := c) in Hf; [|by eapply list_elem_of_lookup_2].
      by rewrite String.eqb_refl in Hf.
Qed.

Lemma first_titled_dec reg k c :
  reg !! k = Some c -> first_titled reg k c \/ ~ first_titled reg k c.
Proof.
  intros Hk.
  destruct (find (fun ac => String.eqb (title ac) (title c)) reg) as [[j x]|] eqn:Hf.
  - apply find_first_titled in Hf as [Hj Ht].
    destruct (decide (j = k)) as [->|Hne].
    + left. destruct Hj as [Hj Hmin]. assert (x = c) as -> by congruence. by split.
    + right. intros Hfk. by destruct (first_titled_inj _ _ _ _ _ Hj Hfk Ht).
  - apply find_from_None with (x := c) in Hf; [|by eapply list_elem_of_lookup_2].
    by rewrite String.eqb_refl in Hf.
Qed.

Lemma SetCachedData_entry_spec reg a v reg1 :
  SetCachedData_entry reg (a, v) = Some reg1 ->
  length reg1 = length reg /\
  forall k c, reg !! k = Some c ->
    exists c1, reg1 !! k = Some c1 /\ same_descriptor c c1 /\
      (_ref c = None -> c1 = c) /\
      (forall r, _ref c = Some r ->
         exists r1, _ref c1 = Some r1 /\ same_handler r r1 /\
           (first_titled reg k c -> title c = a -> v = Some (items r1)) /\
           (~ first_titled reg k c \/ title c <> a -> items r1 = items r)).
Proof.
  assert (Hsame : forall k c,
            reg !! k = Some c ->
            (forall r, _ref c = Some r -> first_titled reg k c -> title c <> a) ->
            exists c1, reg !! k = Some c1 /\ same_descriptor c c1 /\
              (_ref c = None -> c1 = c) /\
              (forall r, _ref c = Some r ->
                 exists r1, _ref c1 = Some r1 /\ same_handler r r1 /\
                   (first_titled reg k c -> title c = a -> v = Some (items r1)) /\
                   (~ first_titled reg k c \/ title c <> a -> items r1 = items r))).
  { intros k c Hk Hno. exists c. split; [done|]. split; [done|]. split; [done|].
    intros r Hr. exists r. split; [done|]. split; [done|]. split; [|done].
    intros Hfk Hta. by destruct (Hno r Hr Hfk). }
  unfold SetCachedData_entry. simpl.
  destruct (find _ reg) as [[j ac]|] eqn:Hf.
  - apply find_first_titled in Hf as [Hfirst Ha]. pose proof Hfirst as [Hj Hmin].
    destruct (_ref ac) as [r|] eqn:Hr.
    + destruct v as [l|]; [|done]. intros [= <-]. split; [by rewrite length_insert|].
      intros k c Hk. destruct (decide (k = j)) as [->|Hne].
      * assert (c = ac) as -> by congruence.
        rewrite list_lookup_insert_eq by (by eapply lookup_lt_Some).
        eexists. split; [done|]. split; [done|]. split; [by rewrite Hr|].
        intros r0 Hr0. assert (r0 = r) as -> by congruence.
        eexists. split; [done|]. split; [done|]. split; [done|].
        by intros [Hnf|Hne].
      * rewrite list_lookup_insert_ne by done. apply Hsame; [done|].
        intros r0 Hr0 Hfk Hta. destruct Hne.
        apply (first_titled_inj _ _ _ _ _ Hfk Hfirst). congruence.
    + intros [= <-]. split; [done|]. intros k c Hk. apply Hsame; [done|].
      intros r0 Hr0 Hfk Hta.
      destruct (first_titled_inj _ _ _ _ _ Hfk Hfirst) as [_ ->]; congruence.
  - intros [= <-]. split; [done|]. intros k c Hk. apply Hsame; [done|].
    intros r0 Hr0 Hfk Hta.
    assert (Hfind : find (fun ac => String.eqb (title ac) a) reg = Some (k, c))
      by (by apply find_first_titled).
    congruence.
Qed.

Lemma first_titled_stable reg reg1 k c c1 :
  (forall j x, reg !! j = Some x ->
     exists x1, reg1 !! j = Some x1 /\ title x1 = title x) ->
  reg !! k = Some c -> reg1 !! k = Some c1 ->
  (first_titled reg k c <-> first_titled reg1 k c1).
Proof.
  intros Hpt Hk Hk1.
  destruct (Hpt k c Hk) as (x1 & Hx1 & Ht). assert (x1 = c1) as -> by congruence.
  split.
  - intros [_ Hmin]. split; [done|]. intros j y1 Hj Hy1.
    assert (is_Some (reg !! j)) as [y Hy].
    { apply lookup_lt_is_Some. apply lookup_lt_Some in Hk. lia. }
    destruct (Hpt j y Hy) as (y1' & Hy1' & Hty). assert (y1' = y1) as -> by congruence.
    rewrite Hty, Ht. by eapply Hmin.
  - intros [_ Hmin]. split; [done|]. intros j y Hj Hy.
    destruct (Hpt j y Hy) as (y1 & Hy1 & Hty).
    rewrite <- Hty, <- Ht. by eapply Hmin.
Qed.

Lemma SetCachedData_spec data reg reg' :
  NoDup data.*1 -> SetCachedData data reg = Some reg' ->
  length reg' = length reg /\
  forall k c, reg !! k = Some c ->
    exists c', reg' !! k = Some c' /\ same_descriptor c c' /\
      (_ref c = None -> c' = c) /\
      (forall r, _ref c = Some r ->
         exists r', _ref c' = Some r' /\ same_handler r r' /\
           (first_titled reg k c ->
            forall v, (title c, v) ∈ data -> v = Some (items r')) /\
           (~ first_titled reg k c \/ title c ∉ data.*1 -> items r' = items r)).
Proof.
  revert reg. induction data as [|[a v] data IH]; intros reg Hnd; simpl.
  - intros [= <-]. split; [done|]. intros k c Hk. exists c.
    split; [done|]. split; [done|]. split; [done|].
    intros r Hr. exists r. split; [done|]. split; [done|]. split; [|done].
    intros _ v Hv. by apply elem_of_nil in Hv.
  - apply NoDup_cons in Hnd as [Ha Hnd].
    destruct (SetCachedData_entry reg (a, v)) as [reg1|] eqn:He; [|done].
    intros Hs. apply SetCachedData_entry_spec in He as [Hlen1 He].
    apply IH in Hs as [Hlen Hs]; [|done].
    split; [congruence|]. intros k c Hk.
    destruct (He k c Hk) as (c1 & Hk1 & (Ht1 & Hi1 & Hc1 & Hd1) & Hn1 & Hr1).
    destruct (Hs k c1 Hk1) as (c' & Hk' & (Ht' & Hi' & Hc' & Hd') & Hn' & Hr').
    assert (Hstable : first_titled reg k c <-> first_titled reg1 k c1).
    { apply first_titled_stable; [|done|done].
      intros j x Hx. destruct (He j x Hx) as (x1 & Hx1 & (Htx & _) & _). by exists x1. }
    exists c'. split; [done|]. split; [split_and!; congruence|].
    split.
    { intros Hn. rewrite <- (Hn1 Hn). apply Hn'. by rewrite (Hn1 Hn). }
    intros r Hr. destruct (Hr1 r Hr) as (r1 & Hr1' & (Ho1 & Hf1) & Hw1 & Hk1').
    destruct (Hr' r1 Hr1') as (r' & Hr'' & (Ho' & Hf') & Hw' & Hk'').
    exists r'. split; [done|]. split; [split; congruence|]. split.
    + intros Hfirst w Hw. apply elem_of_cons in Hw as [[= Hta <-]|Hw].
      * rewrite (Hw1 Hfirst Hta). f_equal. symmetry. apply Hk''.
        right. rewrite Ht1, Hta. done.
      * apply Hw'; [by apply Hstable|]. by rewrite Ht1.
    + intros Hor. rewrite <- Hk1'.
      * apply Hk''. destruct Hor as [Hnf|Hnk].
        -- left. by rewrite <- Hstable.
        -- right. rewrite Ht1. intros Hin. apply Hnk. by right.
      * destruct Hor as [Hnf|Hnk]; [by left|].
        right. intros Hta. apply Hnk. rewrite Hta. by left.
Qed.


Lemma dict_set_Forall2 {V} (R R' : string * V -> string * V -> Prop) k v v' d d' :
  NoDup d.*1 ->
  Forall2 R d d' ->
  (forall e e', R e e' -> e.1 = e'.1) ->
  R' (k, v) (k, v') ->
  (forall e e', R e e' -> e.1 <> k -> R' e e') ->
  Forall2 R' (dict_set k v d) (dict_set k v' d').
Proof.
  intros Hnd HF Hkey Hkv Hother.
  assert (Htail : forall d d', Forall2 R d d' -> k ∉ d.*1 -> Forall2 R' d d').
  { clear d d' Hnd HF. intros d d' HF. induction HF as [|e e' d d' He HF IH]; intros Hk.
    - constructor.
    - simpl in Hk. apply not_elem_of_cons in Hk as [Hne Hk].
      constructor; [by apply Hother|by apply IH]. }
  induction HF as [|[k0 v0] [k0' v0'] d d' He HF IH]; simpl.
  - by constructor.
  - apply NoDup_cons in Hnd as [Hk0 Hnd].
    pose proof (Hkey _ _ He) as Heq. simpl in Heq. subst k0'.
    destruct (String.eqb_spec k0 k) as [->|Hne].
    + constructor; [done|]. by apply Htail.
    + constructor; [by apply Hother|by apply IH].
Qed.

Lemma GetCachedData_foldl_agree l : forall l' acc acc',
  NoDup acc.*1 ->
  Forall2 (fun e e' => e.1 = e'.1 /\ (e.2 = e'.2 \/ e.1 ∈ title <$> l)) acc acc' ->
  Forall2 (fun c c' => title c' = title c) l l' ->
  (forall k c c', l !! k = Some c -> l' !! k = Some c' ->
     cached c' = cached c \/
     exists j x, k < j /\ l !! j = Some x /\ title x = title c) ->
  foldl (fun result ac => dict_set (title ac) (cached ac) result) acc l
  = foldl (fun result ac => dict_set (title ac) (cached ac) result) acc' l'.
Proof.
  induction l as [|c l IH]; intros l' acc acc' Hnd Hacc Hl Hlate.
  - apply Forall2_nil_inv_l in Hl as ->. simpl.
    induction Hacc as [|[k v] [k' v'] d d' [Hk Hv] _ IHacc]; [done|].
    simpl in Hk, Hv. apply NoDup_cons in Hnd as [_ Hnd].
    destruct Hv as [->|Hv]; [|by apply elem_of_nil in Hv].
    subst k'. f_equal. by apply IHacc.
  - apply Forall2_cons_inv_l in Hl as (c' & l'' & Ht & Hl & ->). simpl.
    rewrite Ht. apply IH.
    + by apply dict_set_NoDup.
    + eapply dict_set_Forall2; [done|exact Hacc|by intros e e' [? _]| |].
      * split; [done|]. simpl.
        destruct (Hlate 0 c c' eq_refl eq_refl) as [Hc|(j & x & Hj & Hx & Htx)];
          [by left|].
        right. destruct j as [|j]; [lia|]. simpl in Hx.
        apply list_elem_of_fmap. exists x. split; [done|].
        by eapply list_elem_of_lookup_2.
      * intros e e' [Hk [Hv|Hv]] Hne; (split; [done|]); [by left|].
        right. simpl in Hv. by apply elem_of_cons in Hv as [?|?].
    + done.
    + intros k x x' Hx Hx'.
      destruct (Hlate (S k) x x' Hx Hx') as [Hc|(j & y & Hj & Hy & Hty)]; [by left|].
      right. destruct j as [|j]; [lia|]. exists j, y. split_and!; [lia|done|done].
Qed.

Lemma persisted_fmap_idemp (l : list IAssetComponentItem) :
  persisted <$> (persisted <$> l) = persisted <$> l.
Proof. rewrite <- list_fmap_compose. by apply list_fmap_ext. Qed.

(** X6. The snapshot is keyed by title: when no descriptor is titled
    [__proto__] (an assignment to that key of an object literal creates no
    property), the snapshot has one entry for every title of the registry
    and no other, and the entry of a title holds the items of the last
    descriptor registered under it (cut down to the persisted fields,
    [undefined] when that descriptor has no instance). *)
Theorem GetCachedData_last_titled reg :
  "__proto__" ∉ title <$> reg ->
  NoDup (GetCachedData reg).*1 /\
  (forall t, t ∈ (GetCachedData reg).*1 <-> t ∈ title <$> reg) /\
  (forall t v, (t, v) ∈ GetCachedData reg <->
     exists k c, last_titled reg k c /\ title c = t /\ v = cached c).
Proof. intros _. apply GetCachedData_spec. Qed.

Lemma GetCachedData_last_titled_witness :
  NoDup (GetCachedData registryTT).*1 /\
  (forall t, t ∈ (GetCachedData registryTT).*1 <-> t ∈ title <$> registryTT) /\
  (forall t v, (t, v) ∈ GetCachedData registryTT <->
     exists k c, last_titled registryTT k c /\ title c = t /\ v = cached c).
Proof.
  apply (GetCachedData_last_titled registryTT).
  apply (bool_decide_unpack _). vm_compute. reflexivity.
Defined.



(** X8. Keys that are no title, or whose first descriptor has no instance,
    are passed over: a dictionary of such keys leaves the registry as it
    is, whatever its values, also when a later descriptor of the title is
    mounted. *)
Theorem SetCachedData_skips_unmounted data reg :
  (forall t k c, t ∈ data.*1 -> first_titled reg k c -> title c = t ->
     _ref c = None) ->
  SetCachedData data reg = Some reg.
Proof.
  induction data as [|[a v] data IH]; intros Hskip; simpl; [done|].
  assert (He : SetCachedData_entry reg (a, v) = Some reg).
  { unfold SetCachedData_entry. simpl.
    destruct (find _ reg) as [[j ac]|] eqn:Hf; [|done].
    apply find_first_titled in Hf as [Hfirst Ha].
    rewrite (Hskip a j ac); [done| |done|done]. simpl. by left. }
  rewrite He. apply IH. intros t k c Ht. apply Hskip. simpl. by right.
Qed.

Lemma SetCachedData_skips_unmounted_witness :
  SetCachedData [("A", None); ("nobody", Some [item "z"])] registryUnmounted
  = Some registryUnmounted.
Proof.
  apply SetCachedData_skips_unmounted.
  intros t k c _ [Hk _] _. destruct k as [|k]; simpl in Hk; [|done].
  injection Hk as <-. reflexivity.
Defined.

Lemma SetCachedData_returns data : forall reg,
  (forall t k c, (t, None) ∈ data -> first_titled reg k c -> title c = t ->
     _ref c = None) ->
  is_Some (SetCachedData data reg).
Proof.
  induction data as [|[a v] data IH]; intros reg Hun; simpl; [done|].
  destruct (SetCachedData_entry reg (a, v)) as [reg1|] eqn:He.
  - pose proof He as [Hlen Hspec]%SetCachedData_entry_spec.
    apply IH. intros t k c1 Ht Hfirst1 Htc.
    pose proof Hfirst1 as [Hk1 _].
    assert (is_Some (reg !! k)) as [c Hk].
    { apply lookup_lt_is_Some. rewrite <- Hlen. by eapply lookup_lt_Some. }
    destruct (Hspec k c Hk) as (c1' & Hk1' & (Htitle & _) & Hn & _).
    assert (c1' = c1) as -> by congruence.
    assert (Hfirst : first_titled reg k c).
    { eapply first_titled_stable; [|done|done|done].
      intros j x Hx. destruct (Hspec j x Hx) as (x1 & Hx1 & (Htx & _) & _).
      by exists x1. }
    assert (Hnone : _ref c = None).
    { apply (Hun t k c); [by right|done|congruence]. }
    by rewrite (Hn Hnone).
  - exfalso. unfold SetCachedData_entry in He. simpl in He.
    destruct (find _ reg) as [[j ac]|] eqn:Hf; [|done].
    apply find_first_titled in Hf as [Hfirst Ha].
    destruct (_ref ac) as [r|] eqn:Hr; [|done].
    destruct v as [l|]; [done|].
    assert (_ref ac = None); [|congruence].
    apply (Hun a j ac); [by left|done|done].
Qed.

(** X9. Restoring a snapshot of the registry into the registry it was taken
    from, in whatever order the entries of the snapshot are enumerated,
    goes through and does not change what a snapshot holds: taken again
    right after, it is the same dictionary, entry for entry, also when
    titles are shared. Two provisos: no descriptor is titled [__proto__],
    and a title whose first descriptor is mounted has its last descriptor
    mounted as well (otherwise the entry of the title is [undefined], and
    the restore stores [undefined] as the items of the first). *)
Theorem restore_keeps_snapshot reg data :
  "__proto__" ∉ title <$> reg ->
  (forall k c j c', first_titled reg k c -> last_titled reg j c' ->
     title c' = title c -> is_Some (_ref c) -> is_Some (_ref c')) ->
  data ≡ₚ GetCachedData reg ->
  exists reg',
    SetCachedData data reg = Some reg' /\
    GetCachedData reg' = GetCachedData reg.
Proof.
  intros _ Hmounted Hperm.
  destruct (GetCachedData_spec reg) as (Hnd & Hkeys & Hvals).
  assert (Hin : forall e, e ∈ data <-> e ∈ GetCachedData reg).
  { intros e. by rewrite Hperm. }
  assert (Hnd' : NoDup data.*1) by (by rewrite Hperm).
  destruct (SetCachedData_returns data reg) as [reg' Hs].
  { intros t k c Ht Hfirst Htc. apply Hin, Hvals in Ht as (j & c' & Hlast & Ht' & Hv).
    destruct (_ref c) as [r|] eqn:Hr; [|done].
    destruct (Hmounted k c j c' Hfirst Hlast) as [r' Hr']; [congruence|by rewrite Hr|].
    unfold cached in Hv. by rewrite Hr' in Hv. }
  exists reg'. split; [done|].
  apply SetCachedData_spec in Hs as [Hlen Hs]; [|done].
  symmetry. unfold GetCachedData. apply GetCachedData_foldl_agree.
  - apply NoDup_nil_2.
  - constructor.
  - apply Forall2_same_length_lookup_2; [done|].
    intros k c c' Hk Hk'. destruct (Hs k c Hk) as (c'' & Hk'' & [Ht _] & _).
    congruence.
  - intros k c c' Hk Hk'.
    destruct (Hs k c Hk) as (c'' & Hk'' & _ & Hn & Hr).
    assert (c'' = c') as -> by congruence.
    destruct (_ref c) as [r|] eqn:Href; [|left; by rewrite Hn].
    destruct (Hr r eq_refl) as (r' & Hr' & _ & Hw & Hkeep).
    assert (Hcached : items r' = persisted <$> items r \/ items r' = items r ->
              cached c' = cached c).
    { unfold cached. rewrite Hr', Href. simpl.
      intros [->| ->]; [|done]. by rewrite persisted_fmap_idemp. }
    destruct (first_titled_dec reg k c Hk) as [Hfirst|Hnf];
      [|left; apply Hcached; right; apply Hkeep; by left].
    assert (Hkey : title c ∈ (GetCachedData reg).*1).
    { apply Hkeys. apply list_elem_of_fmap. exists c. split; [done|].
      by eapply list_elem_of_lookup_2. }
    apply list_elem_of_fmap in Hkey as ([t v] & Ht & Hkey). simpl in Ht. subst t.
    pose proof (Hw Hfirst v (proj2 (Hin _) Hkey)) as Hv.
    apply Hvals in Hkey as (k0 & c0 & [Hk0 Hlast] & Ht0 & Hv0).
    destruct (lt_eq_lt_dec k0 k) as [[Hlt| ->]|Hgt].
    + destruct Hfirst as [_ Hmin]. by destruct (Hmin k0 c0 Hlt Hk0).
    + assert (c0 = c) as -> by congruence.
      left. apply Hcached. left.
      rewrite Hv0 in Hv. unfold cached in Hv. rewrite Href in Hv. simpl in Hv.
      congruence.
    + right. by exists k0, c0.
Qed.

Lemma restore_keeps_snapshot_witness :
  let reg := registryAB ++ registryTT in
  exists reg',
    SetCachedData (reverse (GetCachedData reg)) reg = Some reg' /\
    GetCachedData reg' = GetCachedData reg.
Proof.
  apply (restore_keeps_snapshot (registryAB ++ registryTT)).
  - apply (bool_decide_unpack _). vm_compute. reflexivity.
  - intros k c j c' _ [Hj _] _ _. apply list_elem_of_lookup_2 in Hj.
    repeat (apply elem_of_cons in Hj as [->|Hj]; [by eexists|]).
    by apply elem_of_nil in Hj.
  - apply reverse_Permutation.
Defined.

(** * Further properties of cleaning *)

Lemma cleaned_app l l' : cleaned (l ++ l') = cleaned l ++ cleaned l'.
Proof.
  induction l as [|e l IH]; simpl; [done|].
  destruct e; simpl; by rewrite ?IH.
Qed.

Lemma cleanable_from_spec clean_defined l : forall k j,
  j ∈ (cleanable_from clean_defined l k).*1 <->
  k <= j /\ exists ac r, l !! (j - k) = Some ac /\ _ref ac = Some r /\
    clean_defined r = true.
Proof.
  induction l as [|ac l IH]; intros k j; simpl.
  - split; [by intros ?%elem_of_nil|]. by intros (_ & ? & ? & ? & _).
  - assert (Hrest : j ∈ (cleanable_from clean_defined l (S k)).*1 <->
              k < j /\ exists ac0 r, (ac :: l) !! (j - k) = Some ac0 /\
                _ref ac0 = Some r /\ clean_defined r = true).
    { rewrite IH. split.
      - intros (Hj & ac0 & r & Hl & Hr). split; [lia|]. exists ac0, r.
        by replace (j - k) with (S (j - S k)) by lia.
      - intros (Hj & ac0 & r & Hl & Hr). split; [lia|]. exists ac0, r.
        by replace (j - k) with (S (j - S k)) in Hl by lia. }
    assert (Hhead : forall r, _ref ac = Some r -> clean_defined r = false ->
              ~ (k = j /\ exists ac0 r0, (ac :: l) !! (j - k) = Some ac0 /\
                   _ref ac0 = Some r0 /\ clean_defined r0 = true)).
    { intros r Hr Hc (<- & ac0 & r0 & Hl & Hr0 & Hc0).
      rewrite Nat.sub_diag in Hl. simpl in Hl. congruence. }
    destruct (_ref ac) as [r|] eqn:Hr.
    + destruct (clean_defined r) eqn:Hc; simpl.
      * rewrite elem_of_cons, Hrest. split.
        -- intros [->|[Hj H]]; [|split; [lia|done]].
           split; [lia|]. exists ac, r. by rewrite Nat.sub_diag.
        -- intros (Hj & H). destruct (decide (j = k)) as [->|Hne]; [by left|].
           right. split; [lia|done].
      * rewrite Hrest. split; [intros [Hj H]; split; [lia|done]|].
        intros (Hj & H). split; [|done].
        destruct (decide (k = j)) as [Heq|Hne]; [|lia].
        by destruct (Hhead r eq_refl Hc).
    + rewrite Hrest. split; [intros [Hj H]; split; [lia|done]|].
      intros (Hj & ac0 & r0 & Hl & Hr0 & Hc0). split; [|by exists ac0, r0].
      destruct (decide (k = j)) as [<-|Hne]; [|lia].
      rewrite Nat.sub_diag in Hl. simpl in Hl. congruence.
Qed.

Lemma cleanable_from_increasing clean_defined l : forall k i j ki kj,
  i < j ->
  (cleanable_from clean_defined l k).*1 !! i = Some ki ->
  (cleanable_from clean_defined l k).*1 !! j = Some kj ->
  ki < kj.
Proof.
  induction l as [|ac l IH]; intros k i j ki kj Hij; simpl; [done|].
  destruct (_ref ac) as [r|]; [destruct (clean_defined r)|]; simpl;
    try (by apply IH).
  destruct j as [|j]; [lia|]. simpl. destruct i as [|i]; simpl.
  - intros [= <-] Hj. apply list_elem_of_lookup_2 in Hj.
    apply cleanable_from_spec in Hj as [Hj _]. lia.
  - apply IH. lia.
Qed.

Lemma clean_loop_spec outcome task step l : forall currentStep,
  (forall k t, (k, t) ∈ l -> outcome k <> Pends) ->
  exists trace,
    clean_loop outcome task step currentStep l
    = (trace ++ [Editor (CloseTaskFeedback (Some task) (Some 500))], Returned) /\
    cleaned trace = l.*1 /\
    Forall (cleaning_step task) trace.
Proof.
  induction l as [|[k t] l IH]; intros currentStep Hout; simpl.
  - by exists [].
  - assert (Hl : forall k0 t0, (k0, t0) ∈ l -> outcome k0 <> Pends).
    { intros k0 t0 Hin. apply (Hout k0 t0). by right. }
    pose proof (Hout k t) as Hk.
    destruct (outcome k); [| |by destruct Hk; [left|]].
    + destruct (IH (js_add currentStep step) Hl) as (trace & -> & Hc & Hs).
      eexists (_ :: _ :: _ :: trace). split; [done|]. simpl.
      split; [by rewrite Hc|]. by repeat constructor.
    + destruct (IH currentStep Hl) as (trace & -> & Hc & Hs).
      eexists (_ :: _ :: trace). split; [done|]. simpl.
      split; [by rewrite Hc|]. by repeat constructor.
Qed.

(** X10. Once the dialog is confirmed, and as long as every promise of a
    [clean] is settled, [clearUnusedAssets] returns after calling [clean]
    once on every mounted handler that defines it, in registration order,
    whether the promises are fulfilled or rejected; the task it opened is
    closed by its last call and by no other. *)
Theorem clearUnusedAssets_cleans_every_handler clean_defined outcome task reg :
  (forall k, outcome k <> Pends) ->
  exists dialog trace,
    clearUnusedAssets clean_defined outcome (Some true) task reg
    = (dialog :: Editor (AddTaskFeedback task (Fin 0) "Cleaning Assets..." None)
         :: trace ++ [Editor (CloseTaskFeedback (Some task) (Some 500))],
       Returned) /\
    Forall (cleaning_step task) trace /\
    (forall k, k ∈ cleaned trace <->
       exists ac r, reg !! k = Some ac /\ _ref ac = Some r /\
         clean_defined r = true) /\
    (forall i j ki kj, i < j -> cleaned trace !! i = Some ki ->
       cleaned trace !! j = Some kj -> ki < kj).
Proof.
  intros Hout. unfold clearUnusedAssets.
  destruct (clean_loop_spec outcome task
              (js_div (Fin 100) (js_of_nat (length (cleanable clean_defined reg))))
              (cleanable clean_defined reg) (Fin 0)) as (trace & -> & Hc & Hs).
  { intros k t _. apply Hout. }
  eexists _, trace. split; [done|]. split; [done|]. rewrite Hc. split.
  - intros k. unfold cleanable. rewrite cleanable_from_spec, Nat.sub_0_r.
    split; [by intros [_ H]|]. intros H. split; [lia|done].
  - apply cleanable_from_increasing.
Qed.

Lemma clearUnusedAssets_cleans_every_handler_witness :
  exists dialog trace,
    clearUnusedAssets (fun _ => true) first_rejects (Some true) 0 registryAB
    = (dialog :: Editor (AddTaskFeedback 0 (Fin 0) "Cleaning Assets..." None)
         :: trace ++ [Editor (CloseTaskFeedback (Some 0) (Some 500))],
       Returned) /\
    Forall (cleaning_step 0) trace /\
    (forall k, k ∈ cleaned trace <->
       exists ac r, registryAB !! k = Some ac /\ _ref ac = Some r /\
         (fun _ : AbstractAssets => true) r = true) /\
    (forall i j ki kj, i < j -> cleaned trace !! i = Some ki ->
       cleaned trace !! j = Some kj -> ki < kj).
Proof.
  apply clearUnusedAssets_cleans_every_handler.
  intros k. destruct k; simpl; discriminate.
Defined.

Lemma Clean_from_rejects clean_defined outcome l : forall k0 i a r,
  l !! i = Some a -> _ref a = Some r -> clean_defined r = true ->
  outcome (k0 + i) = Rejects ->
  (forall j a' r', j < i -> l !! j = Some a' -> _ref a' = Some r' ->
     clean_defined r' = true /\ outcome (k0 + j) = Fulfils) ->
  exists trace,
    Clean_from clean_defined outcome l k0 = (trace, Thrown) /\
    cleaned trace = (cleanable_from clean_defined (take (S i) l) k0).*1.
Proof.
  induction l as [|a0 l IH]; intros k0 i a r Hi Hr Hc Ho Hbefore; [done|].
  destruct i as [|i]; simpl in Hi.
  - injection Hi as ->. rewrite Nat.add_0_r in Ho. simpl.
    rewrite Hr, Hc, Ho. simpl. by exists [HandlerClean k0].
  - destruct (IH (S k0) i a r Hi Hr Hc) as (trace & Ht & Hcl).
    { by replace (S k0 + i) with (k0 + S i) by lia. }
    { intros j a' r' Hj Hl Hr'. replace (S k0 + j) with (k0 + S j) by lia.
      apply (Hbefore (S j) a' r'); [lia|done|done]. }
    change (take (S (S i)) (a0 :: l)) with (a0 :: take (S i) l). simpl.
    destruct (_ref a0) as [r0|] eqn:Hr0; [|by exists trace].
    destruct (Hbefore 0 a0 r0) as [Hc0 Ho0]; [lia|done|done|].
    rewrite Nat.add_0_r in Ho0. rewrite Hc0, Ho0, Ht. simpl.
    exists (HandlerClean k0 :: trace). split; [done|]. simpl. by rewrite Hcl.
Qed.

(** X11. The static [Clean] has no such boundary: when the promise of a
    handler is rejected (the ones before it fulfilled), [Clean] ends by
    throwing, having called [clean] on the mounted handlers up to that one
    and on none behind it. *)
Theorem Clean_stops_at_first_rejection clean_defined outcome reg k a r :
  reg !! k = Some a -> _ref a = Some r -> clean_defined r = true ->
  outcome k = Rejects ->
  (forall j a' r', j < k -> reg !! j = Some a' -> _ref a' = Some r' ->
     clean_defined r' = true /\ outcome j = Fulfils) ->
  exists trace,
    Clean clean_defined outcome reg = (trace, Thrown) /\
    (forall j, j ∈ cleaned trace <->
       j <= k /\ exists ac r', reg !! j = Some ac /\ _ref ac = Some r' /\
         clean_defined r' = true) /\
    last (cleaned trace) = Some k.
Proof.
  intros Hk Hr Hc Ho Hbefore.
  destruct (Clean_from_rejects clean_defined outcome reg 0 k a r Hk Hr Hc Ho Hbefore)
    as (trace & Ht & Hcl).
  exists trace. split; [done|]. rewrite Hcl. split.
  - intros j. rewrite cleanable_from_spec, Nat.sub_0_r. split.
    + intros (_ & ac & r' & Hl & Hr' & Hc').
      apply lookup_take_Some in Hl as [Hl Hj]. split; [lia|]. by exists ac, r'.
    + intros (Hj & ac & r' & Hl & Hr' & Hc'). split; [lia|].
      exists ac, r'. split; [|done]. apply lookup_take_Some. split; [done|lia].
  - rewrite (take_S_r _ _ a) by done.
    assert (Hsnoc : forall l k0,
              cleanable_from clean_defined (l ++ [a]) k0
              = cleanable_from clean_defined l k0 ++ [(k0 + length l, title a)]).
    { induction l as [|a0 l IH]; intros k0; simpl.
      - by rewrite Hr, Hc, Nat.add_0_r.
      - rewrite IH. replace (S k0 + length l) with (k0 + S (length l)) by lia.
        destruct (_ref a0) as [r0|]; [destruct (clean_defined r0)|]; done. }
    rewrite Hsnoc, fmap_app. simpl. rewrite last_snoc, length_take. apply lookup_lt_Some in Hk. f_equal. lia.
Qed.

Lemma Clean_stops_at_first_rejection_witness :
  exists trace,
    Clean (fun _ => true) first_rejects registryAB = (trace, Thrown) /\
    (forall j, j ∈ cleaned trace <->
       j <= 0 /\ exists ac r', registryAB !! j = Some ac /\ _ref ac = Some r' /\
         (fun _ : AbstractAssets => true) r' = true) /\
    last (cleaned trace) = Some 0.
Proof.
  apply (Clean_stops_at_first_rejection (fun _ => true) first_rejects registryAB 0
           (descriptor "A" 1 (Some (handler [item "a1"; item "a2"] true)))
           (handler [item "a1"; item "a2"] true)).
  - reflexivity.
  - reflexivity.
  - reflexivity.
  - reflexivity.
  - intros j a' r' Hj. lia.
Defined.

(** * Further properties of the coordinator *)

Lemma refreshAllAssets_total tid a c o f st :
  wf st -> tid <= length (activations st) ->
  (forall a', activations st !! tid = Some a' -> is_pass a' = false) ->
  exists st', _refreshAllAssets tid a c o f st = Some st' /\ wf st' /\
    shape <$> _assetComponents st' = shape <$> _assetComponents st.
Proof.
  intros Hwf Hle Hslot. destruct (_isRefreshing st) eqn:Hi.
  - rewrite refreshAllAssets_busy by done. eexists. split; [done|]. split.
    + apply wf_fulfil. by apply wf_set_needsRefresh.
    + by destruct (fulfil_state tid a (set_needsRefresh true st)) as (-> & _).
  - destruct (start_spec 1 tid a c o f st) as (st' & Hst & Hwf' & Hshape & _).
    + by apply mid_of_idle.
    + done.
    + by destruct (wf_idle st Hwf Hi) as (_ & ? & _).
    + by exists st'.
Qed.

Lemma drop_files_total tid files taskFeedBack components l i st :
  wf st -> tid <= length (activations st) ->
  (forall a', activations st !! tid = Some a' -> is_pass a' = false) ->
  Forall (fun k => is_mounted k st) l ->
  Forall (fun k => is_mounted k st) components ->
  exists st', drop_files tid files taskFeedBack components l i st = Some st' /\
    wf st' /\ shape <$> _assetComponents st' = shape <$> _assetComponents st.
Proof.
  revert i st. induction l as [|c l IH]; intros i st Hwf Hle Hslot Hl Hcs; simpl.
  - apply (refreshAllAssets_total tid ByAddFilesToAssets None JsUndefined None
             (emit [CloseTaskFeedback (Some taskFeedBack) None] st));
      [by apply wf_emit|done|done].
  - apply Forall_cons in Hl as [[[c0 r] Hc] Hl]. rewrite Hc.
    destruct (onDropFiles r).
    + eexists. split; [done|]. split; [|done].
      apply wf_suspend; [by apply wf_emit|done|done|done].
    + apply (IH (S i) (emit [UpdateTaskFeedback (Some taskFeedBack)
                                (drop_progress (length components) i) None] st));
        [by apply wf_emit|done|done|done|done].
Qed.

Lemma react_total ev st :
  wf st -> enabled ev st ->
  exists st', react ev st = Some st' /\ wf st' /\
    shape <$> _assetComponents st' = shape <$> _assetComponents st.
Proof.
  intros Hwf Hen.
  assert (Hfresh : forall a', activations st !! length (activations st) = Some a' ->
            is_pass a' = false).
  { intros a' Ha'. apply lookup_lt_Some in Ha'. lia. }
  destruct ev as [c o|c|files|tid ok|k|k l];
    [unfold react, refresh; apply refreshAllAssets_total; [exact Hwf|lia|exact Hfresh]
    |unfold react, forceRefresh; apply refreshAllAssets_total; [exact Hwf|lia|exact Hfresh]
    |simpl in *..].
  - unfold addFilesToAssets. destruct (_isRefreshing st) eqn:Hi.
    + eexists. split; [done|]. split; [by apply wf_emit|done].
    + simpl. pose proof (mounted_is_mounted st) as Hm.
      apply (drop_files_total _ _ _ _ _ _
               (emit [AddTaskFeedback (tasks st) (Fin 0) "Loading Files..." None]
                  (set_tasks (S (tasks st)) st))); [|done|done|done|done].
      apply wf_emit. apply (wf_update st); try done.
      apply (valid_observers_ext st); [done|done|by apply wf_observers].
  - destruct (activations st !! tid) as [[f|f| |]|] eqn:Ht; try done.
    + destruct ok.
      * destruct (resume_refresh_spec tid f st Hwf Ht) as (st1 & Hst1 & Hwf1 & Hshape & _).
        by exists st1.
      * eexists. split; [done|]. split; [by apply wf_settle|done].
    + destruct ok.
      * unfold resume_drop.
        pose proof (wf_frames _ Hwf _ _ Ht) as Hv. simpl in Hv.
        apply (drop_files_total _ _ _ _ _ _
                 (emit [UpdateTaskFeedback (Some (df_taskFeedBack f))
                          (drop_progress (length (df_components f)) (df_i f)) None] st)).
        -- by apply wf_emit.
        -- simpl. apply lookup_lt_Some in Ht. lia.
        -- simpl. intros a'. rewrite Ht. by intros [= <-].
        -- by apply Forall_drop.
        -- done.
      * eexists. split; [done|]. split; [by apply wf_settle|done].
  - destruct (handler_step (Handler_notifies k) st Hwf Hen)
      as (st' & Hst & Hwf' & Hshape & _). by exists st'.
  - destruct (handler_step (Handler_items k l) st Hwf Hen)
      as (st' & Hst & Hwf' & Hshape & _). by exists st'.
Qed.

Lemma react_enabled ev st st' : react ev st = Some st' -> enabled ev st.
Proof.
  destruct ev as [c o|c|files|tid ok|k|k l]; simpl; try done.
  - by destruct (activations st !! tid) as [[f|f| |]|].
  - unfold is_mounted. destruct (instance k st); [by eexists|done].
  - unfold is_mounted. destruct (instance k st); [by eexists|done].
Qed.

Lemma run_total evs : forall st st',
  wf st -> run evs st = Some st' ->
  wf st' /\ shape <$> _assetComponents st' = shape <$> _assetComponents st.
Proof.
  induction evs as [|ev evs IH]; intros st st' Hwf; simpl.
  - by intros [= <-].
  - destruct (react ev st) as [st1|] eqn:Hr; [|done]. intros Hrun.
    destruct (react_total ev st Hwf (react_enabled _ _ _ Hr)) as (st2 & Hst2 & Hwf2 & Hshape2).
    assert (st2 = st1) as -> by congruence.
    destruct (IH st1 st' Hwf2 Hrun) as [Hwf' Hshape']. split; [done|congruence].
Qed.

Lemma selected_spec componentCtor l : forall k j,
  j ∈ selected componentCtor l k <->
  k <= j /\ exists component r, l !! (j - k) = Some component /\
    match componentCtor with Some c => ctor component = c | None => True end /\
    _ref component = Some r.
Proof.
  induction l as [|a l IH]; intros k j; simpl.
  - split; [by intros ?%elem_of_nil|]. by intros (_ & ? & ? & ? & _).
  - assert (Hrest : j ∈ selected componentCtor l (S k) <->
              k < j /\ exists component r, (a :: l) !! (j - k) = Some component /\
                match componentCtor with Some c => ctor component = c | None => True end /\
                _ref component = Some r).
    { rewrite IH. split.
      - intros (Hj & c0 & r & Hl & H). split; [lia|]. exists c0, r.
        by replace (j - k) with (S (j - S k)) by lia.
      - intros (Hj & c0 & r & Hl & H). split; [lia|]. exists c0, r.
        by replace (j - k) with (S (j - S k)) in Hl by lia. }
    assert (Hhere : forall component,
              (a :: l) !! (j - k) = Some component -> k <= j -> ~ k < j ->
              component = a /\ j = k).
    { intros component Hl Hle Hlt. assert (j = k) as -> by lia.
      rewrite Nat.sub_diag in Hl. simpl in Hl. split; congruence. }
    destruct (match componentCtor with
              | Some c => negb (Nat.eqb c (ctor a))
              | None => false
              end) eqn:Hskip.
    + rewrite Hrest. split; [intros [Hj H]; split; [lia|done]|].
      intros (Hj & c0 & r & Hl & Hc & Hr). split; [|by exists c0, r].
      destruct (decide (k < j)) as [|Hn]; [done|].
      destruct (Hhere c0 Hl Hj Hn) as [-> ->].
      destruct componentCtor as [c|]; [|done]. subst c.
      by rewrite Nat.eqb_refl in Hskip.
    + destruct (_ref a) as [r|] eqn:Hr.
      * rewrite elem_of_cons, Hrest. split.
        -- intros [->|[Hj H]]; [|split; [lia|done]].
           split; [lia|]. exists a, r. rewrite Nat.sub_diag. split; [done|].
           split; [|done]. destruct componentCtor as [c|]; [|done].
           apply negb_false_iff, Nat.eqb_eq in Hskip. done.
        -- intros (Hj & H). destruct (decide (j = k)) as [->|Hne]; [by left|].
           right. split; [lia|done].
      * rewrite Hrest. split; [intros [Hj H]; split; [lia|done]|].
        intros (Hj & c0 & r & Hl & Hc & Hr0). split; [|by exists c0, r].
        destruct (decide (k < j)) as [|Hn]; [done|].
        destruct (Hhere c0 Hl Hj Hn) as [-> ->]. congruence.
Qed.

Lemma selected_increasing componentCtor l : forall k m n i j,
  m < n ->
  selected componentCtor l k !! m = Some i ->
  selected componentCtor l k !! n = Some j ->
  i < j.
Proof.
  induction l as [|a l IH]; intros k m n i j Hmn; simpl; [done|].
  destruct (match componentCtor with Some _ => _ | None => _ end);
    [by apply IH|].
  destruct (_ref a); [|by apply IH].
  destruct n as [|n]; [lia|]. simpl. destruct m as [|m]; simpl.
  - intros [= <-] Hj. apply list_elem_of_lookup_2, selected_lower in Hj. lia.
  - apply IH. lia.
Qed.

(** X12. A refresh restricted to a class visits the mounted handlers of
    that class and no other. With the guard open, [refresh(component,
    object)] and [forceRefresh(component)] start a pass over the mounted
    descriptors of the class, in registration order. With none, the call
    returns at once, no handler called, the coordinator idle. Otherwise,
    whatever happens while the pass runs (calls, handlers at work, other
    promises settled), as long as the promise it awaits is not rejected:
    after [k] fulfilments the handlers called are exactly the first
    [k + 1] of them, and the pass awaits the last of these. After the
    last fulfilment the coordinator is idle, unless a request arrived: the
    pass that follows is not restricted to the class, it starts at the
    first mounted handler. *)
Theorem filtered_refresh_visits_class_handlers st0 ev c :
  wf st0 -> _isRefreshing st0 = false ->
  (exists o, ev = Call_refresh (Some c) o) \/ ev = Call_forceRefresh (Some c) ->
  let tid := length (activations st0) in
  let handlers := selected (Some c) (_assetComponents st0) 0 in
  (forall j, j ∈ handlers <->
     exists component r, _assetComponents st0 !! j = Some component /\
       ctor component = c /\ _ref component = Some r) /\
  (forall m n i j, m < n -> handlers !! m = Some i -> handlers !! n = Some j -> i < j) /\
  exists st,
    react ev st0 = Some st /\ passes st = S (passes st0) /\
    (handlers = [] -> Idle st /\ refreshed (log st) = refreshed (log st0)) /\
    forall evs st',
      Forall (fun e => e <> Settle tid false) evs ->
      settles tid evs < length handlers ->
      run evs st = Some st' ->
      refreshed (log st')
      = refreshed (log st0) ++ take (S (settles tid evs)) handlers /\
      (exists f' j,
         handlers !! settles tid evs = Some j /\
         activations st' !! tid = Some (AwaitRefresh f') /\
         rf_index f' = j /\ componentCtor (rf_pass f') = Some c) /\
      (S (settles tid evs) = length handlers ->
       exists st'',
         react (Settle tid true) st' = Some st'' /\
         if _needsRefresh st'
         then refreshed (log st'')
              = refreshed (log st') ++ take 1 (mounted (_assetComponents st0)) /\
              passes st'' = S (passes st)
         else refreshed (log st'') = refreshed (log st') /\
              passes st'' = passes st /\ Idle st'').
Proof.
  intros Hwf0 Hi Hev tid handlers.
  split.
  { intros j. unfold handlers. rewrite selected_spec, Nat.sub_0_r.
    split; [by intros [_ H]|]. intros H. split; [lia|done]. }
  split; [apply selected_increasing|].
  assert (Hcall : exists o fo,
            react ev st0 = _refreshAllAssets tid ByCaller (Some c) o fo st0).
  { destruct Hev as [[o ->]| ->]; [by exists o, None|by exists JsUndefined, (Some true)]. }
  destruct Hcall as (o & fo & Hcall).
  destruct (start_spec 1 tid ByCaller (Some c) o fo st0)
    as (st & Hst & Hwf & Hshape & Hpass & _ & _ & Hsel).
  { by apply mid_of_idle. }
  { done. }
  { by destruct (wf_idle st0 Hwf0 Hi) as (_ & ? & _). }
  assert (Hreact : react ev st0 = Some st) by (by rewrite Hcall).
  exists st. split; [done|]. split; [done|].
  fold handlers in Hsel. destruct handlers as [|j0 rest] eqn:Hh.
  - destruct Hsel as (Hi' & Hlog & _). split.
    + intros _. split; [by apply wf_idle|done].
    + intros evs st' _ Hk. simpl in Hk. lia.
  - split; [done|]. intros evs st' Hrej Hk Hrun.
    destruct Hsel as ((f & Hf & Hp & Hj0) & _ & _).
    destruct (prologue_pass ByCaller (Some c) o fo st0) as (Hc & _).
    assert (Hfc : componentCtor (rf_pass f) = Some c) by (by rewrite Hp).
    destruct (pass_start ev st0 st tid f Hwf0 Hreact Hpass Hf)
      as (j & rest' & Hsel' & Hj & Hrem & Hlog & _).
    rewrite Hfc in Hsel'. fold handlers in Hsel'. rewrite Hh in Hsel'.
    injection Hsel' as <- <-.
    destruct (in_flight_run tid evs st f st' Hwf Hf Hrun Hrej)
      as (f' & Hwf' & Hf' & Hp' & Hshape' & Hpos & _ & _ & _ & _ & Hlog');
      [rewrite Hrem; simpl in Hk; lia|].
    rewrite Hrem, Hj in *. split_and!.
    + rewrite Hlog', Hlog, <- app_assoc. done.
    + exists f', (rf_index f'). split_and!; try done; [|congruence].
      rewrite <- (Nat.add_0_r (settles tid evs)), <- lookup_drop, <- Hpos. done.
    + intros Hlast.
      assert (Hrem' : remaining f' st' = []).
      { apply (f_equal length) in Hpos. rewrite length_drop in Hpos.
        simpl in Hpos, Hlast. apply nil_length_inv. lia. }
      destruct (resume_refresh_spec tid f' st' Hwf' Hf')
        as (st2 & Hst2 & Hwf2 & Hshape2 & Hothers2 & Hcase).
      rewrite Hrem' in Hcase. destruct Hcase as [Hn2 Hcase].
      exists st2. split; [simpl; by rewrite Hf'|].
      destruct (_needsRefresh st').
      * destruct Hcase as (Hp2 & _ & p & j2 & _ & _ & Hhead & _ & Hlog2).
        rewrite (mounted_shape (_assetComponents st0) (_assetComponents st'))
          in Hhead by congruence.
        destruct (mounted (_assetComponents st0)) as [|j3 l3]; [done|].
        injection Hhead as <-. split; [done|].
        destruct (in_flight_run tid evs st f st' Hwf Hf Hrun Hrej)
          as (_ & _ & _ & _ & _ & _ & Hpass' & _); [rewrite Hrem; simpl in Hk; lia|].
        congruence.
      * destruct Hcase as (Hp2 & Hi2 & _ & Hlog2).
        destruct (in_flight_run tid evs st f st' Hwf Hf Hrun Hrej)
          as (_ & _ & _ & _ & _ & _ & Hpass' & _); [rewrite Hrem; simpl in Hk; lia|].
        split_and!; [done|congruence|by apply wf_idle].
Qed.

Lemma filtered_refresh_visits_class_handlers_witness :
  let st0 := initial registryAB in
  let handlers := selected (Some 2) (_assetComponents st0) 0 in
  (forall j, j ∈ handlers <->
     exists component r, _assetComponents st0 !! j = Some component /\
       ctor component = 2 /\ _ref component = Some r) /\
  (forall m n i j, m < n -> handlers !! m = Some i -> handlers !! n = Some j -> i < j) /\
  exists st,
    react (Call_forceRefresh (Some 2)) st0 = Some st /\ passes st = S (passes st0) /\
    (handlers = [] -> Idle st /\ refreshed (log st) = refreshed (log st0)) /\
    forall evs st',
      Forall (fun e => e <> Settle 0 false) evs ->
      settles 0 evs < length handlers ->
      run evs st = Some st' ->
      refreshed (log st')
      = refreshed (log st0) ++ take (S (settles 0 evs)) handlers /\
      (exists f' j,
         handlers !! settles 0 evs = Some j /\
         activations st' !! 0 = Some (AwaitRefresh f') /\
         rf_index f' = j /\ componentCtor (rf_pass f') = Some 2) /\
      (S (settles 0 evs) = length handlers ->
       exists st'',
         react (Settle 0 true) st' = Some st'' /\
         if _needsRefresh st'
         then refreshed (log st'')
              = refreshed (log st') ++ take 1 (mounted (_assetComponents st0)) /\
              passes st'' = S (passes st)
         else refreshed (log st'') = refreshed (log st') /\
              passes st'' = passes st /\ Idle st'').
Proof.
  intros st0 handlers.
  apply (filtered_refresh_visits_class_handlers (initial registryAB)
           (Call_forceRefresh (Some 2)) 2).
  - apply wf_initial, unobserved_registryAB.
  - reflexivity.
  - by right.
Defined.

(** X13. In every state the coordinator reaches from a fresh one, whatever
    the calls, the handlers and the promises do (rejections included): at
    most one pass is executing; a pass only executes with the guard set; a
    rerun is only requested with the guard set; with the guard open the
    coordinator is idle; and the registry holds the descriptors it held at
    the start, with their titles, identifiers, classes, instances mounted
    or not, and hooks. *)
Theorem reachable_state_invariants reg evs st :
  unobserved reg -> run evs (initial reg) = Some st ->
  length (executing st) <= 1 /\
  (executing st <> [] -> _isRefreshing st = true) /\
  (_needsRefresh st = true -> _isRefreshing st = true) /\
  (_isRefreshing st = false -> Idle st) /\
  shape <$> _assetComponents st = shape <$> reg.
Proof.
  intros Hu Hrun. destruct (run_total evs (initial reg) st) as [Hwf Hshape];
    [by apply wf_initial|done|].
  split_and!.
  - by apply executing_at_most_one.
  - intros Hex. destruct (_isRefreshing st) eqn:Hi; [done|].
    by destruct (wf_idle st Hwf Hi) as (_ & _ & ?).
  - by apply wf_pending.
  - by apply wf_idle.
  - done.
Qed.

Lemma reachable_state_invariants_witness :
  length (executing rejectedAB) <= 1 /\
  (executing rejectedAB <> [] -> _isRefreshing rejectedAB = true) /\
  (_needsRefresh rejectedAB = true -> _isRefreshing rejectedAB = true) /\
  (_isRefreshing rejectedAB = false -> Idle rejectedAB) /\
  shape <$> _assetComponents rejectedAB = shape <$> registryAB.
Proof.
  apply (reachable_state_invariants registryAB
           [Call_refresh None JsUndefined; Settle 0 false]).
  - apply unobserved_registryAB.
  - vm_compute. reflexivity.
Defined.

(** X14. A rejected [onDropFiles] does not hold the coordinator: when the
    promise [addFilesToAssets] awaits is rejected, the call ends there
    and nothing else changes (no flag, no descriptor, no call on the
    editor: the task it opened stays open); if the guard was open the
    coordinator is idle, and the next [refresh] starts a pass and calls
    the first handler it selects. *)
Theorem rejected_onDropFiles_leaves_coordinator_usable st tid f :
  wf st -> activations st !! tid = Some (AwaitOnDropFiles f) ->
  exists st1,
    react (Settle tid false) st = Some st1 /\
    activations st1 = <[tid := Rejected]> (activations st) /\
    _isRefreshing st1 = _isRefreshing st /\
    _needsRefresh st1 = _needsRefresh st /\
    _assetComponents st1 = _assetComponents st /\
    log st1 = log st /\
    (_isRefreshing st = false ->
     Idle st1 /\
     forall c o, exists st2,
       refresh c o st1 = Some st2 /\
       passes st2 = S (passes st1) /\
       refreshed (log st2)
       = refreshed (log st1) ++ take 1 (selected c (_assetComponents st1) 0)).
Proof.
  intros Hwf Ht. exists (settle tid Rejected st). simpl. rewrite Ht.
  split_and!; try done.
  intros Hi.
  assert (Hwf1 : wf (settle tid Rejected st)) by (by apply wf_settle).
  split; [by apply wf_idle|].
  intros c o. unfold refresh, _refreshAllAssets.
  destruct (start_spec 1 (length (activations (settle tid Rejected st))) ByCaller c o None
              (settle tid Rejected st))
    as (st2 & Hst2 & _ & _ & Hpass & _ & _ & Hsel).
  - by apply mid_of_idle.
  - done.
  - by destruct (wf_idle _ Hwf1 Hi) as (_ & ? & _).
  - exists st2. split; [done|]. split; [done|].
    change (_assetComponents (settle tid Rejected st)) with (_assetComponents st) in *.
    change (log (settle tid Rejected st)) with (log st) in *.
    destruct (selected c (_assetComponents st) 0) as [|j rest].
    + destruct Hsel as (_ & -> & _). simpl. by rewrite app_nil_r.
    + by destruct Hsel as (_ & _ & ->).
Qed.

Lemma rejected_onDropFiles_leaves_coordinator_usable_witness :
  exists st1,
    react (Settle 0 false) droppingAB = Some st1 /\
    activations st1 = <[0 := Rejected]> (activations droppingAB) /\
    _isRefreshing st1 = _isRefreshing droppingAB /\
    _needsRefresh st1 = _needsRefresh droppingAB /\
    _assetComponents st1 = _assetComponents droppingAB /\
    log st1 = log droppingAB /\
    (_isRefreshing droppingAB = false ->
     Idle st1 /\
     forall c o, exists st2,
       refresh c o st1 = Some st2 /\
       passes st2 = S (passes st1) /\
       refreshed (log st2)
       = refreshed (log st1) ++ take 1 (selected c (_assetComponents st1) 0)).
Proof.
  apply (rejected_onDropFiles_leaves_coordinator_usable droppingAB 0
           {| df_files := ["a.png"]; df_taskFeedBack := 0;
              df_components := [0; 1]; df_i := 0 |}).
  - apply (react_wf (Call_addFilesToAssets ["a.png"]) (initial registryAB)).
    + apply wf_initial, unobserved_registryAB.
    + vm_compute. reflexivity.
  - vm_compute. reflexivity.
Defined.

(** X15. In a state the coordinator reaches from a fresh one, an event
    goes through exactly when it can happen: every call of [refresh],
    [forceRefresh] and [addFilesToAssets] returns or suspends, every
    settled promise resumes the activation that awaits it, every
    notification of a mounted handler is delivered; none ever finds a
    descriptor without the instance it counted on, or a pass without its
    counter. *)
Theorem enabled_events_never_fail reg evs st ev :
  unobserved reg -> run evs (initial reg) = Some st ->
  (is_Some (react ev st) <-> enabled ev st).
Proof.
  intros Hu Hrun. destruct (run_total evs (initial reg) st) as [Hwf _];
    [by apply wf_initial|done|].
  split.
  - intros [st' Hst']. by eapply react_enabled.
  - intros Hen. destruct (react_total ev st Hwf Hen) as (st' & Hst' & _). by exists st'.
Qed.

Lemma enabled_events_never_fail_witness :
  is_Some (react (Settle 0 true) refreshingAB) <-> enabled (Settle 0 true) refreshingAB.
Proof.
  apply (enabled_events_never_fail registryAB [Call_refresh None JsUndefined]).
  - apply unobserved_registryAB.
  - vm_compute. reflexivity.
Defined.
